(** * fastlane: the docker executor ([fastlane/worker/docker_executor.py])

    A shallow embedding of [DockerPool] and [Executor] and the properties of
    host selection, circuit-breaker dispatch, execution binding, status
    mapping and result assembly.

    Python objects that the module mutates (the execution's [metadata]
    dictionary, the breakers kept by the executor and their storage, the
    blacklist set of the key-value store, the containers of every docker
    host) live in one explicit [state]; every method is a computation in a
    state-and-exception monad [M]. *)

From Stdlib Require Import ZArith Lia List Ascii String.
From stdpp Require Import base strings gmap list pretty.

Open Scope Z_scope.
Open Scope string_scope.
Open Scope list_scope.

(** ** Python values and exceptions *)

(** The values stored in [execution.metadata]. *)
Inductive pyval :=
| PStr (s : string)
| PInt (z : Z).

(** [f"{v}"]. *)
Definition fmt (v : pyval) : string :=
  match v with
  | PStr s => s
  | PInt z => pretty z
  end.

(** [f"{host}:{port}"], the key of breakers and blacklist entries. *)
Definition address (host : string) (port : Z) : string :=
  host +:+ ":" +:+ pretty port.

(** The exception classes that the module raises, catches or lets through.
    [HostUnavailableError(host, port, err)] is the class of
    [fastlane.worker.errors], known here by its constructor call. *)
Inductive exn :=
| ConnectionError (base_url : string)          (* requests.exceptions.ConnectionError *)
| CircuitBreakerError (msg : string)           (* pybreaker.CircuitBreakerError *)
| HostUnavailableError (host : string) (port : Z) (err : exn)
| RuntimeError (msg : string)
| KeyError (key : string)
| TypeError (msg : string)
| IndexError (msg : string)
| ValueError (msg : string)
| UnicodeDecodeError
| NotFound (what : string)                     (* docker.errors.NotFound *)
| APIError (msg : string).                     (* docker.errors.APIError *)

Inductive result (A : Type) :=
| Ret (a : A)
| Raise (e : exn).
Arguments Ret {A} a.
Arguments Raise {A} e.

(** ** The container engine, as seen through [docker.DockerClient] *)

(** A container of a docker host: the fields of [Container] that the
    executor reads ([id], [name], [status], [attrs["State"]], the log frames
    and [image.attrs["RepoTags"]]). A log frame is tagged [true] when it was
    written to stderr. *)
Record container := {
  c_id : string;
  c_name : string;
  c_status : string;
  c_exit_code : Z;
  c_error : string;
  c_started_at : string;
  c_finished_at : string;
  c_frames : list (bool * list Byte.byte);
  c_repo_tags : list string
}.

Definition with_name (n : string) (c : container) : container :=
  {| c_id := c_id c; c_name := n; c_status := c_status c;
     c_exit_code := c_exit_code c; c_error := c_error c;
     c_started_at := c_started_at c; c_finished_at := c_finished_at c;
     c_frames := c_frames c; c_repo_tags := c_repo_tags c |}.

Definition with_status (st : string) (c : container) : container :=
  {| c_id := c_id c; c_name := c_name c; c_status := st;
     c_exit_code := c_exit_code c; c_error := c_error c;
     c_started_at := c_started_at c; c_finished_at := c_finished_at c;
     c_frames := c_frames c; c_repo_tags := c_repo_tags c |}.

(** What the next engine call meets on the network. *)
Inductive fault :=
| Healthy
| Refused                 (* the connection fails *)
| Failing (msg : string). (* the engine answers with an error *)

(** ** Circuit breakers ([pybreaker]) *)

Inductive circuit_state := closed | open | half_open.

Global Instance circuit_state_eq_dec : EqDecision circuit_state.
Proof. solve_decision. Defined.

(** The stored part of a breaker: [state], [fail_counter], [opened_at]. *)
Record breaker := {
  b_state : circuit_state;
  fail_counter : Z;
  opened_at : option Z
}.

Definition default_breaker : breaker :=
  {| b_state := closed; fail_counter := 0; opened_at := None |}.

(** ** The pool *)

(** [(host, port, client)]; the client handle is the [base_url] it was
    created with. *)
Definition host_client : Type := string * Z * string.

(** [DockerPool], as [__init_clients] leaves it: a farm of
    [clients_per_regex] is [(regex, clients)], a regex is kept as its
    pattern, [None] when the farm has no pattern; [clients] is the
    dictionary by address, in insertion order; [max_running] is keyed by
    the regex. *)
Record DockerPool := {
  clients_per_regex : list (option string * list host_client);
  clients : list (string * host_client);
  max_running : gmap (option string) Z
}.

(** [dict.get(key)] on a dictionary kept in insertion order. *)
Fixpoint dict_get {V} (d : list (string * V)) (key : string) : option V :=
  match d with
  | [] => None
  | (k, v) :: rest => if decide (k = key) then Some v else dict_get rest key
  end.

(** [dict.values()]. *)
Definition dict_values {V} (d : list (string * V)) : list V := map snd d.

(** ** The state *)

Record state := {
  metadata : gmap string pyval;              (* execution.metadata *)
  circuits : gmap string breaker;            (* Executor.circuits with their storage *)
  blacklisted : gset string;                 (* members of blacklist_key *)
  engines : gmap string (list container);    (* containers of each docker host *)
  faults : list fault;                       (* what the coming engine calls meet *)
  rand : list nat;                           (* the coming draws of [random] *)
  now : Z;                                   (* datetime.utcnow(), in seconds *)
  next_id : nat;                             (* source of container ids *)
  fail_max : Z;                              (* DOCKER_CIRCUIT_BREAKER_MAX_FAILS *)
  reset_timeout : Z                          (* DOCKER_CIRCUIT_BREAKER_RESET_TIMEOUT_SECONDS *)
}.

Definition set_metadata (f : gmap string pyval → gmap string pyval) (s : state) : state :=
  {| metadata := f (metadata s); circuits := circuits s; blacklisted := blacklisted s;
     engines := engines s; faults := faults s; rand := rand s; now := now s;
     next_id := next_id s; fail_max := fail_max s; reset_timeout := reset_timeout s |}.

Definition set_circuits (f : gmap string breaker → gmap string breaker) (s : state) : state :=
  {| metadata := metadata s; circuits := f (circuits s); blacklisted := blacklisted s;
     engines := engines s; faults := faults s; rand := rand s; now := now s;
     next_id := next_id s; fail_max := fail_max s; reset_timeout := reset_timeout s |}.

Definition set_engines (f : gmap string (list container) → gmap string (list container))
    (s : state) : state :=
  {| metadata := metadata s; circuits := circuits s; blacklisted := blacklisted s;
     engines := f (engines s); faults := faults s; rand := rand s; now := now s;
     next_id := next_id s; fail_max := fail_max s; reset_timeout := reset_timeout s |}.

Definition set_faults (fs : list fault) (s : state) : state :=
  {| metadata := metadata s; circuits := circuits s; blacklisted := blacklisted s;
     engines := engines s; faults := fs; rand := rand s; now := now s;
     next_id := next_id s; fail_max := fail_max s; reset_timeout := reset_timeout s |}.

Definition set_rand (r : list nat) (s : state) : state :=
  {| metadata := metadata s; circuits := circuits s; blacklisted := blacklisted s;
     engines := engines s; faults := faults s; rand := r; now := now s;
     next_id := next_id s; fail_max := fail_max s; reset_timeout := reset_timeout s |}.

Definition set_next_id (n : nat) (s : state) : state :=
  {| metadata := metadata s; circuits := circuits s; blacklisted := blacklisted s;
     engines := engines s; faults := faults s; rand := rand s; now := now s;
     next_id := n; fail_max := fail_max s; reset_timeout := reset_timeout s |}.

(** ** The monad of methods *)

Definition M (A : Type) : Type := state → result A * state.

Global Instance M_ret : MRet M := λ A a s, (Ret a, s).

Global Instance M_bind : MBind M := λ A B f m s,
  match m s with
  | (Ret a, s') => f a s'
  | (Raise e, s') => (Raise e, s')
  end.

Definition raise {A} (e : exn) : M A := λ s, (Raise e, s).

Definition get_state : M state := λ s, (Ret s, s).

Definition modify (f : state → state) : M unit := λ s, (Ret tt, f s).

(** [try: m except ...: handler]; the handler answers [None] for the
    exceptions that no [except] clause catches. *)
Definition try_except {A} (m : M A) (handler : exn → option (M A)) : M A := λ s,
  match m s with
  | (Ret a, s') => (Ret a, s')
  | (Raise e, s') =>
      match handler e with
      | Some h => h s'
      | None => (Raise e, s')
      end
  end.

(** [d[key]]. *)
Definition getitem (key : string) : M pyval := λ s,
  match metadata s !! key with
  | Some v => (Ret v, s)
  | None => (Raise (KeyError key), s)
  end.

(** [d[key] = v]. *)
Definition setitem (key : string) (v : pyval) : M unit :=
  modify (set_metadata (insert key v)).

(** [del d[key]]. *)
Definition delitem (key : string) : M unit := λ s,
  match metadata s !! key with
  | Some _ => (Ret tt, set_metadata (delete key) s)
  | None => (Raise (KeyError key), s)
  end.

(** [key in d]. *)
Definition contains (key : string) : M bool := λ s,
  (Ret (bool_decide (is_Some (metadata s !! key))), s).

(** [random.choice(seq)]. *)
Definition random_choice {A} (l : list A) : M A := λ s,
  let n := match rand s with [] => 0%nat | n :: _ => n end in
  match l !! (n mod length l)%nat with
  | Some a => (Ret a, set_rand (tail (rand s)) s)
  | None => (Raise (IndexError "Cannot choose from an empty sequence"), s)
  end.

(** ** Engine calls *)

(** Modelled from the spec: the container engine behind
    [docker.DockerClient], a library outside the repository (section 6,
    engine contract consumed). One request goes to the docker host behind
    the client [cl]; the head of [faults] decides what it meets: a refused
    connection raises [requests.exceptions.ConnectionError], an engine
    failure raises [docker.errors.APIError], otherwise [f] runs on the
    host's containers. *)
Definition engine_call {A} (cl : string)
    (f : list container → result A * list container) : M A := λ s,
  let s1 := set_faults (tail (faults s)) s in
  match head (faults s) with
  | Some Refused => (Raise (ConnectionError cl), s1)
  | Some (Failing msg) => (Raise (APIError msg), s1)
  | _ =>
      let '(r, cs) := f (default [] (engines s !! cl)) in
      (r, set_engines (insert cl cs) s1)
  end.

Definition has_id (cid : string) (c : container) : bool := bool_decide (c_id c = cid).

Definition has_name (n : string) (c : container) : bool := bool_decide (c_name c = n).

Definition update_container (cid : string) (f : container → container)
    (cs : list container) : list container :=
  map (λ c, if has_id cid c then f c else c) cs.

(** [needle in haystack]. *)
Fixpoint is_substring (needle haystack : string) : bool :=
  String.prefix needle haystack ||
  match haystack with
  | EmptyString => false
  | String _ rest => is_substring needle rest
  end.

(** The [filters] argument of [containers.list]. *)
Inductive list_filter :=
| NoFilter
| StatusIs (st : string)
| NameHas (part : string).

Definition passes (flt : list_filter) (c : container) : bool :=
  match flt with
  | NoFilter => true
  | StatusIs st => bool_decide (c_status c = st)
  | NameHas part => is_substring part (c_name c)
  end.

(** [client.images.pull(image, tag=tag)]. *)
Definition images_pull (cl image tag : string) : M unit :=
  engine_call cl (λ cs, (Ret tt, cs)).

(** [client.containers.list(sparse=False, all=all, filters=flt)]: without
    [all] only running containers are listed. *)
Definition containers_list (cl : string) (all : bool) (flt : list_filter) : M (list container) :=
  engine_call cl (λ cs,
    (Ret (filter (λ c, (all || bool_decide (c_status c = "running")) && passes flt c = true) cs), cs)).

(** [client.containers.get(container_id)]. *)
Definition containers_get (cl cid : string) : M container :=
  engine_call cl (λ cs,
    match find (has_id cid) cs with
    | Some c => (Ret c, cs)
    | None => (Raise (NotFound cid), cs)
    end).

(** [client.containers.run(image=..., name=..., command=..., detach=True,
    environment=...)]: a started container with a fresh id. *)
Definition containers_run (cl image name command : string)
    (envs : list (string * string)) : M container :=
  s ← get_state;
  modify (set_next_id (S (next_id s)));;
  let c := {| c_id := pretty (next_id s); c_name := name; c_status := "running";
              c_exit_code := 0; c_error := EmptyString; c_started_at := pretty (now s);
              c_finished_at := EmptyString; c_frames := []; c_repo_tags := [image] |} in
  engine_call cl (λ cs,
    if existsb (has_name name) cs then (Raise (APIError ("Conflict: " +:+ name)), cs)
    else (Ret c, app cs [c])).

(** A request about one container of the host, by id. *)
Definition on_container {A} (cl cid : string)
    (f : container → list container → result A * list container) : M A :=
  engine_call cl (λ cs,
    match find (has_id cid) cs with
    | Some c => f c cs
    | None => (Raise (NotFound cid), cs)
    end).

(** [container.stop()]. *)
Definition container_stop (cl cid : string) : M unit :=
  on_container cl cid (λ _ cs, (Ret tt, update_container cid (with_status "exited") cs)).

(** [container.rename(new_name)]; names are unique on a host. *)
Definition container_rename (cl cid new_name : string) : M unit :=
  on_container cl cid (λ _ cs,
    if existsb (has_name new_name) cs then (Raise (APIError ("Conflict: " +:+ new_name)), cs)
    else (Ret tt, update_container cid (with_name new_name) cs)).

(** [container.remove()]. *)
Definition container_remove (cl cid : string) : M unit :=
  on_container cl cid (λ _ cs, (Ret tt, filter (λ c, has_id cid c = false) cs)).

Definition selected (stdout stderr : bool) (frame : bool * list Byte.byte) : bool :=
  if fst frame then stderr else stdout.

(** The payloads of the frames of [c] written to the selected streams. *)
Definition log_chunks (stdout stderr : bool) (c : container) : list (list Byte.byte) :=
  map snd (List.filter (selected stdout stderr) (c_frames c)).

(** What the container wrote to the selected streams. *)
Definition log_bytes (stdout stderr : bool) (c : container) : list Byte.byte :=
  concat (log_chunks stdout stderr c).

(** [container.logs(stdout=..., stderr=...)]. *)
Definition container_logs (cl cid : string) (stdout stderr : bool) : M (list Byte.byte) :=
  on_container cl cid (λ c cs, (Ret (log_bytes stdout stderr c), cs)).

(** [container.logs(stdout=..., stderr=..., stream=True)]: the frames, to
    be read one at a time. *)
Definition container_logs_stream (cl cid : string) (stdout stderr : bool)
    : M (list (list Byte.byte)) :=
  on_container cl cid (λ c cs, (Ret (log_chunks stdout stderr c), cs)).

(** Reading the next frame of a stream is one more exchange with the host. *)
Definition stream_next (cl : string) (chunk : list Byte.byte) : M (list Byte.byte) :=
  engine_call cl (λ cs, (Ret chunk, cs)).

(** ** Breaker calls *)

Definition read_breaker (c : string) : M breaker := λ s,
  (Ret (default default_breaker (circuits s !! c)), s).

Definition write_breaker (c : string) (b : breaker) : M unit :=
  modify (set_circuits (insert c b)).

(** [CircuitBreaker.open()]: the open state records [opened_at]. *)
Definition breaker_open (c : string) : M unit :=
  s ← get_state;
  b ← read_breaker c;
  write_breaker c {| b_state := open; fail_counter := fail_counter b;
                     opened_at := Some (now s) |}.

(** [CircuitBreaker.half_open()]. *)
Definition breaker_half_open (c : string) : M unit :=
  b ← read_breaker c;
  write_breaker c {| b_state := half_open; fail_counter := fail_counter b;
                     opened_at := opened_at b |}.

(** Modelled from the spec: [_handle_success] of [pybreaker], a library
    outside the repository (section 4.1, call protocol). The counter is
    reset, and a trial call that succeeds closes the breaker. *)
Definition handle_success (c : string) (trial : bool) : M unit :=
  b ← read_breaker c;
  write_breaker c {| b_state := if trial then closed else b_state b;
                     fail_counter := 0; opened_at := opened_at b |}.

(** Modelled from the spec: [_handle_error] of [pybreaker] (section 4.1,
    call protocol). [get_circuit] excludes no exception, so every exception
    of the call counts. The counter is incremented; a failed trial call, or
    a counter that reaches [fail_max], opens the breaker and raises
    [CircuitBreakerError]; otherwise the exception of the call is raised
    again. *)
Definition handle_error {A} (c : string) (trial : bool) (exc : exn) : M A :=
  b ← read_breaker c;
  let n := fail_counter b + 1 in
  write_breaker c {| b_state := b_state b; fail_counter := n; opened_at := opened_at b |};;
  s ← get_state;
  if trial then
    breaker_open c;;
    raise (CircuitBreakerError "Trial call failed, circuit breaker opened")
  else if decide (fail_max s ≤ n)%Z then
    breaker_open c;;
    raise (CircuitBreakerError "Failures threshold reached, circuit breaker opened")
  else raise exc.

(** The call made by a closed or half-open breaker. *)
Definition guarded_call {A} (c : string) (trial : bool) (func : M A) : M A := λ s,
  match func s with
  | (Ret a, s') => (handle_success c trial;; mret a) s'
  | (Raise e, s') => handle_error c trial e s'
  end.

(** Is the breaker [b] open with its timeout still running at time [t]? *)
Definition still_open (b : breaker) (t timeout : Z) : bool :=
  match opened_at b with
  | Some at_ => bool_decide (t < at_ + timeout)%Z
  | None => false
  end.

(** Modelled from the spec: [circuit.call(func)] of [pybreaker] (sections 3
    and 4.1), also what a function decorated with [@circuit] does when
    called. A closed breaker runs the call; an open one fails at once until
    [reset_timeout] has passed since [opened_at], and then lets one trial
    call through, half-open. *)
Definition circuit_call {A} (c : string) (func : M A) : M A :=
  b ← read_breaker c;
  s ← get_state;
  match b_state b with
  | closed => guarded_call c false func
  | half_open => guarded_call c true func
  | open =>
      if still_open b (now s) (reset_timeout s) then
        raise (CircuitBreakerError "Timeout not elapsed yet, circuit breaker still open")
      else
        breaker_half_open c;;
        guarded_call c true func
  end.

(** [Executor.get_circuit(key)]: [setdefault] on the breakers, a new
    breaker starting closed unless the store already has a state under the
    namespace [key]. The breaker is handed out as its key. *)
Definition get_circuit (key : string) : M string := λ s,
  match circuits s !! key with
  | Some _ => (Ret key, s)
  | None => (Ret key, set_circuits (insert key default_breaker) s)
  end.

(** [circuit.current_state]. *)
Definition current_state (c : string) : M circuit_state :=
  b ← read_breaker c;
  mret (b_state b).

(** [host, port, cl = ...] on what [get_client] returned. *)
Definition unpack (r : option host_client) : M host_client :=
  match r with
  | Some c => mret c
  | None => raise (TypeError "cannot unpack non-iterable NoneType object")
  end.

(** [for x in l: ...], collecting what each round returns. *)
Fixpoint for_each {A B} (f : A → M B) (l : list A) : M (list B) :=
  match l with
  | [] => mret []
  | x :: rest =>
      y ← f x;
      ys ← for_each f rest;
      mret (y :: ys)
  end.

(** ** Constants of the module *)

Module Status.

(** [ExecutionResult.Status]. *)
Inductive t := created | running | done | failed.

Global Instance eq_dec : EqDecision t.
Proof. solve_decision. Defined.

End Status.

(** [STATUS]. *)
Definition STATUS : list (string * Status.t) :=
  [ ("created", Status.created);
    ("exited", Status.done);
    ("dead", Status.failed);
    ("running", Status.running) ].

Definition job_prefix : string := "fastlane-job".

Definition nl : string := String "010"%char EmptyString.

(** ** [repr] of a [bytes] object, as an f-string renders it *)

Definition squote : ascii := "039"%char.
Definition dquote : ascii := "034"%char.
Definition backslash : ascii := "092"%char.

Definition hex_digit (n : N) : ascii :=
  default "0"%char (list_ascii_of_string "0123456789abcdef" !! N.to_nat n).

Definition byte_repr (quote : ascii) (b : Byte.byte) : string :=
  let c := ascii_of_byte b in
  let n := Byte.to_N b in
  if bool_decide (c = quote) || bool_decide (c = backslash) then
    String backslash (String c EmptyString)
  else if bool_decide (n = 9%N) then String backslash "t"
  else if bool_decide (n = 10%N) then String backslash "n"
  else if bool_decide (n = 13%N) then String backslash "r"
  else if bool_decide (n < 32)%N || bool_decide (127 ≤ n)%N then
    String backslash
      (String "x" (String (hex_digit (n / 16)) (String (hex_digit (n mod 16)) EmptyString)))
  else String c EmptyString.

Definition bytes_repr (bs : list Byte.byte) : string :=
  let has q := existsb (λ b, bool_decide (ascii_of_byte b = q)) bs in
  let quote := if has squote && negb (has dquote) then dquote else squote in
  "b" +:+ String quote (String.concat EmptyString (map (byte_repr quote) bs))
      +:+ String quote EmptyString.

(** ** The blacklist endpoints: JSON bodies, requests, responses *)

(** A value that [json.loads] (or [request.get_json]) produces; [JNull] is
    [None], an object is a [dict] with its keys in order, a float is kept as
    its text. *)
Unset Elimination Schemes.
Inductive json :=
| JNull
| JBool (b : bool)
| JInt (z : Z)
| JFloat (text : string)
| JStr (s : string)
| JList (l : list json)
| JObj (d : list (string * json)).
Set Elimination Schemes.

(** What the handlers read of the Flask request: the result of
    [request.get_json()] and of [request.get_data()]. *)
Record request := {
  req_json : json;
  req_data : list Byte.byte
}.

(** A response: the body and the status code. *)
Definition response : Type := string * Z.

(** [make_response(msg, status)]. *)
Definition make_response (msg : string) (status : Z) : response := (msg, status).

(** [blacklist_key]. *)
Definition blacklist_key : string := "docker-executor::blacklisted-hosts".

(** [x == "host"] for a JSON value [x]. *)
Definition is_host_literal (x : json) : bool :=
  match x with
  | JStr s => bool_decide (s = "host")
  | _ => false
  end.

(** [redis.sadd(blacklist_key, member)]. *)
Definition sadd (member : string) : M unit := λ s,
  (Ret tt,
   {| metadata := metadata s; circuits := circuits s;
      blacklisted := {[member]} ∪ blacklisted s;
      engines := engines s; faults := faults s; rand := rand s; now := now s;
      next_id := next_id s; fail_max := fail_max s; reset_timeout := reset_timeout s |}).

(** [redis.srem(blacklist_key, member)]. *)
Definition srem (member : string) : M unit := λ s,
  (Ret tt,
   {| metadata := metadata s; circuits := circuits s;
      blacklisted := blacklisted s ∖ {[member]};
      engines := engines s; faults := faults s; rand := rand s; now := now s;
      next_id := next_id s; fail_max := fail_max s; reset_timeout := reset_timeout s |}).

(** ** Building the pool *)

(** [s.split(sep)] for a separator of one character. *)
Fixpoint split_char (sep : ascii) (s : string) : list string :=
  match s with
  | EmptyString => [EmptyString]
  | String c rest =>
      if decide (c = sep) then EmptyString :: split_char sep rest
      else
        match split_char sep rest with
        | [] => [String c EmptyString]
        | part :: parts => String c part :: parts
        end
  end.

(** [d[key] = v] on a dictionary kept in insertion order: a key that is
    present keeps its place. *)
Fixpoint dict_set {V} (d : list (string * V)) (key : string) (v : V) : list (string * V) :=
  match d with
  | [] => [(key, v)]
  | (k, x) :: rest =>
      if decide (k = key) then (k, v) :: rest else (k, x) :: dict_set rest key v
  end.

(** Why the construction of an [Executor] or of its pool raises. *)
Inductive init_error :=
| BadAddress (address : string)    (* ValueError: [host, port = address.split(":")] *)
| BadBaseUrl (address : string)    (* docker.errors.DockerException *)
| BadPort (port : string)          (* ValueError: [int(port)] *)
| BadPattern (pattern : string).   (* re.error *)

(** An entry of [DOCKER_HOSTS], with the types of the farm configuration:
    [cluster["match"]], [cluster["hosts"]] and [cluster.get("maxRunning")]. *)
Record cluster := {
  cl_match : string;
  cl_hosts : list string;
  cl_max_running : option Z
}.

(** ** A small installation, for examples *)

(** A pattern of plain characters matches the task ids that start with it. *)
Definition literal_match (pattern task_id : string) : bool :=
  String.prefix pattern task_id.

(** Timestamps kept as the engine wrote them. *)
Definition parse_any (dt : string) : option string := Some dt.

(** Logs of ASCII text. *)
Definition decode_ascii (raw : list Byte.byte) : option string :=
  Some (string_of_list_byte raw).

Definition gpu_host : host_client := ("hgpu", 2375, "hgpu:2375").
Definition h1 : host_client := ("h1", 2375, "h1:2375").
Definition h2 : host_client := ("h2", 2375, "h2:2375").

(** Two farms: [gpu-] tasks go to the first, the second takes everything. *)
Definition sample_pool : DockerPool :=
  {| clients_per_regex := [ (Some "gpu-", [gpu_host]); (None, [h1; h2]) ];
     clients := [ ("hgpu:2375", gpu_host); ("h1:2375", h1); ("h2:2375", h2) ];
     max_running := {[ Some "gpu-" := 4; None := 8 ]} |}.

(** One farm with one host. *)
Definition single_pool : DockerPool :=
  {| clients_per_regex := [ (None, [h1]) ];
     clients := [ ("h1:2375", h1) ];
     max_running := {[ None := 10 ]} |}.

(** Nothing bound, no breaker yet, empty hosts, a healthy network. *)
Definition fresh : state :=
  {| metadata := ∅; circuits := ∅; blacklisted := ∅;
     engines := {[ "hgpu:2375" := []; "h1:2375" := []; "h2:2375" := [] ]};
     faults := []; rand := []; now := 1000; next_id := 1;
     fail_max := 5; reset_timeout := 60 |}.

(** A finished job container with output on both streams. *)
Definition exited_container : container :=
  {| c_id := "c1"; c_name := "fastlane-job-e1"; c_status := "exited";
     c_exit_code := 0; c_error := EmptyString;
     c_started_at := "2024-01-01T00:00:00Z"; c_finished_at := "2024-01-01T00:00:01Z";
     c_frames := [ (false, list_byte_of_string "out"); (true, list_byte_of_string "err") ];
     c_repo_tags := ["img:v1"] |}.

(** An execution bound to [h1] and to [exited_container]. *)
Definition bound_state : state :=
  {| metadata := {[ "docker_host" := PStr "h1"; "docker_port" := PInt 2375;
                    "container_id" := PStr "c1" ]};
     circuits := ∅; blacklisted := ∅;
     engines := {[ "h1:2375" := [exited_container] ]};
     faults := []; rand := []; now := 1000; next_id := 2;
     fail_max := 5; reset_timeout := 60 |}.

Definition job_container (cid name : string) : container :=
  {| c_id := cid; c_name := name; c_status := "exited";
     c_exit_code := 0; c_error := EmptyString;
     c_started_at := "2024-01-01T00:00:00Z"; c_finished_at := "2024-01-01T00:00:01Z";
     c_frames := []; c_repo_tags := ["img:v1"] |}.

(** Two hosts, each with one defunct and one live job container. *)
Definition reap_state : state :=
  {| metadata := ∅; circuits := ∅; blacklisted := ∅;
     engines := {[ "h1:2375" := [ job_container "a1" "defunct-fastlane-job-x1";
                                  job_container "a2" "fastlane-job-y1" ];
                   "h2:2375" := [ job_container "b1" "defunct-fastlane-job-x2";
                                  job_container "b2" "fastlane-job-y2" ] ]};
     faults := []; rand := []; now := 1000; next_id := 1;
     fail_max := 2; reset_timeout := 60 |}.

Definition two_hosts : DockerPool :=
  {| clients_per_regex := [ (None, [h1; h2]) ];
     clients := [ ("h1:2375", h1); ("h2:2375", h2) ];
     max_running := {[ None := 10 ]} |}.


(** ** Further samples *)

(** The body that the tests of the blacklist endpoints post:
    a JSON object with the one key [host]. *)
Definition host_body (host : string) : string :=
  "{" +:+ String dquote "host" +:+ String dquote ": " +:+ String dquote host
      +:+ String dquote "}".

(** A parser that knows the body for [h1:2375] and rejects everything
    else. *)
Definition loads_h1 (raw : list Byte.byte) : option json :=
  if bool_decide (string_of_list_byte raw = host_body "h1:2375")
  then Some (JObj [("host", JStr "h1:2375")])
  else None.

(** The client of the store writes strings as they are and integers in
    decimal; it refuses the other values. *)
Definition member_text (v : json) : option string :=
  match v with
  | JStr s => Some s
  | JInt z => Some (pretty z)
  | _ => None
  end.

(** A request posted without a JSON content type: [get_json()] is [None]
    and the body is in [get_data()]. *)
Definition post_h1 : request :=
  {| req_json := JNull; req_data := list_byte_of_string (host_body "h1:2375") |}.

(** A request whose object has no [host] key. *)
Definition post_name : request :=
  {| req_json := JObj [("name", JStr "h1:2375")]; req_data := [] |}.

(** A request sent as JSON. *)
Definition json_h1 : request :=
  {| req_json := JObj [("host", JStr "h1:2375")]; req_data := [] |}.

(** [int] on decimal digits. *)
Definition digit_value (c : ascii) : option Z :=
  let n := Z.of_N (N_of_ascii c) in
  if bool_decide (48 ≤ n ≤ 57)%Z then Some (n - 48)%Z else None.

Fixpoint digits_value (acc : Z) (s : string) : option Z :=
  match s with
  | EmptyString => Some acc
  | String c rest =>
      match digit_value c with
      | Some d => digits_value (10 * acc + d)%Z rest
      | None => None
      end
  end.

Definition int_of_digits (s : string) : option Z :=
  match s with
  | EmptyString => None
  | _ => digits_value 0 s
  end.

Definition any_text (s : string) : bool := true.

(** The configuration from which [sample_pool] is built. *)
Definition sample_hosts : list (option string * list string * Z) :=
  [ (Some "gpu-", ["hgpu:2375"], 4); (None, ["h1:2375"; "h2:2375"], 8) ].

(** [DOCKER_HOSTS] for [sample_hosts]. *)
Definition sample_clusters : list cluster :=
  [ {| cl_match := "gpu-"; cl_hosts := ["hgpu:2375"]; cl_max_running := Some 4 |};
    {| cl_match := EmptyString; cl_hosts := ["h1:2375"; "h2:2375"];
       cl_max_running := Some 8 |} ].

(** A pool whose only farm takes [gpu-] tasks. *)
Definition gpu_pool : DockerPool :=
  {| clients_per_regex := [ (Some "gpu-", [gpu_host]) ];
     clients := [ ("hgpu:2375", gpu_host) ];
     max_running := {[ Some "gpu-" := 4 ]} |}.

(** An execution bound to [h1], with no container yet. *)
Definition bound_idle : state :=
  {| metadata := {[ "docker_host" := PStr "h1"; "docker_port" := PInt 2375 ]};
     circuits := ∅; blacklisted := {[ "h1:2375" ]};
     engines := {[ "h1:2375" := [] ]};
     faults := []; rand := []; now := 1000; next_id := 1;
     fail_max := 5; reset_timeout := 60 |}.

(** The breaker of [h1] opened a hundred seconds ago; its reset timeout is
    sixty seconds. *)
Definition tripped_state : state :=
  {| metadata := ∅;
     circuits := {[ "h1:2375" := {| b_state := open; fail_counter := 5;
                                    opened_at := Some 900 |} ]};
     blacklisted := ∅;
     engines := {[ "h1:2375" := [] ]};
     faults := []; rand := []; now := 1000; next_id := 1;
     fail_max := 5; reset_timeout := 60 |}.

(** The breaker of [h1] is one failure away from [fail_max], and the next
    request will be refused. *)
Definition strained_state : state :=
  {| metadata := ∅;
     circuits := {[ "h1:2375" := {| b_state := closed; fail_counter := 4;
                                    opened_at := None |} ]};
     blacklisted := ∅;
     engines := {[ "h1:2375" := [] ]};
     faults := [Refused]; rand := []; now := 1000; next_id := 1;
     fail_max := 5; reset_timeout := 60 |}.
(** ** DockerPool *)

Section Executor.

(** [re.compile(pattern).match(task_id)]. *)
Variable re_match : string → string → bool.

(** [dateutil.parser.parse]; [None] when it raises. *)
Variable datetime : Type.
Variable parse : string → option datetime.

(** [bytes.decode("utf-8")]; [None] when it raises. *)
Variable decode : list Byte.byte → option string.

(** [ps], the probe of [refresh_circuits]. *)
Definition ps (client : string) : M unit :=
  containers_list client false NoFilter;;
  mret tt.

(** [DockerPool.refresh_circuits]. *)
Fixpoint refresh_circuits (cls : list host_client) (blacklisted_hosts : gset string) : M unit :=
  match cls with
  | [] => mret tt
  | (host, port, client) :: rest =>
      if decide (address host port ∈ blacklisted_hosts) then
        refresh_circuits rest blacklisted_hosts
      else
        try_except
          (circuit ← get_circuit (address host port);
           circuit_call circuit (ps client))
          (λ e, match e with
                | CircuitBreakerError _ => Some (mret tt)
                | _ => None
                end);;
        refresh_circuits rest blacklisted_hosts
  end.

(** The list comprehension [filtered] of [get_client]. *)
Fixpoint filter_clients (cls : list host_client) (blacklist : gset string)
    : M (list host_client) :=
  match cls with
  | [] => mret []
  | (host, port, client) :: rest =>
      if decide (address host port ∈ blacklist) then filter_clients rest blacklist
      else
        circuit ← get_circuit (address host port);
        st ← current_state circuit;
        kept ← filter_clients rest blacklist;
        mret (if decide (st = closed) then (host, port, client) :: kept else kept)
  end.

(** [regex is not None and not regex.match(task_id)]. *)
Definition farm_skipped (regex : option string) (task_id : string) : bool :=
  match regex with
  | Some r => negb (re_match r task_id)
  | None => false
  end.

Definition no_host_msg (task_id : string) : string :=
  "Failed to find a docker host for task id " +:+ task_id +:+ ".".

(** The loop over [clients_per_regex] of [get_client] and the [raise] that
    follows it. *)
Fixpoint select_client (farms : list (option string * list host_client))
    (task_id : string) (blacklist : gset string) : M host_client :=
  match farms with
  | [] => raise (RuntimeError (no_host_msg task_id))
  | (regex, cls) :: rest =>
      if farm_skipped regex task_id then select_client rest task_id blacklist
      else
        refresh_circuits cls blacklist;;
        filtered ← filter_clients cls blacklist;
        match filtered with
        | [] => select_client rest task_id blacklist
        | _ :: _ =>
            '(host, port, client) ← random_choice filtered;
            mret (host, port, client)
        end
  end.

(** [DockerPool.get_client]. *)
Definition get_client (pool : DockerPool) (task_id : string)
    (host port : option pyval) (blacklist : option (gset string))
    : M (option host_client) :=
  match host, port with
  | Some h, Some p => mret (dict_get (clients pool) (fmt h +:+ ":" +:+ fmt p))
  | _, _ =>
      c ← select_client (clients_per_regex pool) task_id (default ∅ blacklist);
      mret (Some c)
  end.

(** ** Executor *)

(** What [result.error] holds: a [str] or, when stderr is moved into it, a
    [bytes] object. *)
Inductive text :=
| Str (s : string)
| Bytes (b : list Byte.byte).

(** Modelled from the spec: the class [ExecutionResult] of [fastlane.worker],
    which is not part of this module (section 3, Execution Result). A
    field that [get_result] does not assign is [None]. *)
Record ExecutionResult := {
  status : Status.t;
  exit_code : option Z;
  error : text;
  started_at : option datetime;
  finished_at : option datetime;
  log : option (list Byte.byte)
}.

(** [Executor.get_blacklisted_hosts]. *)
Definition get_blacklisted_hosts : M (gset string) := λ s, (Ret (blacklisted s), s).

(** [if key in execution.metadata: del execution.metadata[key]]. *)
Definition discard (key : string) : M unit :=
  present ← contains key;
  if (present : bool) then delitem key else mret tt.

(** [except requests.exceptions.ConnectionError as err:] of [update_image]
    and [run]: the binding is dropped before [HostUnavailableError] is
    raised. *)
Definition except_connection_error_clearing {A} (host : string) (port : Z)
    (e : exn) : option (M A) :=
  match e with
  | ConnectionError _ =>
      Some (discard "docker_host";;
            discard "docker_port";;
            raise (HostUnavailableError host port e))
  | _ => None
  end.

(** [except requests.exceptions.ConnectionError as err:] of the other
    methods. *)
Definition except_connection_error {A} (host : string) (port : Z)
    (e : exn) : option (M A) :=
  match e with
  | ConnectionError _ => Some (raise (HostUnavailableError host port e))
  | _ => None
  end.

(** The decorated function [run] inside [update_image]. *)
Definition update_image_run (host : string) (port : Z) (cl image tag : string) : M unit :=
  try_except
    (images_pull cl image tag;;
     setitem "docker_host" (PStr host);;
     setitem "docker_port" (PInt port))
    (except_connection_error_clearing host port).

(** [Executor.update_image]. *)
Definition update_image (pool : DockerPool) (task_id image tag : string)
    (blacklisted_hosts : option (gset string)) : M unit :=
  blacklisted_hosts ← match blacklisted_hosts with
                      | None => get_blacklisted_hosts
                      | Some b => mret b
                      end;
  '(host, port, cl) ← get_client pool task_id None None (Some blacklisted_hosts) ≫= unpack;
  circuit ← get_circuit (address host port);
  circuit_call circuit (update_image_run host port cl image tag).

(** The decorated function [run] inside [Executor.run]. *)
Definition run_run (host : string) (port : Z) (cl execution_id image tag command : string)
    (envs : list (string * string)) : M unit :=
  try_except
    (let container_name := job_prefix +:+ "-" +:+ execution_id in
     container ← containers_run cl (image +:+ ":" +:+ tag) container_name command envs;
     setitem "container_id" (PStr (c_id container)))
    (except_connection_error_clearing host port).

(** [Executor.run]; [envs] is [job.metadata.get("envs", {})]. *)
Definition run (pool : DockerPool) (task_id execution_id image tag command : string)
    (envs : list (string * string)) (blacklisted_hosts : option (gset string)) : M bool :=
  bound ← contains "docker_host";
  '(host, port, cl) ←
    (if (bound : bool) then
       h ← getitem "docker_host";
       p ← getitem "docker_port";
       get_client pool task_id (Some h) (Some p) None ≫= unpack
     else
       blacklisted_hosts ← match blacklisted_hosts with
                           | None => get_blacklisted_hosts
                           | Some b => mret b
                           end;
       '(host, port, cl) ← get_client pool task_id None None (Some blacklisted_hosts)
                            ≫= unpack;
       setitem "docker_host" (PStr host);;
       setitem "docker_port" (PInt port);;
       mret (host, port, cl));
  circuit ← get_circuit (address host port);
  circuit_call circuit (run_run host port cl execution_id image tag command envs);;
  mret true.

(** The decorated function [run] inside [stop_job]. *)
Definition stop_job_run (host : string) (port : Z) (cl : string) : M unit :=
  try_except
    (container_id ← getitem "container_id";
     container ← containers_get cl (fmt container_id);
     container_stop cl (c_id container))
    (except_connection_error host port).

(** [Executor.stop_job]. *)
Definition stop_job (pool : DockerPool) (task_id : string) : M unit :=
  started ← contains "container_id";
  if negb (started : bool) then mret tt
  else
    h ← getitem "docker_host";
    p ← getitem "docker_port";
    '(host, port, cl) ← get_client pool task_id (Some h) (Some p) None ≫= unpack;
    circuit ← get_circuit (address host port);
    circuit_call circuit (stop_job_run host port cl).

(** [Executor.convert_date]. *)
Definition convert_date (dt : string) : M datetime :=
  match parse dt with
  | Some d => mret d
  | None => raise (ValueError dt)
  end.

(** The decorated function [run] inside [get_result]. *)
Definition get_result_run (host : string) (port : Z) (cl : string) : M container :=
  try_except
    (container_id ← getitem "container_id";
     containers_get cl (fmt container_id))
    (except_connection_error host port).

(** [STATUS.get(container.status, ExecutionResult.Status.done)]. *)
Definition result_status (engine_status : string) : Status.t :=
  default Status.done (dict_get STATUS engine_status).

(** Is the status [done] or [failed]? *)
Definition finished (st : Status.t) : bool :=
  bool_decide (st = Status.done) || bool_decide (st = Status.failed).

(** [Executor.get_result]. *)
Definition get_result (pool : DockerPool) (task_id : string) : M ExecutionResult :=
  h ← getitem "docker_host";
  p ← getitem "docker_port";
  '(host, port, cl) ← get_client pool task_id (Some h) (Some p) None ≫= unpack;
  circuit ← get_circuit (address host port);
  container ← circuit_call circuit (get_result_run host port cl);
  _ ← getitem "container_id";
  let st := result_status (c_status container) in
  started ← convert_date (c_started_at container);
  if finished st then
    finished_at ← convert_date (c_finished_at container);
    log ← container_logs cl (c_id container) true false;
    err ← (if bool_decide (c_error container ≠ EmptyString) then
             stderr ← container_logs cl (c_id container) false true;
             mret (Str (c_error container +:+ nl +:+ nl +:+ "stderr:" +:+ nl +:+ bytes_repr stderr))
           else
             stderr ← container_logs cl (c_id container) false true;
             mret (Bytes stderr));
    mret {| status := st; exit_code := Some (c_exit_code container); error := err;
            started_at := Some started; finished_at := Some finished_at;
            log := Some log |}
  else
    mret {| status := st; exit_code := Some (c_exit_code container);
            error := Str (c_error container);
            started_at := Some started; finished_at := None; log := None |}.

(** The loop of [_get_all_clients]: the clients of the first farm that has
    no pattern or has the pattern [regex]. *)
Fixpoint farm_clients (regex : string) (farms : list (option string * list host_client))
    : option (list host_client) :=
  match farms with
  | [] => None
  | (r, cl) :: rest =>
      match r with
      | Some r' => if decide (r' ≠ regex) then farm_clients regex rest else Some cl
      | None => Some cl
      end
  end.

(** [Executor._get_all_clients]. *)
Definition _get_all_clients (pool : DockerPool) (regex : option string)
    : M (list (host_client * string)) :=
  let all := dict_values (clients pool) in
  let cls := match regex with
             | Some r => default all (farm_clients r (clients_per_regex pool))
             | None => all
             end in
  for_each (λ '(host, port, client),
              circuit ← get_circuit (address host port);
              mret ((host, port, client), circuit)) cls.

(** [Executor._list_containers]. *)
Definition _list_containers (host : string) (port : Z) (client circuit : string)
    : M (list (string * Z * string)) :=
  circuit_call circuit
    (containers ← containers_list client false (StatusIs "running");
     mret (map (λ c, (host, port, c_id c))
               (filter (λ c, String.prefix job_prefix (c_name c) = true) containers))).

(** What [get_running_containers] returns. An entry of [available] is
    [(host, port, blacklisted, circuit)], an entry of [unavailable] is
    [(host, port, blacklisted, circuit, error)]. *)
Record running_containers := {
  available : list (string * Z * bool * circuit_state);
  unavailable : list (string * Z * bool * circuit_state * exn);
  running : list (string * Z * string)
}.

(** The loop of [get_running_containers] over the clients; it returns
    [(running, unavailable_clients)]. *)
Fixpoint list_running (cls : list (host_client * string)) (blacklisted_hosts : gset string)
    : M (list (string * Z * string) * list (string * Z * exn)) :=
  match cls with
  | [] => mret ([], [])
  | ((host, port, client), circuit) :: rest =>
      if decide (address host port ∈ blacklisted_hosts) then
        '(rs, us) ← list_running rest blacklisted_hosts;
        mret (rs, (host, port, RuntimeError "server is blacklisted") :: us)
      else
        here ← try_except
                  (r ← _list_containers host port client circuit; mret (inl r))
                  (λ err, Some (mret (inr err)));
        '(rs, us) ← list_running rest blacklisted_hosts;
        mret (match here with
              | inl r => (app r rs, us)
              | inr err => (rs, (host, port, err) :: us)
              end)
  end.

(** [Executor.get_running_containers]. *)
Definition get_running_containers (pool : DockerPool) (regex : option string)
    (blacklisted_hosts : option (gset string)) : M running_containers :=
  blacklisted_hosts ← match blacklisted_hosts with
                      | None => get_blacklisted_hosts
                      | Some b => mret b
                      end;
  cls ← _get_all_clients pool regex;
  '(rs, us) ← list_running cls blacklisted_hosts;
  let down := map (λ '(host, port, _), address host port) us in
  av ← for_each (λ '((host, port, _), circuit),
                   st ← current_state circuit;
                   mret (host, port, bool_decide (address host port ∈ blacklisted_hosts), st))
                (filter (λ '((host, port, _), _), address host port ∉ down) cls);
  un ← for_each (λ '(host, port, err),
                   circuit ← get_circuit (address host port);
                   st ← current_state circuit;
                   mret (host, port, bool_decide (address host port ∈ blacklisted_hosts),
                         st, err))
                us;
  mret {| available := av; unavailable := un; running := rs |}.

(** The value that [validate_max_running_executions] returns. *)
Definition capacity_ok (total_running max_running : Z) : bool :=
  bool_decide (total_running = 0) || bool_decide (total_running ≤ max_running)%Z.

(** [self.pool.max_running[regex]]. *)
Definition max_running_of (pool : DockerPool) (regex : option string) : M Z :=
  match max_running pool !! regex with
  | Some n => mret n
  | None => raise (KeyError (default "None" regex))
  end.

(** The loop of [validate_max_running_executions]; it returns
    [(total_running, max_running)]. *)
Fixpoint count_running (pool : DockerPool) (farms : list (option string * list host_client))
    (task_id : string) : M (Z * Z) :=
  match farms with
  | [] => mret (0, 0)
  | (regex, _) :: rest =>
      if farm_skipped regex task_id then count_running pool rest task_id
      else
        found ← get_running_containers pool regex None;
        max ← max_running_of pool regex;
        mret (Z.of_nat (length (running found)), max)
  end.

(** [Executor.validate_max_running_executions]. *)
Definition validate_max_running_executions (pool : DockerPool) (task_id : string) : M bool :=
  '(total_running, max_running) ← count_running pool (clients_per_regex pool) task_id;
  mret (capacity_ok total_running max_running).

(** [raw.decode("utf-8")]. *)
Definition decode_utf8 (raw : list Byte.byte) : M string :=
  match decode raw with
  | Some s => mret s
  | None => raise UnicodeDecodeError
  end.

(** [Executor.get_current_logs]. *)
Definition get_current_logs (pool : DockerPool) (task_id : string) : M string :=
  h ← getitem "docker_host";
  p ← getitem "docker_port";
  '(host, port, cl) ← get_client pool task_id (Some h) (Some p) None ≫= unpack;
  container_id ← getitem "container_id";
  container ← containers_get cl (fmt container_id);
  raw ← container_logs cl (c_id container) true true;
  decode_utf8 raw.

(** [Executor.get_streaming_logs], run until the generator is exhausted: the
    chunks it yields. *)
Definition get_streaming_logs (pool : DockerPool) (task_id : string) : M (list string) :=
  h ← getitem "docker_host";
  p ← getitem "docker_port";
  '(host, port, cl) ← get_client pool task_id (Some h) (Some p) None ≫= unpack;
  container_id ← getitem "container_id";
  try_except
    (container ← containers_get cl (fmt container_id);
     chunks ← container_logs_stream cl (c_id container) true true;
     for_each (λ chunk, raw ← stream_next cl chunk; decode_utf8 raw) chunks)
    (except_connection_error host port).

(** [Executor.mark_as_done]. *)
Definition mark_as_done (pool : DockerPool) (task_id : string) : M unit :=
  h ← getitem "docker_host";
  p ← getitem "docker_port";
  '(host, port, cl) ← get_client pool task_id (Some h) (Some p) None ≫= unpack;
  container_id ← getitem "container_id";
  try_except
    (container ← containers_get cl (fmt container_id);
     let new_name := "defunct-" +:+ c_name container in
     container_rename cl (c_id container) new_name)
    (except_connection_error host port).

(** [container.image.attrs["RepoTags"][0]]; reading [container.image] asks
    the host for the image. *)
Definition first_repo_tag (cl : string) (c : container) : M string :=
  tags ← engine_call cl (λ cs, (Ret (c_repo_tags c), cs));
  match tags with
  | t :: _ => mret t
  | [] => raise (IndexError "list index out of range")
  end.

(** An entry of the list that [remove_done] returns. *)
Record removed_container := {
  removed_host : string;
  removed_name : string;
  removed_id : string;
  removed_image : string
}.

(** [Executor.remove_done]. *)
Definition remove_done (pool : DockerPool) : M (list removed_container) :=
  per_host ← for_each
    (λ '(host, port, client),
       containers ← containers_list client true (NameHas ("defunct-" +:+ job_prefix));
       for_each (λ c,
                   image ← first_repo_tag client c;
                   container_remove client (c_id c);;
                   mret {| removed_host := address host port; removed_name := c_name c;
                           removed_id := c_id c; removed_image := image |})
                containers)
    (dict_values (clients pool));
  mret (concat per_host).

(** ** Notions used to state the properties *)

(** The state of the breaker of [key] as [current_state] reads it; a breaker
    that [get_circuit] has not created yet would be created closed. *)
Definition breaker_state (key : string) (s : state) : circuit_state :=
  b_state (default default_breaker (circuits s !! key)).

(** A client of a farm is eligible when its address is not blacklisted and
    its breaker is closed. *)
Definition eligible (blacklist : gset string) (s : state) (c : host_client) : bool :=
  let '(host, port, _) := c in
  bool_decide (address host port ∉ blacklist) &&
  bool_decide (breaker_state (address host port) s = closed).

(** Selection passes over all of [farms], taken in order from the state [s]:
    each farm either does not match [task_id] or matches, is refreshed, and
    then has no eligible client. The result is the state reached. *)
Fixpoint passed_over (farms : list (option string * list host_client))
    (task_id : string) (blacklist : gset string) (s : state) : option state :=
  match farms with
  | [] => Some s
  | (regex, cls) :: rest =>
      if farm_skipped regex task_id then passed_over rest task_id blacklist s
      else
        match refresh_circuits cls blacklist s with
        | (Ret _, s1) =>
            match filter_clients cls blacklist s1 with
            | (Ret [], s2) => passed_over rest task_id blacklist s2
            | _ => None
            end
        | (Raise _, _) => None
        end
  end.

(** [s'] is [s] but for its breakers. *)
Definition only_circuits (s s' : state) : Prop :=
  metadata s' = metadata s ∧ engines s' = engines s ∧ faults s' = faults s ∧
  rand s' = rand s ∧ now s' = now s ∧ next_id s' = next_id s ∧
  blacklisted s' = blacklisted s ∧ fail_max s' = fail_max s ∧
  reset_timeout s' = reset_timeout s.

(** The first [n] engine calls to come meet no fault. *)
Definition calm (n : nat) (s : state) : bool :=
  forallb (λ f, match f with Healthy => true | _ => false end) (firstn n (faults s)).

(** The container with the id [cid] on the host behind the client [cl]. *)
Definition container_of (cl cid : string) (s : state) : option container :=
  engines s !! cl ≫= find (has_id cid).

(** The breaker as [read_breaker] finds it. *)
Definition breaker_of (key : string) (s : state) : breaker :=
  default default_breaker (circuits s !! key).

(** The breaker of [key] lets a call through: it is closed or half-open, or
    it is open and its timeout has run out. *)
Definition admits (key : string) (s : state) : bool :=
  match b_state (breaker_of key s) with
  | open => negb (still_open (breaker_of key s) (now s) (reset_timeout s))
  | _ => true
  end.

(** The computation [m] leaves [execution.metadata] as it is. *)
Definition keeps_metadata {A} (m : M A) : Prop :=
  ∀ s r s', m s = (r, s') → metadata s' = metadata s.

(** The binding names no host. *)
Definition unbound (s : state) : Prop :=
  metadata s !! "docker_host" = None ∧ metadata s !! "docker_port" = None.

(** The binding names the client [(host, port, cl)] of the pool. *)
Definition bound_to (pool : DockerPool) (s : state) (host : string) (port : Z)
    (cl : string) : Prop :=
  ∃ h p, metadata s !! "docker_host" = Some h ∧
         metadata s !! "docker_port" = Some p ∧
         dict_get (clients pool) (fmt h +:+ ":" +:+ fmt p) = Some (host, port, cl).

(** From [s1] the computation ends in [s'] raising [e], after a failure
    that the breaker of [key] has counted: [e] is [failure], or
    [CircuitBreakerError] when counting it opened the breaker, which a closed
    breaker below [fail_max] does not do. *)
Definition counted_failure (key : string) (failure : exn) (s1 : state)
    (e : exn) (s' : state) : Prop :=
  (e = failure ∨ ∃ msg, e = CircuitBreakerError msg) ∧
  fail_counter (breaker_of key s') = (fail_counter (breaker_of key s1) + 1)%Z ∧
  (b_state (breaker_of key s1) = closed →
   (fail_counter (breaker_of key s1) + 1 < fail_max s1)%Z →
   e = failure).

(** ** The blacklist endpoints *)

(** [json.loads]; [None] when it raises. *)
Variable loads : list Byte.byte → option json.

(** The member that the key-value store's client writes for a value handed
    to [sadd] or [srem]; [None] when the client refuses the value. *)
Variable redis_member : json → option string.

(** [get_details]. *)
Definition get_details (req : request) : M json :=
  let details := req_json req in
  match details, req_data req with
  | JNull, _ :: _ =>
      match loads (req_data req) with
      | Some d => mret d
      | None => raise (ValueError "JSONDecodeError")
      end
  | _, _ => mret details
  end.

(** [data is None or data == ""]. *)
Definition no_body (data : json) : bool :=
  match data with
  | JNull => true
  | JStr s => bool_decide (s = EmptyString)
  | _ => false
  end.

(** ["host" in data]. *)
Definition host_in (data : json) : M bool :=
  match data with
  | JObj d => mret (bool_decide (is_Some (dict_get d "host")))
  | JList l => mret (existsb is_host_literal l)
  | JStr s => mret (is_substring "host" s)
  | _ => raise (TypeError "argument is not iterable")
  end.

(** [data["host"]], reached only when ["host" in data]. *)
Definition host_of (data : json) : M json :=
  match data with
  | JObj d =>
      match dict_get d "host" with
      | Some v => mret v
      | None => raise (KeyError "host")
      end
  | JList _ => raise (TypeError "list indices must be integers or slices, not str")
  | JStr _ => raise (TypeError "string indices must be integers")
  | _ => raise (TypeError "object is not subscriptable")
  end.

(** The value handed to the store's client, as the member it writes. *)
Definition member_of (host : json) : M string :=
  match redis_member host with
  | Some m => mret m
  | None => raise (ValueError "DataError")
  end.

(** [add_to_blacklist]. *)
Definition add_to_blacklist (req : request) : M response :=
  data ← get_details req;
  if no_body data then
    mret (make_response
            "Failed to add host to blacklist because JSON body could not be parsed." 400)
  else
    present ← host_in data;
    if negb (present : bool) then
      mret (make_response
              "Failed to add host to blacklist because 'host' attribute was not found in JSON body."
              400)
    else
      host ← host_of data;
      member ← member_of host;
      sadd member;;
      mret (make_response EmptyString 200).

(** [remove_from_blacklist]. *)
Definition remove_from_blacklist (req : request) : M response :=
  data ← get_details req;
  if no_body data then
    mret (make_response
            "Failed to remove host from blacklist because JSON body could not be parsed." 400)
  else
    present ← host_in data;
    if negb (present : bool) then
      mret (make_response
              "Failed to remove host from blacklist because 'host' attribute was not found in JSON body."
              400)
    else
      host ← host_of data;
      member ← member_of host;
      srem member;;
      mret (make_response EmptyString 200).

(** ** Construction of the pool and of the executor *)

(** [int(port)] on a string; [None] when it raises. *)
Variable py_int : string → option Z.

(** Does [docker.DockerClient(base_url=address)] accept the address? *)
Variable accepts_base_url : string → bool.

(** Does [re.compile(pattern)] accept the pattern? *)
Variable re_valid : string → bool.

(** One round of the inner loop of [__init_clients]: the client of an
    address. *)
Definition init_address (address : string) : init_error + host_client :=
  match split_char ":" address with
  | [host; port] =>
      if accepts_base_url address then
        match py_int port with
        | Some p => inr (host, p, address)
        | None => inl (BadPort port)
        end
      else inl (BadBaseUrl address)
  | _ => inl (BadAddress address)
  end.

(** The inner loop of [__init_clients]: it fills [client_list] and
    [self.clients]. *)
Fixpoint init_farm (addresses : list string) (client_list : list host_client)
    (index : list (string * host_client))
    : init_error + (list host_client * list (string * host_client)) :=
  match addresses with
  | [] => inr (client_list, index)
  | address :: rest =>
      match init_address address with
      | inl e => inl e
      | inr c => init_farm rest (app client_list [c]) (dict_set index address c)
      end
  end.

(** [DockerPool.__init_clients], from the pool built so far. *)
Fixpoint __init_clients (docker_hosts : list (option string * list string * Z))
    (pool : DockerPool) : init_error + DockerPool :=
  match docker_hosts with
  | [] => inr pool
  | (regex, addresses, max) :: rest =>
      match init_farm addresses [] (clients pool) with
      | inl e => inl e
      | inr (client_list, index) =>
          __init_clients rest
            {| clients_per_regex := app (clients_per_regex pool) [(regex, client_list)];
               clients := index;
               max_running := <[regex := max]> (max_running pool) |}
      end
  end.

(** [DockerPool.__init__]. *)
Definition DockerPool_init (docker_hosts : list (option string * list string * Z))
    : init_error + DockerPool :=
  __init_clients docker_hosts
    {| clients_per_regex := []; clients := []; max_running := ∅ |}.

(** The loop of [Executor.__init__] over [enumerate(clusters)], from the
    index [i] on; [n] is [len(clusters)]. It returns [docker_hosts] and the
    indices of the clusters for which the warning about a farm with no
    regex is logged. *)
Fixpoint read_clusters (clusters : list cluster) (i n : nat)
    : init_error + (list (option string * list string * Z) * list nat) :=
  match clusters with
  | [] => inr ([], [])
  | c :: rest =>
      if bool_decide (cl_match c = EmptyString) then
        match read_clusters rest (S i) n with
        | inl e => inl e
        | inr (docker_hosts, warned) =>
            inr ((None, cl_hosts c, default 10 (cl_max_running c)) :: docker_hosts,
                 if bool_decide (i ≠ n) then i :: warned else warned)
        end
      else if re_valid (cl_match c) then
        match read_clusters rest (S i) n with
        | inl e => inl e
        | inr (docker_hosts, warned) =>
            inr ((Some (cl_match c), cl_hosts c, default 10 (cl_max_running c))
                   :: docker_hosts,
                 warned)
        end
      else inl (BadPattern (cl_match c))
  end.

(** [Executor.__init__] without a pool: the pool it builds from the
    clusters of [DOCKER_HOSTS], and the indices warned about. *)
Definition Executor_init (clusters : list cluster) : init_error + (DockerPool * list nat) :=
  match read_clusters clusters 0 (length clusters) with
  | inl e => inl e
  | inr (docker_hosts, warned) =>
      match DockerPool_init docker_hosts with
      | inl e => inl e
      | inr pool => inr (pool, warned)
      end
  end.

(** ** Notions used to state further properties *)

(** [s'] is [s] but for the blacklist of the store. *)
Definition only_blacklist (s s' : state) : Prop :=
  metadata s' = metadata s ∧ circuits s' = circuits s ∧ engines s' = engines s ∧
  faults s' = faults s ∧ rand s' = rand s ∧ now s' = now s ∧ next_id s' = next_id s ∧
  fail_max s' = fail_max s ∧ reset_timeout s' = reset_timeout s.

(** The result that [get_result] assembles for the container [c], whose
    [StartedAt] parses to [started] and whose [FinishedAt] parses to
    [ended]. *)
Definition result_of (c : container) (started ended : datetime) : ExecutionResult :=
  if finished (result_status (c_status c)) then
    {| status := result_status (c_status c);
       exit_code := Some (c_exit_code c);
       error := if bool_decide (c_error c ≠ EmptyString)
                then Str (c_error c +:+ nl +:+ nl +:+ "stderr:" +:+ nl
                          +:+ bytes_repr (log_bytes false true c))
                else Bytes (log_bytes false true c);
       started_at := Some started;
       finished_at := Some ended;
       log := Some (log_bytes true false c) |}
  else
    {| status := result_status (c_status c);
       exit_code := Some (c_exit_code c);
       error := Str (c_error c);
       started_at := Some started;
       finished_at := None;
       log := None |}.

(** All the addresses of [docker_hosts], farm after farm. *)
Definition all_addresses (docker_hosts : list (option string * list string * Z))
    : list string :=
  concat (map (λ farm, farm.1.2) docker_hosts).


(** The pattern that [Executor.__init__] keeps for a cluster: none when
    [cluster["match"]] is empty. *)
Definition cluster_regex (c : cluster) : option string :=
  if bool_decide (cl_match c = EmptyString) then None else Some (cl_match c).

(** The containers of the host behind the client [cl]. *)
Definition host_containers (s : state) (cl : string) : list container :=
  default [] (engines s !! cl).

(** The name of [c] passes the filter of [remove_done]. *)
Definition defunct (c : container) : bool :=
  is_substring ("defunct-" +:+ job_prefix) (c_name c).

(** The entry of [remove_done] for the container [c] of [host:port]. *)
Definition removed_entry (host : string) (port : Z) (c : container) : removed_container :=
  {| removed_host := address host port; removed_name := c_name c;
     removed_id := c_id c;
     removed_image := default EmptyString (head (c_repo_tags c)) |}.

(** From [s0] to [s] no host got a container, and a container is gone from
    its host only if a container of that host with its id had a defunct
    name in [s0]. *)
Definition reaped_from (s0 s : state) : Prop :=
  ∀ cl,
    (∀ c, c ∈ host_containers s cl → c ∈ host_containers s0 cl) ∧
    (∀ c, c ∈ host_containers s0 cl →
          c ∈ host_containers s cl ∨
          ∃ d, d ∈ host_containers s0 cl ∧ defunct d = true ∧ c_id d = c_id c).
(** * Properties *)

(** ** The monad *)

Lemma bind_ret_inv {A B} (m : M A) (f : A → M B) s b s' :
  (m ≫= f) s = (Ret b, s') →
  ∃ a s1, m s = (Ret a, s1) ∧ f a s1 = (Ret b, s').
Proof.
  unfold mbind, M_bind. destruct (m s) as [[a|e] s1]; [eauto | discriminate].
Qed.

Lemma bind_ret {A B} (m : M A) (f : A → M B) s a s1 :
  m s = (Ret a, s1) → (m ≫= f) s = f a s1.
Proof. unfold mbind, M_bind. by intros ->. Qed.

Lemma bind_raise {A B} (m : M A) (f : A → M B) s e s1 :
  m s = (Raise e, s1) → (m ≫= f) s = (Raise e, s1).
Proof. unfold mbind, M_bind. by intros ->. Qed.

(** ** Breakers *)

Lemma current_state_spec c s : current_state c s = (Ret (breaker_state c s), s).
Proof. reflexivity. Qed.

Lemma get_circuit_spec key s :
  ∃ s', get_circuit key s = (Ret key, s') ∧
        (∀ k, breaker_state k s' = breaker_state k s) ∧
        metadata s' = metadata s ∧ faults s' = faults s ∧ rand s' = rand s ∧
        engines s' = engines s.
Proof.
  unfold get_circuit. destruct (circuits s !! key) as [b|] eqn:Hb.
  - exists s. done.
  - eexists. split; [reflexivity|]. split; [|done].
    intros k. unfold breaker_state. simpl.
    destruct (decide (key = k)) as [->|Hne].
    + by rewrite lookup_insert_eq, Hb.
    + by rewrite lookup_insert_ne.
Qed.

Lemma eligible_ext bl s s' c :
  (∀ k, breaker_state k s' = breaker_state k s) → eligible bl s' c = eligible bl s c.
Proof. intros H. destruct c as [[host port] cl]. unfold eligible. by rewrite H. Qed.

(** ** Selection *)

(** The list comprehension of [get_client] computes the eligible clients and
    changes the state of no breaker. *)
Lemma filter_clients_spec cls bl s :
  ∃ s', filter_clients cls bl s = (Ret (List.filter (eligible bl s) cls), s') ∧
        (∀ k, breaker_state k s' = breaker_state k s) ∧
        metadata s' = metadata s ∧ faults s' = faults s ∧ rand s' = rand s ∧
        engines s' = engines s.
Proof.
  revert s. induction cls as [|[[host port] cl] rest IH]; intros s.
  - exists s. done.
  - simpl. destruct (decide (address host port ∈ bl)) as [Hin|Hnin].
    + rewrite bool_decide_eq_false_2 by (intros ?; contradiction). simpl. apply IH.
    + rewrite bool_decide_eq_true_2 by done. simpl.
      destruct (get_circuit_spec (address host port) s)
        as (s1 & Hg & Hb1 & Hm1 & Hf1 & Hr1 & He1).
      destruct (IH s1) as (s2 & Hf & Hb2 & Hm2 & Hf2 & Hr2 & He2).
      exists s2. split.
      * rewrite (bind_ret _ _ _ _ _ Hg).
        rewrite (bind_ret _ _ _ _ _ (current_state_spec _ s1)).
        rewrite (bind_ret _ _ _ _ _ Hf). unfold mret, M_ret.
        rewrite Hb1.
        rewrite (filter_ext (eligible bl s1) (eligible bl s))
          by (intros c; by apply eligible_ext).
        destruct (decide (breaker_state (address host port) s = closed)) as [Hc|Hc].
        -- by rewrite bool_decide_eq_true_2.
        -- by rewrite bool_decide_eq_false_2.
      * split; [intros k; by rewrite Hb2, Hb1|].
        repeat split; congruence.
Qed.

Lemma random_choice_spec {A} (l : list A) s a s' :
  random_choice l s = (Ret a, s') →
  a ∈ l ∧ circuits s' = circuits s ∧ metadata s' = metadata s ∧
  faults s' = faults s ∧ engines s' = engines s.
Proof.
  unfold random_choice.
  destruct (l !! _) as [x|] eqn:Hx; [|discriminate].
  intros [= <- <-]. split; [|done].
  apply list_elem_of_lookup. eauto.
Qed.

Lemma random_choice_total {A} (l : list A) s :
  l ≠ [] → ∃ a, random_choice l s = (Ret a, set_rand (tail (rand s)) s).
Proof.
  intros Hl. unfold random_choice.
  destruct (l !! _) as [x|] eqn:Hx; [eauto|].
  apply lookup_ge_None in Hx. destruct l; [done|].
  simpl length in Hx.
  match type of Hx with (_ ≤ ?n mod ?m)%nat =>
    pose proof (Nat.mod_upper_bound n m ltac:(lia)) end. lia.
Qed.

Lemma farm_skipped_false regex task_id :
  farm_skipped regex task_id = false ↔
  regex = None ∨ ∃ r, regex = Some r ∧ re_match r task_id = true.
Proof.
  destruct regex as [r|]; simpl.
  - rewrite negb_false_iff. split.
    + intros H. right. eauto.
    + intros [?|(r' & [= <-] & H)]; done.
  - split; [by left | done].
Qed.

(** Farms that selection passes over are as good as absent. *)
Lemma select_client_passed_over pre rest task_id bl s s0 :
  passed_over pre task_id bl s = Some s0 →
  select_client (pre ++ rest) task_id bl s = select_client rest task_id bl s0.
Proof.
  revert s. induction pre as [|[regex cls] pre IH]; intros s; simpl.
  - by intros [= ->].
  - destruct (farm_skipped regex task_id); [apply IH|].
    destruct (refresh_circuits cls bl s) as [[[]|e] s1] eqn:Hr; [|discriminate].
    destruct (filter_clients cls bl s1) as [[l|e] s2] eqn:Hf; [|discriminate].
    destruct l as [|x l]; [|discriminate].
    intros Hp.
    rewrite (bind_ret _ _ _ _ _ Hr), (bind_ret _ _ _ _ _ Hf). by apply IH.
Qed.

(** What a successful selection went through. *)
Lemma select_client_ret farms task_id bl s c s' :
  select_client farms task_id bl s = (Ret c, s') →
  ∃ pre regex cls post s0 s1,
    farms = pre ++ (regex, cls) :: post ∧
    passed_over pre task_id bl s = Some s0 ∧
    farm_skipped regex task_id = false ∧
    refresh_circuits cls bl s0 = (Ret tt, s1) ∧
    c ∈ List.filter (eligible bl s1) cls ∧
    (∀ k, breaker_state k s' = breaker_state k s1).
Proof.
  revert s. induction farms as [|[regex cls] farms IH]; intros s; simpl.
  - discriminate.
  - destruct (farm_skipped regex task_id) eqn:Hskip.
    + intros H. destruct (IH _ H) as (pre & r & cl & post & s0 & s1 & -> & Hp & ?).
      exists ((regex, cls) :: pre), r, cl, post, s0, s1.
      split; [done|]. split; [|done]. simpl. by rewrite Hskip.
    + destruct (refresh_circuits cls bl s) as [[[]|e] s1] eqn:Hr.
      2: { rewrite (bind_raise _ _ _ _ _ Hr). discriminate. }
      rewrite (bind_ret _ _ _ _ _ Hr).
      destruct (filter_clients_spec cls bl s1) as (s2 & Hf & Hb & _).
      rewrite (bind_ret _ _ _ _ _ Hf).
      destruct (List.filter (eligible bl s1) cls) as [|x l] eqn:Hl.
      * intros H. destruct (IH _ H) as (pre & r & cl & post & s0 & s1' & -> & Hp & ?).
        exists ((regex, cls) :: pre), r, cl, post, s0, s1'.
        split; [done|]. split; [|done]. simpl. rewrite Hskip, Hr, Hf. by rewrite ?Hl.
      * intros H. apply bind_ret_inv in H as ([[host port] client] & s3 & Hc & Hret).
        injection Hret as <- <-.
        apply random_choice_spec in Hc as (Hin & Hcirc & _).
        exists [], regex, cls, farms, s, s1.
        repeat split; try done.
        -- by rewrite Hl.
        -- intros k. unfold breaker_state. rewrite Hcirc. apply Hb.
Qed.

Lemma elem_of_eligible bl s host port cl cls :
  (host, port, cl) ∈ List.filter (eligible bl s) cls →
  (host, port, cl) ∈ cls ∧ (address host port ∉ bl) ∧
  breaker_state (address host port) s = closed.
Proof.
  rewrite list_elem_of_In, filter_In, <- list_elem_of_In. intros [Hin He].
  split; [done|]. unfold eligible in He.
  apply andb_true_iff in He as [H1 H2].
  by apply bool_decide_eq_true in H1, H2.
Qed.

(** C1. Selection, that is [get_client] when it is not given both a host and
    a port, returns a client only if its address [f"{host}:{port}"] is not
    in the supplied blacklist and its breaker is closed once the farm has
    been refreshed; the breaker is still closed in the state in which
    [get_client] returns. *)
Theorem selection_avoids_blacklist_and_open_breakers
    pool task_id host port blacklist s h p cl s' :
  host = None ∨ port = None →
  get_client pool task_id host port blacklist s = (Ret (Some (h, p, cl)), s') →
  (address h p ∉ default ∅ blacklist) ∧ breaker_state (address h p) s' = closed.
Proof.
  intros Hsel Hget.
  assert (select_client (clients_per_regex pool) task_id (default ∅ blacklist) s
          = (Ret (h, p, cl), s')) as H.
  { unfold get_client in Hget.
    destruct Hsel as [-> | ->]; [|destruct host];
      apply bind_ret_inv in Hget as (c & s1 & Hc & [= <- <-]); exact Hc. }
  apply select_client_ret in H as (pre & r & cls & post & s0 & s1 & _ & _ & _ & _ & Hin & Hb).
  apply elem_of_eligible in Hin as (_ & Hbl & Hst).
  split; [done|]. by rewrite Hb.
Qed.

(** C2. The client that selection returns is an eligible client of a farm
    that matches the task id (it has no pattern, or its pattern matches),
    and every farm declared before it was passed over: it does not match, or
    it matches and had no eligible client after its refresh. *)
Theorem selection_takes_first_farm_with_eligible_host
    pool task_id host port blacklist s c s' :
  host = None ∨ port = None →
  get_client pool task_id host port blacklist s = (Ret (Some c), s') →
  ∃ pre regex cls post s0 s1,
    clients_per_regex pool = pre ++ (regex, cls) :: post ∧
    passed_over pre task_id (default ∅ blacklist) s = Some s0 ∧
    (regex = None ∨ ∃ r, regex = Some r ∧ re_match r task_id = true) ∧
    refresh_circuits cls (default ∅ blacklist) s0 = (Ret tt, s1) ∧
    c ∈ List.filter (eligible (default ∅ blacklist) s1) cls.
Proof.
  intros Hsel Hget.
  assert (select_client (clients_per_regex pool) task_id (default ∅ blacklist) s
          = (Ret c, s')) as H.
  { unfold get_client in Hget.
    destruct Hsel as [-> | ->]; [|destruct host];
      apply bind_ret_inv in Hget as (c' & s1 & Hc & [= <- <-]); exact Hc. }
  apply select_client_ret in H as (pre & r & cls & post & s0 & s1 & ? & ? & Hm & ? & ? & _).
  exists pre, r, cls, post, s0, s1. by rewrite <- farm_skipped_false.
Qed.

(** Conversely, the first farm that matches and has an eligible client
    after its refresh supplies the client. *)
Lemma selection_returns_from_first_eligible_farm
    pre regex cls post task_id bl s s0 s1 :
  passed_over pre task_id bl s = Some s0 →
  farm_skipped regex task_id = false →
  refresh_circuits cls bl s0 = (Ret tt, s1) →
  List.filter (eligible bl s1) cls ≠ [] →
  ∃ c s', select_client (pre ++ (regex, cls) :: post) task_id bl s = (Ret c, s') ∧
          c ∈ List.filter (eligible bl s1) cls.
Proof.
  intros Hp Hm Hr Hne.
  rewrite (select_client_passed_over _ _ _ _ _ _ Hp). simpl. rewrite Hm.
  rewrite (bind_ret _ _ _ _ _ Hr).
  destruct (filter_clients_spec cls bl s1) as (s2 & Hf & _).
  rewrite (bind_ret _ _ _ _ _ Hf).
  destruct (List.filter (eligible bl s1) cls) as [|x l] eqn:Hl; [done|].
  destruct (random_choice_total (x :: l) s2 ltac:(done)) as [[[h p] cl] Hc].
  exists (h, p, cl), (set_rand (tail (rand s2)) s2).
  rewrite (bind_ret _ _ _ _ _ Hc). split; [done|].
  by apply random_choice_spec in Hc as [? _].
Qed.

Lemma no_host_msg_inj t1 t2 : no_host_msg t1 = no_host_msg t2 → t1 = t2.
Proof.
  unfold no_host_msg. intros H.
  apply (inj (String.app _)) in H.
  revert t2 H. induction t1 as [|a t1 IH]; intros [|b t2]; simpl; intros H.
  - done.
  - injection H as H1 H2. destruct t2; discriminate.
  - injection H as H1 H2. destruct t1; discriminate.
  - injection H as -> H. f_equal. by apply IH.
Qed.

(** C5. When selection passes over every farm (no farm yields an eligible
    client), [get_client] fails with the error that the specification calls
    NoHostAvailable(task_id): a [RuntimeError] whose message is
    "Failed to find a docker host for task id {task_id}.". The message
    determines the task id, and the error is none of
    [HostUnavailableError], [CircuitBreakerError], a connection error or an
    engine error. *)
Theorem selection_without_eligible_host_raises
    pool task_id host port blacklist s s' :
  host = None ∨ port = None →
  passed_over (clients_per_regex pool) task_id (default ∅ blacklist) s = Some s' →
  get_client pool task_id host port blacklist s
    = (Raise (RuntimeError (no_host_msg task_id)), s') ∧
  (∀ t, no_host_msg t = no_host_msg task_id → t = task_id) ∧
  (∀ h p e, RuntimeError (no_host_msg task_id) ≠ HostUnavailableError h p e) ∧
  (∀ m, RuntimeError (no_host_msg task_id) ≠ CircuitBreakerError m) ∧
  (∀ u, RuntimeError (no_host_msg task_id) ≠ ConnectionError u) ∧
  (∀ m, RuntimeError (no_host_msg task_id) ≠ APIError m) ∧
  (∀ w, RuntimeError (no_host_msg task_id) ≠ NotFound w).
Proof.
  intros Hsel Hp. split; [|split; [intros t Ht; exact (no_host_msg_inj _ _ Ht) | done]].
  assert (select_client (clients_per_regex pool) task_id (default ∅ blacklist) s
          = (Raise (RuntimeError (no_host_msg task_id)), s')) as H.
  { pose proof (select_client_passed_over _ [] _ _ _ _ Hp) as H.
    by rewrite app_nil_r in H. }
  unfold get_client.
  destruct Hsel as [-> | ->]; [|destruct host]; by rewrite (bind_raise _ _ _ _ _ H).
Qed.

(** ** Status mapping *)

(** C6. The status of a result is determined for every engine status:
    [created] gives created, [running] gives running, [exited] gives done,
    [dead] gives failed, and every other string gives done. *)
Theorem status_mapping_total (engine_status : string) :
  result_status engine_status =
    if decide (engine_status = "created") then Status.created
    else if decide (engine_status = "running") then Status.running
    else if decide (engine_status = "exited") then Status.done
    else if decide (engine_status = "dead") then Status.failed
    else Status.done.
Proof.
  unfold result_status, STATUS, dict_get.
  repeat (case_decide; subst; simplify_eq; try done).
Qed.

(** ** Capacity check *)

Lemma validate_max_running_executions_returns pool task_id s b s' :
  validate_max_running_executions pool task_id s = (Ret b, s') →
  ∃ total_running max_running,
    count_running pool (clients_per_regex pool) task_id s
      = (Ret (total_running, max_running), s') ∧
    b = capacity_ok total_running max_running.
Proof.
  unfold validate_max_running_executions. intros H.
  apply bind_ret_inv in H as ([t m] & s1 & Hc & [= <- <-]). eauto.
Qed.

(** C8, as amended. On non-negative integers the value that the capacity
    check returns, [total_running == 0 or total_running <= max_running], is
    the same as [total_running <= max_running]; zero running containers are
    within a maximum of zero either way. *)
Theorem capacity_ok_is_le_on_naturals (total_running max_running : Z) :
  (0 ≤ total_running)%Z → (0 ≤ max_running)%Z →
  capacity_ok total_running max_running = bool_decide (total_running ≤ max_running)%Z.
Proof.
  intros Ht Hm. unfold capacity_ok.
  destruct (decide (total_running = 0)) as [->|Hne].
  - rewrite bool_decide_eq_true_2 by done. by rewrite bool_decide_eq_true_2.
  - by rewrite (bool_decide_eq_false_2 _ Hne).
Qed.

(** The two comparisons differ only for a negative maximum. *)
Lemma capacity_ok_differs_iff (total_running max_running : Z) :
  capacity_ok total_running max_running ≠ bool_decide (total_running ≤ max_running)%Z ↔
  total_running = 0 ∧ (max_running < 0)%Z.
Proof.
  unfold capacity_ok. split.
  - intros H. destruct (decide (total_running = 0)) as [->|Hne].
    + split; [done|]. destruct (decide (0 ≤ max_running)%Z); [|lia].
      exfalso. apply H. rewrite bool_decide_eq_true_2 by done.
      by rewrite bool_decide_eq_true_2.
    + exfalso. apply H. by rewrite (bool_decide_eq_false_2 _ Hne).
  - intros [-> Hm]. rewrite bool_decide_eq_true_2 by done.
    rewrite bool_decide_eq_false_2 by lia. done.
Qed.

(** ** Operations on an execution that has lost its host *)

(** C9. When the binding has a [container_id] and no [docker_host],
    [stop_job] gets past its [container_id] guard and then, like
    [get_result], [get_current_logs], [get_streaming_logs] and
    [mark_as_done], raises [KeyError] for [docker_host]; nothing is
    changed. *)
Theorem unbound_host_raises_KeyError pool task_id s :
  metadata s !! "docker_host" = None →
  is_Some (metadata s !! "container_id") →
  stop_job pool task_id s = (Raise (KeyError "docker_host"), s) ∧
  get_result pool task_id s = (Raise (KeyError "docker_host"), s) ∧
  get_current_logs pool task_id s = (Raise (KeyError "docker_host"), s) ∧
  get_streaming_logs pool task_id s = (Raise (KeyError "docker_host"), s) ∧
  mark_as_done pool task_id s = (Raise (KeyError "docker_host"), s).
Proof.
  intros Hh Hc.
  assert (getitem "docker_host" s = (Raise (KeyError "docker_host"), s)) as Hg.
  { unfold getitem. by rewrite Hh. }
  assert (contains "container_id" s = (Ret true, s)) as Hin.
  { unfold contains. by rewrite bool_decide_eq_true_2. }
  repeat split.
  - unfold stop_job. rewrite (bind_ret _ _ _ _ _ Hin). simpl.
    by rewrite (bind_raise _ _ _ _ _ Hg).
  - unfold get_result. by rewrite (bind_raise _ _ _ _ _ Hg).
  - unfold get_current_logs. by rewrite (bind_raise _ _ _ _ _ Hg).
  - unfold get_streaming_logs. by rewrite (bind_raise _ _ _ _ _ Hg).
  - unfold mark_as_done. by rewrite (bind_raise _ _ _ _ _ Hg).
Qed.

(** The same holds for a binding that has a host and no port. *)
Lemma unbound_port_raises_KeyError pool task_id s :
  is_Some (metadata s !! "docker_host") →
  metadata s !! "docker_port" = None →
  is_Some (metadata s !! "container_id") →
  stop_job pool task_id s = (Raise (KeyError "docker_port"), s) ∧
  get_result pool task_id s = (Raise (KeyError "docker_port"), s) ∧
  get_current_logs pool task_id s = (Raise (KeyError "docker_port"), s) ∧
  get_streaming_logs pool task_id s = (Raise (KeyError "docker_port"), s) ∧
  mark_as_done pool task_id s = (Raise (KeyError "docker_port"), s).
Proof.
  intros [h Hh] Hp Hc.
  assert (getitem "docker_host" s = (Ret h, s)) as Hg1.
  { unfold getitem. by rewrite Hh. }
  assert (getitem "docker_port" s = (Raise (KeyError "docker_port"), s)) as Hg.
  { unfold getitem. by rewrite Hp. }
  assert (contains "container_id" s = (Ret true, s)) as Hin.
  { unfold contains. by rewrite bool_decide_eq_true_2. }
  repeat split.
  - unfold stop_job. rewrite (bind_ret _ _ _ _ _ Hin). simpl.
    by rewrite (bind_ret _ _ _ _ _ Hg1), (bind_raise _ _ _ _ _ Hg).
  - unfold get_result. by rewrite (bind_ret _ _ _ _ _ Hg1), (bind_raise _ _ _ _ _ Hg).
  - unfold get_current_logs.
    by rewrite (bind_ret _ _ _ _ _ Hg1), (bind_raise _ _ _ _ _ Hg).
  - unfold get_streaming_logs.
    by rewrite (bind_ret _ _ _ _ _ Hg1), (bind_raise _ _ _ _ _ Hg).
  - unfold mark_as_done. by rewrite (bind_ret _ _ _ _ _ Hg1), (bind_raise _ _ _ _ _ Hg).
Qed.

(** ** Engine calls that meet no fault *)

Lemma calm_S n s :
  calm (S n) s = true →
  (head (faults s) = None ∨ head (faults s) = Some Healthy) ∧
  calm n (set_faults (tail (faults s)) s) = true.
Proof.
  unfold calm. simpl. destruct (faults s) as [|f fs]; simpl.
  - intros _. split; [by left|]. by destruct n.
  - destruct f; simpl; try discriminate. intros H. split; [by right | done].
Qed.

Lemma engine_call_calm {A} cl (f : list container → result A * list container)
    s n cs r cs' :
  calm (S n) s = true →
  engines s !! cl = Some cs →
  f cs = (r, cs') →
  ∃ s', engine_call cl f s = (r, s') ∧
        engines s' = <[cl := cs']> (engines s) ∧
        metadata s' = metadata s ∧ circuits s' = circuits s ∧
        now s' = now s ∧ fail_max s' = fail_max s ∧
        reset_timeout s' = reset_timeout s ∧
        calm n s' = true.
Proof.
  intros Hcalm He Hf. apply calm_S in Hcalm as [Hhead Hrest].
  unfold engine_call. rewrite He. simpl. rewrite Hf.
  destruct Hhead as [-> | ->]; eexists; by split.
Qed.

Lemma find_has_id cid cs c : find (has_id cid) cs = Some c → c_id c = cid.
Proof.
  intros H. apply find_some in H as [_ H]. unfold has_id in H.
  by apply bool_decide_eq_true in H.
Qed.

Lemma find_update_container cid f cs :
  (∀ c, c_id (f c) = c_id c) →
  find (has_id cid) (update_container cid f cs) = f <$> find (has_id cid) cs.
Proof.
  intros Hid. induction cs as [|c cs IH]; [done|]. simpl.
  destruct (has_id cid c) eqn:Hc.
  - unfold has_id in *. rewrite Hid. by rewrite Hc.
  - by rewrite Hc.
Qed.

Lemma existsb_has_name_update cid n n' cs :
  n ≠ n' →
  existsb (has_name n') cs = false →
  existsb (has_name n') (update_container cid (with_name n) cs) = false.
Proof.
  intros Hne. induction cs as [|c cs IH]; [done|]. simpl.
  rewrite !orb_false_iff. intros [Hc Hcs]. split; [|by apply IH].
  destruct (has_id cid c); [|done].
  unfold has_name. simpl. by apply bool_decide_eq_false_2.
Qed.

(** ** mark_as_done *)

Lemma bound_client pool task_id s h p host port cl :
  metadata s !! "docker_host" = Some h →
  metadata s !! "docker_port" = Some p →
  dict_get (clients pool) (fmt h +:+ ":" +:+ fmt p) = Some (host, port, cl) →
  getitem "docker_host" s = (Ret h, s) ∧
  getitem "docker_port" s = (Ret p, s) ∧
  (get_client pool task_id (Some h) (Some p) None ≫= unpack) s = (Ret (host, port, cl), s).
Proof.
  intros Hh Hp Hc. unfold getitem. rewrite Hh, Hp. repeat split.
  unfold get_client, unpack, mbind, M_bind, mret, M_ret. by rewrite Hc.
Qed.

Lemma getitem_spec key v s : metadata s !! key = Some v → getitem key s = (Ret v, s).
Proof. unfold getitem. by intros ->. Qed.

(** On a reachable host, [mark_as_done] gives the bound container the name
    [defunct-] followed by the name it has. *)
Lemma mark_as_done_renames pool task_id s h p cid host port cl cs c n :
  metadata s !! "docker_host" = Some h →
  metadata s !! "docker_port" = Some p →
  metadata s !! "container_id" = Some cid →
  dict_get (clients pool) (fmt h +:+ ":" +:+ fmt p) = Some (host, port, cl) →
  engines s !! cl = Some cs →
  find (has_id (fmt cid)) cs = Some c →
  existsb (has_name ("defunct-" +:+ c_name c)) cs = false →
  calm (2 + n) s = true →
  ∃ s', mark_as_done pool task_id s = (Ret tt, s') ∧
        metadata s' = metadata s ∧
        engines s' !! cl
          = Some (update_container (fmt cid) (with_name ("defunct-" +:+ c_name c)) cs) ∧
        calm n s' = true.
Proof.
  intros Hh Hp Hcid Hc He Hfind Hfree Hcalm.
  destruct (bound_client pool task_id s h p host port cl Hh Hp Hc) as (Hg1 & Hg2 & Hg3).
  unfold mark_as_done.
  rewrite (bind_ret _ _ _ _ _ Hg1), (bind_ret _ _ _ _ _ Hg2), (bind_ret _ _ _ _ _ Hg3).
  rewrite (bind_ret _ _ _ _ _ (getitem_spec _ _ _ Hcid)).
  destruct (engine_call_calm cl
              (λ cs, match find (has_id (fmt cid)) cs with
                     | Some c => (Ret c, cs)
                     | None => (Raise (NotFound (fmt cid)), cs)
                     end) s (S n) cs (Ret c) cs Hcalm He)
    as (s1 & Hget & He1 & Hm1 & _ & _ & _ & _ & Hcalm1); [by rewrite Hfind|].
  pose proof (find_has_id _ _ _ Hfind) as Hid.
  assert (engines s1 !! cl = Some cs) as He1'.
  { rewrite He1. apply lookup_insert_eq. }
  destruct (engine_call_calm cl
              (λ cs, match find (has_id (c_id c)) cs with
                     | Some c0 =>
                         if existsb (has_name ("defunct-" +:+ c_name c)) cs
                         then (Raise (APIError ("Conflict: " +:+ ("defunct-" +:+ c_name c))), cs)
                         else (Ret tt, update_container (c_id c)
                                          (with_name ("defunct-" +:+ c_name c)) cs)
                     | None => (Raise (NotFound (c_id c)), cs)
                     end) s1 n cs (Ret tt)
              (update_container (c_id c) (with_name ("defunct-" +:+ c_name c)) cs)
              Hcalm1 He1')
    as (s2 & Hren & He2 & Hm2 & _ & _ & _ & _ & Hcalm2).
  { rewrite Hid, Hfind. by rewrite Hfree. }
  exists s2. split.
  - unfold try_except, containers_get.
    rewrite (bind_ret _ _ _ _ _ Hget).
    unfold container_rename, on_container. by rewrite Hren.
  - split; [congruence|]. split; [|done].
    rewrite He2, Hid. apply lookup_insert_eq.
Qed.

Lemma string_length_app s1 s2 :
  String.length (s1 +:+ s2) = (String.length s1 + String.length s2)%nat.
Proof. induction s1 as [|a s1 IH]; simpl; [done | by rewrite IH]. Qed.

Lemma defunct_name_fresh n : "defunct-" +:+ n ≠ "defunct-" +:+ ("defunct-" +:+ n).
Proof.
  intros H. apply (f_equal String.length) in H.
  rewrite !string_length_app in H. simpl in H. lia.
Qed.

(** C10. [mark_as_done] prepends [defunct-] to the name that the bound
    container has when it is called. On a container that [run] named
    [{job_prefix}-{execution_id}], a first call gives
    [defunct-{job_prefix}-{execution_id}] and a second call, on the same
    binding, gives [defunct-defunct-{job_prefix}-{execution_id}]: the method
    is not idempotent. (The host is reachable and neither name is taken.) *)
Theorem mark_as_done_twice_prepends_twice
    pool task_id execution_id s h p cid host port cl cs c :
  metadata s !! "docker_host" = Some h →
  metadata s !! "docker_port" = Some p →
  metadata s !! "container_id" = Some cid →
  dict_get (clients pool) (fmt h +:+ ":" +:+ fmt p) = Some (host, port, cl) →
  engines s !! cl = Some cs →
  find (has_id (fmt cid)) cs = Some c →
  c_name c = job_prefix +:+ "-" +:+ execution_id →
  existsb (has_name ("defunct-" +:+ job_prefix +:+ "-" +:+ execution_id)) cs = false →
  existsb (has_name ("defunct-defunct-" +:+ job_prefix +:+ "-" +:+ execution_id)) cs = false →
  calm 4 s = true →
  ∃ s1 s2 c1 c2,
    mark_as_done pool task_id s = (Ret tt, s1) ∧
    container_of cl (fmt cid) s1 = Some c1 ∧
    c_name c1 = "defunct-" +:+ job_prefix +:+ "-" +:+ execution_id ∧
    mark_as_done pool task_id s1 = (Ret tt, s2) ∧
    container_of cl (fmt cid) s2 = Some c2 ∧
    c_name c2 = "defunct-defunct-" +:+ job_prefix +:+ "-" +:+ execution_id ∧
    c_name c2 ≠ c_name c1.
Proof.
  intros Hh Hp Hcid Hc He Hfind Hname Hfree1 Hfree2 Hcalm.
  set (n0 := job_prefix +:+ "-" +:+ execution_id) in *.
  change ("defunct-" +:+ job_prefix +:+ "-" +:+ execution_id) with ("defunct-" +:+ n0) in *.
  change ("defunct-defunct-" +:+ job_prefix +:+ "-" +:+ execution_id)
    with ("defunct-" +:+ ("defunct-" +:+ n0)) in *.
  destruct (mark_as_done_renames pool task_id s h p cid host port cl cs c 2
              Hh Hp Hcid Hc He Hfind) as (s1 & Hrun1 & Hm1 & He1 & Hcalm1);
    [by rewrite Hname | done |].
  rewrite Hname in He1.
  set (cs1 := update_container (fmt cid) (with_name ("defunct-" +:+ n0)) cs) in *.
  assert (find (has_id (fmt cid)) cs1 = Some (with_name ("defunct-" +:+ n0) c)) as Hfind1.
  { unfold cs1. rewrite find_update_container by done. by rewrite Hfind. }
  destruct (mark_as_done_renames pool task_id s1 h p cid host port cl cs1
              (with_name ("defunct-" +:+ n0) c) 0) as (s2 & Hrun2 & Hm2 & He2 & _);
    try (by rewrite Hm1); try done.
  { simpl. apply existsb_has_name_update; [apply defunct_name_fresh | done]. }
  simpl in He2.
  exists s1, s2, (with_name ("defunct-" +:+ n0) c),
         (with_name ("defunct-" +:+ ("defunct-" +:+ n0)) (with_name ("defunct-" +:+ n0) c)).
  split; [done|]. split; [by unfold container_of; rewrite He1|].
  split; [done|]. split; [done|].
  split.
  { unfold container_of. rewrite He2. simpl.
    rewrite find_update_container by done. by rewrite Hfind1. }
  split; [done|]. simpl. intros H. by apply (defunct_name_fresh n0).
Qed.

(** ** Breaker calls change breakers only *)

Lemma only_circuits_refl s : only_circuits s s.
Proof. by repeat split. Qed.

Lemma only_circuits_trans s1 s2 s3 :
  only_circuits s1 s2 → only_circuits s2 s3 → only_circuits s1 s3.
Proof. unfold only_circuits. intros H1 H2. repeat split; by etrans; [apply H2 | apply H1]. Qed.

Lemma only_circuits_set g s : only_circuits s (set_circuits g s).
Proof. by repeat split. Qed.

Lemma get_circuit_only key s :
  ∃ s', get_circuit key s = (Ret key, s') ∧ only_circuits s s'.
Proof.
  unfold get_circuit. destruct (circuits s !! key).
  - exists s. split; [done | apply only_circuits_refl].
  - eexists. split; [done | apply only_circuits_set].
Qed.

Lemma handle_success_only c trial s :
  ∃ s', handle_success c trial s = (Ret tt, s') ∧ only_circuits s s'.
Proof. eexists. split; [reflexivity|]. by repeat split. Qed.

Lemma handle_error_only {A} c trial e s :
  ∃ e' s', @handle_error A c trial e s = (Raise e', s') ∧ only_circuits s s' ∧
           (e' = e ∨ ∃ m, e' = CircuitBreakerError m).
Proof.
  unfold handle_error, read_breaker, write_breaker, breaker_open, get_state, modify, raise,
    mbind, M_bind. simpl.
  destruct trial; [|case_decide]; do 2 eexists;
    (split; [reflexivity|]); (split; [by repeat split|]); eauto.
Qed.

Lemma guarded_call_ret_inv {A} c trial (func : M A) s a s' :
  guarded_call c trial func s = (Ret a, s') →
  ∃ s1, func s = (Ret a, s1) ∧ only_circuits s1 s'.
Proof.
  unfold guarded_call. destruct (func s) as [[a'|e] s1] eqn:Hf.
  - destruct (handle_success_only c trial s1) as (s2 & Hs & Ho).
    rewrite (bind_ret _ _ _ _ _ Hs). intros [= <- <-]. eauto.
  - destruct (@handle_error_only A c trial e s1) as (e' & s2 & He & _).
    rewrite He. discriminate.
Qed.

(** A breaker call that returns has run its function, and the two differ
    only in what they do to breakers. *)
Lemma circuit_call_ret_inv {A} c (func : M A) s a s' :
  circuit_call c func s = (Ret a, s') →
  ∃ s0 s1, only_circuits s s0 ∧ func s0 = (Ret a, s1) ∧ only_circuits s1 s'.
Proof.
  unfold circuit_call, read_breaker, get_state, mbind at 1 2, M_bind at 1 2.
  destruct (b_state _).
  - intros H. apply guarded_call_ret_inv in H as (s1 & ? & ?).
    exists s, s1. split; [apply only_circuits_refl | done].
  - destruct (still_open _ _ _); [discriminate|].
    intros H. apply bind_ret_inv in H as ([] & s0 & Hh & H).
    apply guarded_call_ret_inv in H as (s1 & ? & ?).
    exists s0, s1. split; [|done].
    injection Hh as <-. by repeat split.
  - intros H. apply guarded_call_ret_inv in H as (s1 & ? & ?).
    exists s, s1. split; [apply only_circuits_refl | done].
Qed.

(** ** Inversion of the steps of a method *)

Lemma getitem_ret_inv key s v s' :
  getitem key s = (Ret v, s') → s' = s ∧ metadata s !! key = Some v.
Proof. unfold getitem. destruct (metadata s !! key); [|discriminate]. by intros [= <- <-]. Qed.

Lemma bound_client_inv pool task_id h p s c s' :
  (get_client pool task_id (Some h) (Some p) None ≫= unpack) s = (Ret c, s') →
  s' = s ∧ dict_get (clients pool) (fmt h +:+ ":" +:+ fmt p) = Some c.
Proof.
  unfold get_client, unpack, mbind, M_bind, mret, M_ret.
  destruct (dict_get _ _); [|discriminate]. by intros [= <- <-].
Qed.

Lemma engine_call_ret_inv {A} cl (f : list container → result A * list container) s a s' :
  engine_call cl f s = (Ret a, s') →
  ∃ cs', f (default [] (engines s !! cl)) = (Ret a, cs') ∧
         engines s' = <[cl := cs']> (engines s) ∧
         metadata s' = metadata s ∧ circuits s' = circuits s.
Proof.
  unfold engine_call.
  destruct (f (default [] (engines s !! cl))) as [r cs'] eqn:Hf.
  destruct (head (faults s)) as [[| |msg]|]; try discriminate;
    intros [= -> <-]; by exists cs'.
Qed.

Lemma on_container_ret_inv {A} cl cid
    (f : container → list container → result A * list container) s a s' :
  on_container cl cid f s = (Ret a, s') →
  ∃ cs c cs', engines s !! cl = Some cs ∧ find (has_id cid) cs = Some c ∧
              f c cs = (Ret a, cs') ∧
              engines s' = <[cl := cs']> (engines s) ∧
              metadata s' = metadata s ∧ circuits s' = circuits s.
Proof.
  unfold on_container. intros H.
  apply engine_call_ret_inv in H as (cs' & Hf & He & Hm & Hc).
  destruct (engines s !! cl) as [cs|] eqn:Hcs; simpl in Hf; [|discriminate].
  destruct (find (has_id cid) cs) as [c|] eqn:Hfind; [|discriminate].
  by exists cs, c, cs'.
Qed.

Lemma containers_get_ret_inv cl cid s c s' :
  containers_get cl cid s = (Ret c, s') →
  ∃ cs, engines s !! cl = Some cs ∧ find (has_id cid) cs = Some c ∧
        engines s' = <[cl := cs]> (engines s) ∧
        metadata s' = metadata s ∧ circuits s' = circuits s.
Proof.
  unfold containers_get. intros H.
  apply engine_call_ret_inv in H as (cs' & Hf & He & Hm & Hc).
  destruct (engines s !! cl) as [cs|] eqn:Hcs; simpl in Hf; [|discriminate].
  destruct (find (has_id cid) cs) as [c0|] eqn:Hfind; [|discriminate].
  injection Hf as <- <-. by exists cs.
Qed.

Lemma container_logs_ret_inv cl cid stdout stderr s b s' :
  container_logs cl cid stdout stderr s = (Ret b, s') →
  ∃ cs c, engines s !! cl = Some cs ∧ find (has_id cid) cs = Some c ∧
          b = log_bytes stdout stderr c ∧
          engines s' = <[cl := cs]> (engines s) ∧
          metadata s' = metadata s ∧ circuits s' = circuits s.
Proof.
  unfold container_logs. intros H.
  apply on_container_ret_inv in H as (cs & c & cs' & ? & ? & [= <- <-] & ? & ? & ?).
  by exists cs, c.
Qed.

Lemma try_except_ret_inv {A} (m : M A) handler s a s' :
  (∀ e h s1 s2, handler e = Some h → h s1 ≠ (Ret a, s2)) →
  try_except m handler s = (Ret a, s') → m s = (Ret a, s').
Proof.
  intros Hh. unfold try_except. destruct (m s) as [[a'|e] s1]; [done|].
  destruct (handler e) as [h|] eqn:He; [|discriminate].
  intros H. destruct (Hh e h s1 s' He H).
Qed.

Lemma except_connection_error_raises {A} host port e h s1 (a : A) s2 :
  except_connection_error host port e = Some h → h s1 ≠ (Ret a, s2).
Proof. destruct e; try discriminate. intros [= <-]. discriminate. Qed.

Lemma convert_date_ret_inv dt s d s' :
  convert_date dt s = (Ret d, s') → s' = s ∧ parse dt = Some d.
Proof. unfold convert_date. destruct (parse dt); [|discriminate]. by intros [= <- <-]. Qed.

Lemma finished_iff st : finished st = true ↔ st = Status.done ∨ st = Status.failed.
Proof. destruct st; unfold finished; simpl; intuition congruence. Qed.

(** ** get_result *)

(** C7. In the result that [get_result] returns for the bound container,
    [finished_at] and [log] are set exactly when the status is done or
    failed. In that case [finished_at] is the parsed [FinishedAt] of the
    engine state, [log] is what the container wrote to stdout, and [error]
    is the [bytes] written to stderr when the engine reported no error,
    and otherwise the engine's error followed by a blank line, the line
    [stderr:] and the stderr bytes as an f-string renders them. In the other
    case [error] is the engine's error. *)
Theorem get_result_finished_fields pool task_id s r s' :
  get_result pool task_id s = (Ret r, s') →
  ∃ h p cid host port cl c,
    metadata s !! "docker_host" = Some h ∧
    metadata s !! "docker_port" = Some p ∧
    metadata s !! "container_id" = Some cid ∧
    dict_get (clients pool) (fmt h +:+ ":" +:+ fmt p) = Some (host, port, cl) ∧
    container_of cl (fmt cid) s = Some c ∧
    status r = result_status (c_status c) ∧
    (is_Some (finished_at r) ∧ is_Some (log r)
       ↔ status r = Status.done ∨ status r = Status.failed) ∧
    (is_Some (finished_at r) ∨ is_Some (log r)
       → status r = Status.done ∨ status r = Status.failed) ∧
    (status r = Status.done ∨ status r = Status.failed →
       finished_at r = parse (c_finished_at c) ∧
       log r = Some (log_bytes true false c) ∧
       error r =
         if decide (c_error c = EmptyString) then Bytes (log_bytes false true c)
         else Str (c_error c +:+ nl +:+ nl +:+ "stderr:" +:+ nl
                   +:+ bytes_repr (log_bytes false true c))) ∧
    (¬ (status r = Status.done ∨ status r = Status.failed) →
       error r = Str (c_error c)).
Proof.
  intros H. unfold get_result in H.
  apply bind_ret_inv in H as (h & s1 & Hh & H).
  apply getitem_ret_inv in Hh as [-> Hh].
  apply bind_ret_inv in H as (p & s1 & Hp & H).
  apply getitem_ret_inv in Hp as [-> Hp].
  apply bind_ret_inv in H as ([[host port] cl] & s1 & Hc & H).
  apply bound_client_inv in Hc as [-> Hc].
  apply bind_ret_inv in H as (circuit & s1 & Hcirc & H).
  destruct (get_circuit_only (address host port) s) as (s1' & Hcirc' & Ho1).
  rewrite Hcirc' in Hcirc. injection Hcirc as <- <-.
  apply bind_ret_inv in H as (c & s2 & Hcall & H).
  apply circuit_call_ret_inv in Hcall as (s1a & s1b & Ho2 & Hrun & Ho3).
  unfold get_result_run in Hrun.
  apply try_except_ret_inv in Hrun;
    [|intros e0 h0 s10 s20; apply except_connection_error_raises].
  apply bind_ret_inv in Hrun as (cid & s1c & Hcid & Hget).
  apply getitem_ret_inv in Hcid as [-> Hcid].
  apply containers_get_ret_inv in Hget as (cs & Hcs & Hfind & He1 & Hm1 & _).
  pose proof (only_circuits_trans _ _ _ Ho1 Ho2) as Ho12.
  destruct Ho12 as (Hm12 & He12 & _). destruct Ho3 as (Hm3 & He3 & _).
  rewrite Hm12 in Hcid. rewrite He12 in Hcs, He1.
  assert (engines s2 !! cl = Some cs) as He2.
  { rewrite He3, He1. apply lookup_insert_eq. }
  pose proof (find_has_id _ _ _ Hfind) as Hid.
  apply bind_ret_inv in H as (_cid & s3 & Hcid' & H).
  apply getitem_ret_inv in Hcid' as [-> _].
  apply bind_ret_inv in H as (started & s3 & Hstart & H).
  apply convert_date_ret_inv in Hstart as [-> Hstart].
  exists h, p, cid, host, port, cl, c.
  split; [done|]. split; [done|]. split; [done|]. split; [done|].
  split; [by unfold container_of; rewrite Hcs|].
  destruct (finished (result_status (c_status c))) eqn:Hfin.
  - pose proof (proj1 (finished_iff _) Hfin) as Hst.
    apply bind_ret_inv in H as (fin & s3 & Hfinat & H).
    apply convert_date_ret_inv in Hfinat as [-> Hfinat].
    apply bind_ret_inv in H as (lg & s3 & Hlog & H).
    apply container_logs_ret_inv in Hlog as (cs' & c' & Hcs' & Hfind' & -> & He3' & _).
    rewrite He2 in Hcs'. injection Hcs' as <-.
    rewrite Hid, Hfind in Hfind'. injection Hfind' as <-.
    assert (engines s3 !! cl = Some cs) as He4.
    { rewrite He3'. apply lookup_insert_eq. }
    apply bind_ret_inv in H as (err & s4 & Herr & [= <- <-]). simpl.
    split; [done|]. split; [split; [by intros _ | by (intros _; split; eexists)]|].
    split; [done|].
    split; [|by intros Hn; destruct (Hn Hst)]. intros _. split; [done|]. split; [done|].
    destruct (decide (c_error c = EmptyString)) as [Hemp|Hemp].
    + rewrite bool_decide_eq_false_2 in Herr by naive_solver.
      apply bind_ret_inv in Herr as (se & s5 & Hse & [= <- <-]).
      apply container_logs_ret_inv in Hse as (cs' & c' & Hcs' & Hfind' & -> & _).
      rewrite He4 in Hcs'. injection Hcs' as <-.
      rewrite Hid, Hfind in Hfind'. by injection Hfind' as <-.
    + rewrite bool_decide_eq_true_2 in Herr by done.
      apply bind_ret_inv in Herr as (se & s5 & Hse & [= <- <-]).
      apply container_logs_ret_inv in Hse as (cs' & c' & Hcs' & Hfind' & -> & _).
      rewrite He4 in Hcs'. injection Hcs' as <-.
      rewrite Hid, Hfind in Hfind'. by injection Hfind' as <-.
  - assert (¬ (result_status (c_status c) = Status.done
               ∨ result_status (c_status c) = Status.failed)) as Hst.
    { rewrite <- finished_iff. by rewrite Hfin. }
    injection H as <- <-. simpl.
    split; [done|]. split; [split; [intros [[? [=]] _] | done]|].
    split; [intros [[? [=]] | [? [=]]]|]. split; done.
Qed.

(** ** What leaves the binding alone *)

Lemma keeps_ret {A} (a : A) : keeps_metadata (mret a).
Proof. by intros s r s' [= <- <-]. Qed.

Lemma keeps_raise {A} e : keeps_metadata (@raise A e).
Proof. by intros s r s' [= <- <-]. Qed.

Lemma keeps_bind {A B} (m : M A) (f : A → M B) :
  keeps_metadata m → (∀ a, keeps_metadata (f a)) → keeps_metadata (m ≫= f).
Proof.
  intros Hm Hf s r s'. unfold mbind, M_bind.
  destruct (m s) as [[a|e] s1] eqn:Hms.
  - intros H. rewrite (Hf _ _ _ _ H). eauto.
  - intros [= <- <-]. eauto.
Qed.

Lemma keeps_try_except {A} (m : M A) handler :
  keeps_metadata m → (∀ e h, handler e = Some h → keeps_metadata h) →
  keeps_metadata (try_except m handler).
Proof.
  intros Hm Hh s r s'. unfold try_except.
  destruct (m s) as [[a|e] s1] eqn:Hms.
  - intros [= <- <-]. eauto.
  - destruct (handler e) as [h|] eqn:He.
    + intros H. rewrite (Hh _ _ He _ _ _ H). eauto.
    + intros [= <- <-]. eauto.
Qed.

Lemma keeps_getitem key : keeps_metadata (getitem key).
Proof. intros s r s'. unfold getitem. by destruct (metadata s !! key); intros [= <- <-]. Qed.

Lemma keeps_contains key : keeps_metadata (contains key).
Proof. by intros s r s' [= <- <-]. Qed.

Lemma keeps_engine_call {A} cl (f : list container → result A * list container) :
  keeps_metadata (engine_call cl f).
Proof.
  intros s r s'. unfold engine_call.
  destruct (f _) as [r0 cs]. by destruct (head (faults s)) as [[| |]|]; intros [= <- <-].
Qed.

Lemma keeps_get_circuit key : keeps_metadata (get_circuit key).
Proof.
  intros s r s' H. destruct (get_circuit_only key s) as (s1 & Hg & Ho).
  rewrite Hg in H. injection H as <- <-. apply Ho.
Qed.

Lemma keeps_unpack c : keeps_metadata (unpack c).
Proof. destruct c; [apply keeps_ret | apply keeps_raise]. Qed.

Lemma keeps_bound_client pool task_id h p :
  keeps_metadata (get_client pool task_id (Some h) (Some p) None ≫= unpack).
Proof. apply keeps_bind; [apply keeps_ret | apply keeps_unpack]. Qed.

Lemma keeps_guarded_call {A} c trial (func : M A) :
  keeps_metadata func → keeps_metadata (guarded_call c trial func).
Proof.
  intros Hf s r s'. unfold guarded_call.
  destruct (func s) as [[a|e] s1] eqn:Hfs.
  - destruct (handle_success_only c trial s1) as (s2 & Hs & Ho).
    rewrite (bind_ret _ _ _ _ _ Hs). intros [= <- <-].
    destruct Ho as [-> _]. eauto.
  - destruct (@handle_error_only A c trial e s1) as (e' & s2 & He & Ho & _).
    rewrite He. intros [= <- <-]. destruct Ho as [-> _]. eauto.
Qed.

Lemma keeps_circuit_call {A} c (func : M A) :
  keeps_metadata func → keeps_metadata (circuit_call c func).
Proof.
  intros Hf s r s'.
  unfold circuit_call, read_breaker, get_state, mbind at 1 2, M_bind at 1 2.
  destruct (b_state _).
  - apply (keeps_guarded_call c false func Hf).
  - destruct (still_open _ _ _); [by intros [= <- <-]|].
    apply (keeps_bind (breaker_half_open c)); [by intros s0 r0 s0' [= <- <-]|].
    intros _. by apply keeps_guarded_call.
  - apply (keeps_guarded_call c true func Hf).
Qed.

Lemma keeps_for_each {A B} (f : A → M B) l :
  (∀ a, keeps_metadata (f a)) → keeps_metadata (for_each f l).
Proof.
  intros Hf. induction l as [|x l IH]; simpl; [apply keeps_ret|].
  apply keeps_bind; [done|]. intros y.
  apply keeps_bind; [done|]. intros ys. apply keeps_ret.
Qed.

Lemma keeps_except_connection_error {A} host port e h :
  @except_connection_error A host port e = Some h → keeps_metadata h.
Proof. destruct e; try discriminate. intros [= <-]. apply keeps_raise. Qed.

Lemma keeps_decode_utf8 raw : keeps_metadata (decode_utf8 raw).
Proof. unfold decode_utf8. destruct (decode raw); [apply keeps_ret | apply keeps_raise]. Qed.

Lemma keeps_convert_date dt : keeps_metadata (convert_date dt).
Proof. unfold convert_date. destruct (parse dt); [apply keeps_ret | apply keeps_raise]. Qed.

Local Ltac keeps :=
  repeat first
    [ apply keeps_ret | apply keeps_raise | apply keeps_getitem | apply keeps_contains
    | apply keeps_engine_call | apply keeps_get_circuit | apply keeps_bound_client
    | apply keeps_decode_utf8 | apply keeps_convert_date
    | apply keeps_circuit_call | apply keeps_try_except
    | apply keeps_for_each; intros ?
    | eapply keeps_except_connection_error; eassumption
    | apply keeps_bind; [|intros ?]
    | match goal with |- keeps_metadata (let '(_, _) := ?x in _) => destruct x end
    | match goal with |- keeps_metadata (if ?b then _ else _) => destruct b end ].

Lemma stop_job_keeps_metadata pool task_id : keeps_metadata (stop_job pool task_id).
Proof. unfold stop_job, stop_job_run, containers_get, container_stop, on_container. keeps. Qed.

Lemma get_result_keeps_metadata pool task_id : keeps_metadata (get_result pool task_id).
Proof.
  unfold get_result, get_result_run, containers_get, container_logs, on_container. keeps.
Qed.

Lemma get_current_logs_keeps_metadata pool task_id :
  keeps_metadata (get_current_logs pool task_id).
Proof. unfold get_current_logs, containers_get, container_logs, on_container. keeps. Qed.

Lemma get_streaming_logs_keeps_metadata pool task_id :
  keeps_metadata (get_streaming_logs pool task_id).
Proof.
  unfold get_streaming_logs, containers_get, container_logs_stream, on_container, stream_next.
  keeps.
Qed.

Lemma mark_as_done_keeps_metadata pool task_id : keeps_metadata (mark_as_done pool task_id).
Proof. unfold mark_as_done, containers_get, container_rename, on_container. keeps. Qed.

(** ** Connection failures inside a breaker call *)

Lemma get_circuit_breaker key s :
  ∃ s', get_circuit key s = (Ret key, s') ∧ only_circuits s s' ∧
        ∀ k, breaker_of k s' = breaker_of k s.
Proof.
  unfold get_circuit. destruct (circuits s !! key) as [b|] eqn:Hb.
  - exists s. split; [done|]. split; [apply only_circuits_refl | done].
  - eexists. split; [done|]. split; [apply only_circuits_set|].
    intros k. unfold breaker_of. simpl.
    destruct (decide (key = k)) as [->|Hne].
    + by rewrite lookup_insert_eq, Hb.
    + by rewrite lookup_insert_ne.
Qed.

Lemma discard_spec key s :
  ∃ s', discard key s = (Ret tt, s') ∧ metadata s' = delete key (metadata s) ∧
        circuits s' = circuits s ∧ fail_max s' = fail_max s.
Proof.
  unfold discard, contains, delitem, mbind, M_bind, mret, M_ret.
  destruct (metadata s !! key) as [v|] eqn:Hk.
  - rewrite bool_decide_eq_true_2 by eauto. rewrite Hk. eexists. by split.
  - rewrite bool_decide_eq_false_2 by (intros [? [=]]).
    exists s. split; [done|]. split; [|done]. symmetry. by apply delete_id.
Qed.

Lemma unbound_delete (m : gmap string pyval) s :
  metadata s = delete "docker_port" (delete "docker_host" m) → unbound s.
Proof.
  intros H. unfold unbound. rewrite H. split.
  - rewrite lookup_delete_ne by done. apply lookup_delete_eq.
  - apply lookup_delete_eq.
Qed.

(** The [except] clause of [update_image] and [run] drops the host and the
    port from the binding and raises [HostUnavailableError]. *)
Lemma clearing_handler {A} (m : M A) host port s cl s1 :
  m s = (Raise (ConnectionError cl), s1) →
  ∃ s', try_except m (except_connection_error_clearing host port) s
          = (Raise (HostUnavailableError host port (ConnectionError cl)), s') ∧
        unbound s' ∧ circuits s' = circuits s1 ∧ fail_max s' = fail_max s1.
Proof.
  intros Hm. unfold try_except. rewrite Hm. simpl.
  destruct (discard_spec "docker_host" s1) as (s2 & Hd1 & Hm2 & Hc2 & Hf2).
  destruct (discard_spec "docker_port" s2) as (s3 & Hd2 & Hm3 & Hc3 & Hf3).
  exists s3. rewrite (bind_ret _ _ _ _ _ Hd1), (bind_ret _ _ _ _ _ Hd2).
  split; [done|]. split; [|split; congruence].
  apply (unbound_delete (metadata s1)). by rewrite Hm3, Hm2.
Qed.

(** The [except] clause of the other methods raises [HostUnavailableError]
    and does nothing else. *)
Lemma translating_handler {A} (m : M A) host port s cl s1 :
  m s = (Raise (ConnectionError cl), s1) →
  try_except m (except_connection_error host port) s
    = (Raise (HostUnavailableError host port (ConnectionError cl)), s1).
Proof. intros Hm. unfold try_except. by rewrite Hm. Qed.

Lemma engine_call_refused {A} cl (f : list container → result A * list container) s :
  head (faults s) = Some Refused →
  engine_call cl f s = (Raise (ConnectionError cl), set_faults (tail (faults s)) s).
Proof. intros H. unfold engine_call. by rewrite H. Qed.

Lemma breaker_of_insert c b s : breaker_of c (set_circuits (insert c b) s) = b.
Proof. unfold breaker_of. simpl. by rewrite lookup_insert_eq. Qed.

(** A failing call through a breaker that admits it: the failure is counted,
    and it is raised again unless it opens the breaker. *)
Lemma circuit_call_failure {A} c (func : M A) s e :
  admits c s = true →
  (∀ s0, only_circuits s s0 →
     ∃ s1, func s0 = (Raise e, s1) ∧ circuits s1 = circuits s0 ∧ fail_max s1 = fail_max s0) →
  ∃ s0 s1 e' s',
    circuit_call c func s = (Raise e', s') ∧
    only_circuits s s0 ∧ func s0 = (Raise e, s1) ∧ only_circuits s1 s' ∧
    fail_counter (breaker_of c s') = (fail_counter (breaker_of c s) + 1)%Z ∧
    (e' = e ∨ ∃ m, e' = CircuitBreakerError m) ∧
    (b_state (breaker_of c s) = closed →
     (fail_counter (breaker_of c s) + 1 < fail_max s)%Z →
     e' = e ∧ b_state (breaker_of c s') = closed).
Proof.
  intros Hadm Hfunc. unfold admits in Hadm.
  unfold circuit_call, read_breaker, get_state, mbind at 1 2, M_bind at 1 2.
  fold (breaker_of c s).
  destruct (b_state (breaker_of c s)) eqn:Hst.
  - destruct (Hfunc s (only_circuits_refl s)) as (s1 & Hf & Hc & Hfm).
    exists s, s1. unfold guarded_call. rewrite Hf.
    unfold handle_error, read_breaker, write_breaker, breaker_open, get_state, modify, raise,
      mbind, M_bind. simpl. fold (breaker_of c s1).
    assert (breaker_of c s1 = breaker_of c s) as Hb by (unfold breaker_of; by rewrite Hc).
    rewrite Hb, Hfm.
    case_decide as Hmax.
    + do 2 eexists. split; [reflexivity|].
      split; [apply only_circuits_refl|]. split; [done|]. split; [by repeat split|].
      repeat (rewrite ?breaker_of_insert, ?lookup_insert_eq; simpl).
      split; [done|]. split; [eauto|]. intros _ ?. lia.
    + do 2 eexists. split; [reflexivity|].
      split; [apply only_circuits_refl|]. split; [done|]. split; [by repeat split|].
      repeat (rewrite ?breaker_of_insert, ?lookup_insert_eq; simpl).
      split; [done|]. split; [eauto|]. by rewrite Hst.
  - destruct (still_open _ _ _); [discriminate|].
    set (s0 := set_circuits
                 (insert c {| b_state := half_open;
                              fail_counter := fail_counter (breaker_of c s);
                              opened_at := opened_at (breaker_of c s) |}) s).
    assert (only_circuits s s0) as Ho by apply only_circuits_set.
    destruct (Hfunc s0 Ho) as (s1 & Hf & Hc & Hfm).
    exists s0, s1.
    unfold breaker_half_open, read_breaker, write_breaker, modify, mbind at 1 2, M_bind at 1 2.
    fold (breaker_of c s). fold s0.
    unfold guarded_call. rewrite Hf.
    unfold handle_error, read_breaker, write_breaker, breaker_open, get_state, modify, raise,
      mbind, M_bind. simpl.
    do 2 eexists. split; [reflexivity|].
    split; [done|]. split; [done|]. split; [by repeat split|].
    repeat (rewrite ?breaker_of_insert, ?lookup_insert_eq; simpl).
    unfold breaker_of at 1. rewrite Hc. fold (breaker_of c s0).
    unfold s0. rewrite breaker_of_insert. simpl.
    split; [done|]. split; [eauto | done].
  - destruct (Hfunc s (only_circuits_refl s)) as (s1 & Hf & Hc & Hfm).
    exists s, s1. unfold guarded_call. rewrite Hf.
    unfold handle_error, read_breaker, write_breaker, breaker_open, get_state, modify, raise,
      mbind, M_bind. simpl. fold (breaker_of c s1).
    assert (breaker_of c s1 = breaker_of c s) as Hb by (unfold breaker_of; by rewrite Hc).
    rewrite Hb.
    do 2 eexists. split; [reflexivity|].
    split; [apply only_circuits_refl|]. split; [done|]. split; [by repeat split|].
    repeat (rewrite ?breaker_of_insert, ?lookup_insert_eq; simpl).
    split; [done|]. split; [eauto | done].
Qed.

(** A decorated function whose request is refused, with the [except]
    clause of [update_image] and [run]. *)
Lemma clearing_call {A} c (m : M A) host port cl s :
  admits c s = true →
  (∀ s0, only_circuits s s0 →
     ∃ s1, m s0 = (Raise (ConnectionError cl), s1) ∧
           circuits s1 = circuits s0 ∧ fail_max s1 = fail_max s0) →
  ∃ e s',
    circuit_call c (try_except m (except_connection_error_clearing host port)) s
      = (Raise e, s') ∧
    unbound s' ∧
    counted_failure c (HostUnavailableError host port (ConnectionError cl)) s e s'.
Proof.
  intros Hadm Hm.
  destruct (circuit_call_failure c
              (try_except m (except_connection_error_clearing host port)) s
              (HostUnavailableError host port (ConnectionError cl)) Hadm)
    as (s0 & s1 & e' & s' & Hcall & Ho & Hf & Ho' & Hcnt & He & Hcl).
  { intros s0 Ho. destruct (Hm s0 Ho) as (s1 & Hms & Hc & Hfm).
    destruct (clearing_handler m host port s0 cl s1 Hms) as (s2 & Ht & _ & Hc2 & Hfm2).
    exists s2. split; [done|]. split; congruence. }
  exists e', s'. split; [done|]. split.
  - destruct (Hm s0 Ho) as (s1' & Hms & _).
    destruct (clearing_handler m host port s0 cl s1' Hms) as (s2 & Ht & Hun & _).
    rewrite Ht in Hf. injection Hf as <-.
    destruct Ho' as [Hmeta _]. unfold unbound. by rewrite Hmeta.
  - split; [done|]. split; [done|]. intros H1 H2. by destruct (Hcl H1 H2).
Qed.

(** The same with the [except] clause of [stop_job] and [get_result]: the
    binding stays. *)
Lemma translating_call {A} c (m : M A) host port cl s :
  admits c s = true →
  (∀ s0, only_circuits s s0 →
     ∃ s1, m s0 = (Raise (ConnectionError cl), s1) ∧
           circuits s1 = circuits s0 ∧ fail_max s1 = fail_max s0 ∧
           metadata s1 = metadata s0) →
  ∃ e s',
    circuit_call c (try_except m (except_connection_error host port)) s = (Raise e, s') ∧
    metadata s' = metadata s ∧
    counted_failure c (HostUnavailableError host port (ConnectionError cl)) s e s'.
Proof.
  intros Hadm Hm.
  destruct (circuit_call_failure c
              (try_except m (except_connection_error host port)) s
              (HostUnavailableError host port (ConnectionError cl)) Hadm)
    as (s0 & s1 & e' & s' & Hcall & Ho & Hf & Ho' & Hcnt & He & Hcl).
  { intros s0 Ho. destruct (Hm s0 Ho) as (s1 & Hms & Hc & Hfm & _).
    exists s1. by rewrite (translating_handler m host port s0 cl s1 Hms). }
  exists e', s'. split; [done|]. split.
  - destruct (Hm s0 Ho) as (s1' & Hms & _ & _ & Hmeta).
    rewrite (translating_handler m host port s0 cl s1' Hms) in Hf. injection Hf as <-.
    destruct Ho' as [-> _]. rewrite Hmeta. apply Ho.
  - split; [done|]. split; [done|]. intros H1 H2. by destruct (Hcl H1 H2).
Qed.

Lemma admits_closed key s : b_state (breaker_of key s) = closed → admits key s = true.
Proof. unfold admits. by intros ->. Qed.

Lemma admits_ext key s s' :
  breaker_of key s' = breaker_of key s → now s' = now s →
  reset_timeout s' = reset_timeout s → admits key s' = admits key s.
Proof. unfold admits. by intros -> -> ->. Qed.

(** What a selection by [update_image] or [run] returned. *)
Lemma selected_client pool task_id bl s c s' :
  (get_client pool task_id None None (Some bl) ≫= unpack) s = (Ret c, s') →
  select_client (clients_per_regex pool) task_id bl s = (Ret c, s').
Proof.
  intros H. apply bind_ret_inv in H as (r & s1 & Hg & Hu).
  unfold get_client in Hg. apply bind_ret_inv in Hg as (c' & s2 & Hs & [= <- <-]).
  by injection Hu as <- <-.
Qed.

Lemma selected_closed pool task_id bl s host port cl s' :
  (get_client pool task_id None None (Some bl) ≫= unpack) s = (Ret (host, port, cl), s') →
  b_state (breaker_of (address host port) s') = closed.
Proof.
  intros H. apply selected_client, select_client_ret in H
    as (pre & r & cls & post & s0 & s1 & _ & _ & _ & _ & Hin & Hb).
  apply elem_of_eligible in Hin as (_ & _ & Hst).
  change (breaker_state (address host port) s' = closed). by rewrite Hb.
Qed.

Lemma blacklist_argument (bl : option (gset string)) s :
  match bl with
  | None => get_blacklisted_hosts
  | Some b => mret b
  end s = (Ret (default (blacklisted s) bl), s).
Proof. by destruct bl. Qed.

Lemma images_pull_refused cl image tag (k : unit → M unit) s0 :
  head (faults s0) = Some Refused →
  ∃ s1, (images_pull cl image tag ≫= k) s0 = (Raise (ConnectionError cl), s1) ∧
        circuits s1 = circuits s0 ∧ fail_max s1 = fail_max s0.
Proof.
  intros H. eexists. split.
  - apply bind_raise. unfold images_pull. by apply engine_call_refused.
  - done.
Qed.

Lemma containers_run_refused {B} cl image name command envs (k : container → M B) s0 :
  head (faults s0) = Some Refused →
  ∃ s1, (containers_run cl image name command envs ≫= k) s0
          = (Raise (ConnectionError cl), s1) ∧
        circuits s1 = circuits s0 ∧ fail_max s1 = fail_max s0.
Proof.
  intros H. eexists. split.
  - apply bind_raise. unfold containers_run, get_state, modify, mbind, M_bind.
    by apply engine_call_refused.
  - done.
Qed.

Lemma containers_get_refused {B} cl cid (k : container → M B) s0 :
  head (faults s0) = Some Refused →
  ∃ s1, (containers_get cl cid ≫= k) s0 = (Raise (ConnectionError cl), s1) ∧
        circuits s1 = circuits s0 ∧ fail_max s1 = fail_max s0 ∧
        metadata s1 = metadata s0.
Proof.
  intros H. eexists. split.
  - apply bind_raise. unfold containers_get. by apply engine_call_refused.
  - done.
Qed.

Lemma counted_failure_ext key failure s s0 e s' :
  breaker_of key s = breaker_of key s0 → fail_max s = fail_max s0 →
  counted_failure key failure s e s' → counted_failure key failure s0 e s'.
Proof. unfold counted_failure. by intros -> ->. Qed.

(** ** Refused connections, method by method *)

Lemma update_image_refused pool task_id image tag bl s host port cl s1 :
  (get_client pool task_id None None (Some (default (blacklisted s) bl)) ≫= unpack) s
    = (Ret (host, port, cl), s1) →
  head (faults s1) = Some Refused →
  ∃ e s', update_image pool task_id image tag bl s = (Raise e, s') ∧
          unbound s' ∧
          counted_failure (address host port)
            (HostUnavailableError host port (ConnectionError cl)) s1 e s'.
Proof.
  intros Hsel Hfault.
  pose proof (selected_closed _ _ _ _ _ _ _ _ Hsel) as Hclosed.
  destruct (get_circuit_breaker (address host port) s1) as (s2 & Hg & Ho & Hb).
  destruct (clearing_call (address host port)
              (images_pull cl image tag;;
               setitem "docker_host" (PStr host);;
               setitem "docker_port" (PInt port)) host port cl s2)
    as (e & s' & Hcall & Hun & Hcnt).
  { apply admits_closed. by rewrite Hb. }
  { intros s0 Ho0. apply images_pull_refused.
    destruct Ho0 as (_ & _ & -> & _). destruct Ho as (_ & _ & -> & _). done. }
  exists e, s'. split; [|split; [done|]].
  - unfold update_image.
    rewrite (bind_ret _ _ _ _ _ (blacklist_argument bl s)).
    rewrite (bind_ret _ _ _ _ _ Hsel). by rewrite (bind_ret _ _ _ _ _ Hg).
  - apply (counted_failure_ext _ _ s2); [apply Hb | apply Ho | done].
Qed.

Lemma run_bound_refused pool task_id execution_id image tag command envs bl
    s host port cl :
  bound_to pool s host port cl →
  admits (address host port) s = true →
  head (faults s) = Some Refused →
  ∃ e s', run pool task_id execution_id image tag command envs bl s = (Raise e, s') ∧
          unbound s' ∧
          counted_failure (address host port)
            (HostUnavailableError host port (ConnectionError cl)) s e s'.
Proof.
  intros (h & p & Hh & Hp & Hc) Hadm Hfault.
  destruct (bound_client pool task_id s h p host port cl Hh Hp Hc) as (Hg1 & Hg2 & Hg3).
  destruct (get_circuit_breaker (address host port) s) as (s2 & Hg & Ho & Hb).
  destruct (clearing_call (address host port)
              (container ← containers_run cl (image +:+ ":" +:+ tag)
                             (job_prefix +:+ "-" +:+ execution_id) command envs;
               setitem "container_id" (PStr (c_id container))) host port cl s2)
    as (e & s' & Hcall & Hun & Hcnt).
  { rewrite <- Hadm. apply admits_ext; [apply Hb | apply Ho | apply Ho]. }
  { intros s0 Ho0. apply containers_run_refused.
    destruct Ho0 as (_ & _ & -> & _). destruct Ho as (_ & _ & -> & _). done. }
  exists e, s'. split; [|split; [done|]].
  - unfold run.
    assert (contains "docker_host" s = (Ret true, s)) as Hin.
    { unfold contains. by rewrite bool_decide_eq_true_2 by eauto. }
    rewrite (bind_ret _ _ _ _ _ Hin).
    assert ((h ← getitem "docker_host"; p ← getitem "docker_port";
             get_client pool task_id (Some h) (Some p) None ≫= unpack) s
            = (Ret (host, port, cl), s)) as Hb3.
    { by rewrite (bind_ret _ _ _ _ _ Hg1), (bind_ret _ _ _ _ _ Hg2). }
    rewrite (bind_ret _ _ _ _ _ Hb3).
    rewrite (bind_ret _ _ _ _ _ Hg).
    apply bind_raise. exact Hcall.
  - apply (counted_failure_ext _ _ s2); [apply Hb | apply Ho | done].
Qed.

Lemma run_unbound_refused pool task_id execution_id image tag command envs bl
    s host port cl s1 :
  metadata s !! "docker_host" = None →
  (get_client pool task_id None None (Some (default (blacklisted s) bl)) ≫= unpack) s
    = (Ret (host, port, cl), s1) →
  head (faults s1) = Some Refused →
  ∃ e s', run pool task_id execution_id image tag command envs bl s = (Raise e, s') ∧
          unbound s' ∧
          counted_failure (address host port)
            (HostUnavailableError host port (ConnectionError cl)) s1 e s'.
Proof.
  intros Hnone Hsel Hfault.
  pose proof (selected_closed _ _ _ _ _ _ _ _ Hsel) as Hclosed.
  set (s1' := set_metadata (insert "docker_port" (PInt port))
                (set_metadata (insert "docker_host" (PStr host)) s1)).
  destruct (get_circuit_breaker (address host port) s1') as (s2 & Hg & Ho & Hb).
  destruct (clearing_call (address host port)
              (container ← containers_run cl (image +:+ ":" +:+ tag)
                             (job_prefix +:+ "-" +:+ execution_id) command envs;
               setitem "container_id" (PStr (c_id container))) host port cl s2)
    as (e & s' & Hcall & Hun & Hcnt).
  { apply admits_closed. by rewrite Hb. }
  { intros s0 Ho0. apply containers_run_refused.
    destruct Ho0 as (_ & _ & -> & _). destruct Ho as (_ & _ & -> & _). done. }
  exists e, s'. split; [|split; [done|]].
  - unfold run.
    assert (contains "docker_host" s = (Ret false, s)) as Hin.
    { unfold contains. rewrite Hnone. by rewrite bool_decide_eq_false_2 by (intros [? [=]]). }
    rewrite (bind_ret _ _ _ _ _ Hin).
    assert ((blacklisted_hosts ← match bl with
                                 | None => get_blacklisted_hosts
                                 | Some b => mret b
                                 end;
             '(host, port, cl) ← get_client pool task_id None None (Some blacklisted_hosts)
                                  ≫= unpack;
             setitem "docker_host" (PStr host);;
             setitem "docker_port" (PInt port);;
             mret (host, port, cl)) s = (Ret (host, port, cl), s1')) as Hb3.
    { rewrite (bind_ret _ _ _ _ _ (blacklist_argument bl s)).
      by rewrite (bind_ret _ _ _ _ _ Hsel). }
    rewrite (bind_ret _ _ _ _ _ Hb3).
    rewrite (bind_ret _ _ _ _ _ Hg).
    apply bind_raise. exact Hcall.
  - apply (counted_failure_ext _ _ s2); [apply Hb | apply Ho | done].
Qed.

Lemma stop_job_refused pool task_id s host port cl :
  bound_to pool s host port cl →
  is_Some (metadata s !! "container_id") →
  admits (address host port) s = true →
  head (faults s) = Some Refused →
  ∃ e s', stop_job pool task_id s = (Raise e, s') ∧
          metadata s' = metadata s ∧
          counted_failure (address host port)
            (HostUnavailableError host port (ConnectionError cl)) s e s'.
Proof.
  intros (h & p & Hh & Hp & Hc) [cid Hcid] Hadm Hfault.
  destruct (bound_client pool task_id s h p host port cl Hh Hp Hc) as (Hg1 & Hg2 & Hg3).
  destruct (get_circuit_breaker (address host port) s) as (s2 & Hg & Ho & Hb).
  destruct (translating_call (address host port)
              (container_id ← getitem "container_id";
               container ← containers_get cl (fmt container_id);
               container_stop cl (c_id container)) host port cl s2)
    as (e & s' & Hcall & Hmeta & Hcnt).
  { rewrite <- Hadm. apply admits_ext; [apply Hb | apply Ho | apply Ho]. }
  { intros s0 Ho0.
    assert (metadata s0 !! "container_id" = Some cid) as Hcid0.
    { destruct Ho0 as (-> & _). destruct Ho as (-> & _). done. }
    rewrite (bind_ret _ _ _ _ _ (getitem_spec _ _ _ Hcid0)).
    apply containers_get_refused.
    destruct Ho0 as (_ & _ & -> & _). destruct Ho as (_ & _ & -> & _). done. }
  exists e, s'. split; [|split].
  - unfold stop_job.
    assert (contains "container_id" s = (Ret true, s)) as Hin.
    { unfold contains. by rewrite bool_decide_eq_true_2 by eauto. }
    rewrite (bind_ret _ _ _ _ _ Hin). simpl.
    rewrite (bind_ret _ _ _ _ _ Hg1), (bind_ret _ _ _ _ _ Hg2), (bind_ret _ _ _ _ _ Hg3).
    by rewrite (bind_ret _ _ _ _ _ Hg).
  - rewrite Hmeta. apply Ho.
  - apply (counted_failure_ext _ _ s2); [apply Hb | apply Ho | done].
Qed.

Lemma get_result_refused pool task_id s host port cl :
  bound_to pool s host port cl →
  is_Some (metadata s !! "container_id") →
  admits (address host port) s = true →
  head (faults s) = Some Refused →
  ∃ e s', get_result pool task_id s = (Raise e, s') ∧
          metadata s' = metadata s ∧
          counted_failure (address host port)
            (HostUnavailableError host port (ConnectionError cl)) s e s'.
Proof.
  intros (h & p & Hh & Hp & Hc) [cid Hcid] Hadm Hfault.
  destruct (bound_client pool task_id s h p host port cl Hh Hp Hc) as (Hg1 & Hg2 & Hg3).
  destruct (get_circuit_breaker (address host port) s) as (s2 & Hg & Ho & Hb).
  destruct (translating_call (address host port)
              (container_id ← getitem "container_id";
               containers_get cl (fmt container_id)) host port cl s2)
    as (e & s' & Hcall & Hmeta & Hcnt).
  { rewrite <- Hadm. apply admits_ext; [apply Hb | apply Ho | apply Ho]. }
  { intros s0 Ho0.
    assert (metadata s0 !! "container_id" = Some cid) as Hcid0.
    { destruct Ho0 as (-> & _). destruct Ho as (-> & _). done. }
    rewrite (bind_ret _ _ _ _ _ (getitem_spec _ _ _ Hcid0)).
    destruct (containers_get_refused cl (fmt cid) mret s0) as (s1 & Hr & ?).
    { destruct Ho0 as (_ & _ & -> & _). destruct Ho as (_ & _ & -> & _). done. }
    exists s1. split; [|done].
    unfold mbind, M_bind in Hr. by destruct (containers_get cl (fmt cid) s0) as [[?|?] ?]. }
  exists e, s'. split; [|split].
  - unfold get_result.
    rewrite (bind_ret _ _ _ _ _ Hg1), (bind_ret _ _ _ _ _ Hg2), (bind_ret _ _ _ _ _ Hg3).
    rewrite (bind_ret _ _ _ _ _ Hg). apply bind_raise. exact Hcall.
  - rewrite Hmeta. apply Ho.
  - apply (counted_failure_ext _ _ s2); [apply Hb | apply Ho | done].
Qed.

Lemma get_streaming_logs_refused pool task_id s host port cl :
  bound_to pool s host port cl →
  is_Some (metadata s !! "container_id") →
  head (faults s) = Some Refused →
  ∃ s', get_streaming_logs pool task_id s
          = (Raise (HostUnavailableError host port (ConnectionError cl)), s') ∧
        circuits s' = circuits s ∧ metadata s' = metadata s.
Proof.
  intros (h & p & Hh & Hp & Hc) [cid Hcid] Hfault.
  destruct (bound_client pool task_id s h p host port cl Hh Hp Hc) as (Hg1 & Hg2 & Hg3).
  eexists. split.
  - unfold get_streaming_logs.
    rewrite (bind_ret _ _ _ _ _ Hg1), (bind_ret _ _ _ _ _ Hg2), (bind_ret _ _ _ _ _ Hg3).
    rewrite (bind_ret _ _ _ _ _ (getitem_spec _ _ _ Hcid)).
    apply translating_handler. apply bind_raise.
    unfold containers_get. by apply engine_call_refused.
  - done.
Qed.

Lemma mark_as_done_refused pool task_id s host port cl :
  bound_to pool s host port cl →
  is_Some (metadata s !! "container_id") →
  head (faults s) = Some Refused →
  ∃ s', mark_as_done pool task_id s
          = (Raise (HostUnavailableError host port (ConnectionError cl)), s') ∧
        circuits s' = circuits s ∧ metadata s' = metadata s.
Proof.
  intros (h & p & Hh & Hp & Hc) [cid Hcid] Hfault.
  destruct (bound_client pool task_id s h p host port cl Hh Hp Hc) as (Hg1 & Hg2 & Hg3).
  eexists. split.
  - unfold mark_as_done.
    rewrite (bind_ret _ _ _ _ _ Hg1), (bind_ret _ _ _ _ _ Hg2), (bind_ret _ _ _ _ _ Hg3).
    rewrite (bind_ret _ _ _ _ _ (getitem_spec _ _ _ Hcid)).
    apply translating_handler. apply bind_raise.
    unfold containers_get. by apply engine_call_refused.
  - done.
Qed.

(** [get_current_logs] has no [except] clause and calls no breaker: the
    connection error itself is raised. *)
Lemma get_current_logs_refused pool task_id s host port cl :
  bound_to pool s host port cl →
  is_Some (metadata s !! "container_id") →
  head (faults s) = Some Refused →
  ∃ s', get_current_logs pool task_id s = (Raise (ConnectionError cl), s') ∧
        circuits s' = circuits s ∧ metadata s' = metadata s.
Proof.
  intros (h & p & Hh & Hp & Hc) [cid Hcid] Hfault.
  destruct (bound_client pool task_id s h p host port cl Hh Hp Hc) as (Hg1 & Hg2 & Hg3).
  eexists. split.
  - unfold get_current_logs.
    rewrite (bind_ret _ _ _ _ _ Hg1), (bind_ret _ _ _ _ _ Hg2), (bind_ret _ _ _ _ _ Hg3).
    rewrite (bind_ret _ _ _ _ _ (getitem_spec _ _ _ Hcid)).
    apply bind_raise. unfold containers_get. by apply engine_call_refused.
  - done.
Qed.

(** ** A reachable host answers *)

Lemma calm_only_circuits n s s' : only_circuits s s' → calm n s' = calm n s.
Proof. intros (_ & _ & Hf & _). unfold calm. by rewrite Hf. Qed.

Lemma containers_get_calm cl cid s n cs c :
  calm (S n) s = true →
  engines s !! cl = Some cs →
  find (has_id cid) cs = Some c →
  ∃ s', containers_get cl cid s = (Ret c, s') ∧
        engines s' !! cl = Some cs ∧ metadata s' = metadata s ∧
        circuits s' = circuits s ∧ calm n s' = true.
Proof.
  intros Hcalm He Hfind. unfold containers_get.
  destruct (engine_call_calm cl
              (λ cs, match find (has_id cid) cs with
                     | Some c => (Ret c, cs)
                     | None => (Raise (NotFound cid), cs)
                     end) s n cs (Ret c) cs Hcalm He)
    as (s' & Hcall & He' & Hm & Hc & _ & _ & _ & Hcalm'); [by rewrite Hfind|].
  exists s'. split; [done|]. split; [|done]. rewrite He'. apply lookup_insert_eq.
Qed.

Lemma container_logs_calm cl cid stdout stderr s n cs c :
  calm (S n) s = true →
  engines s !! cl = Some cs →
  find (has_id cid) cs = Some c →
  ∃ s', container_logs cl cid stdout stderr s = (Ret (log_bytes stdout stderr c), s') ∧
        engines s' !! cl = Some cs ∧ metadata s' = metadata s ∧
        circuits s' = circuits s ∧ calm n s' = true.
Proof.
  intros Hcalm He Hfind. unfold container_logs, on_container.
  destruct (engine_call_calm cl
              (λ cs, match find (has_id cid) cs with
                     | Some c => (Ret (log_bytes stdout stderr c), cs)
                     | None => (Raise (NotFound cid), cs)
                     end) s n cs (Ret (log_bytes stdout stderr c)) cs Hcalm He)
    as (s' & Hcall & He' & Hm & Hc & _ & _ & _ & Hcalm'); [by rewrite Hfind|].
  exists s'. split; [done|]. split; [|done]. rewrite He'. apply lookup_insert_eq.
Qed.

(** A call through a breaker that admits it, of a function that returns. *)
Lemma circuit_call_success {A} c (func : M A) s :
  admits c s = true →
  ∃ s0, only_circuits s s0 ∧
        ∀ a s1, func s0 = (Ret a, s1) →
                ∃ s', circuit_call c func s = (Ret a, s') ∧ only_circuits s1 s'.
Proof.
  intros Hadm. unfold admits in Hadm.
  unfold circuit_call, read_breaker, get_state, mbind at 1 2, M_bind at 1 2.
  fold (breaker_of c s).
  destruct (b_state (breaker_of c s)).
  - exists s. split; [apply only_circuits_refl|]. intros a s1 Hf.
    unfold guarded_call. rewrite Hf.
    destruct (handle_success_only c false s1) as (s2 & Hs & Ho).
    exists s2. by rewrite (bind_ret _ _ _ _ _ Hs).
  - destruct (still_open _ _ _); [discriminate|].
    exists (set_circuits
              (insert c {| b_state := half_open;
                           fail_counter := fail_counter (breaker_of c s);
                           opened_at := opened_at (breaker_of c s) |}) s).
    split; [apply only_circuits_set|]. intros a s1 Hf.
    unfold breaker_half_open, read_breaker, write_breaker, modify,
      mbind at 1 2, M_bind at 1 2.
    fold (breaker_of c s). unfold guarded_call. rewrite Hf.
    destruct (handle_success_only c true s1) as (s2 & Hs & Ho).
    exists s2. by rewrite (bind_ret _ _ _ _ _ Hs).
  - exists s. split; [apply only_circuits_refl|]. intros a s1 Hf.
    unfold guarded_call. rewrite Hf.
    destruct (handle_success_only c true s1) as (s2 & Hs & Ho).
    exists s2. by rewrite (bind_ret _ _ _ _ _ Hs).
Qed.

(** [get_result] returns a result when the bound host is reachable, its
    breaker admits the call, the container exists and its timestamps
    parse. *)
Lemma get_result_returns pool task_id s host port cl cid cs c d1 d2 :
  bound_to pool s host port cl →
  metadata s !! "container_id" = Some cid →
  engines s !! cl = Some cs →
  find (has_id (fmt cid)) cs = Some c →
  parse (c_started_at c) = Some d1 →
  parse (c_finished_at c) = Some d2 →
  admits (address host port) s = true →
  calm 3 s = true →
  ∃ r s', get_result pool task_id s = (Ret r, s').
Proof.
  intros (h & p & Hh & Hp & Hc) Hcid He Hfind Hd1 Hd2 Hadm Hcalm.
  destruct (bound_client pool task_id s h p host port cl Hh Hp Hc) as (Hg1 & Hg2 & Hg3).
  destruct (get_circuit_breaker (address host port) s) as (s2 & Hg & Ho & Hb).
  destruct (circuit_call_success (address host port) (get_result_run host port cl) s2)
    as (s0 & Ho0 & Hcall).
  { rewrite <- Hadm. apply admits_ext; [apply Hb | apply Ho | apply Ho]. }
  pose proof (only_circuits_trans _ _ _ Ho Ho0) as Hos.
  destruct (containers_get_calm cl (fmt cid) s0 2 cs c)
    as (s1 & Hget & He1 & Hm1 & _ & Hcalm1).
  { by rewrite (calm_only_circuits _ _ _ Hos). }
  { destruct Hos as (_ & -> & _). done. }
  { done. }
  assert (metadata s0 !! "container_id" = Some cid) as Hcid0.
  { destruct Hos as (-> & _). done. }
  destruct (Hcall c s1) as (s3 & Hcc & Ho3).
  { unfold get_result_run, try_except.
    rewrite (bind_ret _ _ _ _ _ (getitem_spec _ _ _ Hcid0)). by rewrite Hget. }
  assert (metadata s3 !! "container_id" = Some cid) as Hcid3.
  { destruct Ho3 as (-> & _). by rewrite Hm1. }
  assert (engines s3 !! cl = Some cs) as He3.
  { destruct Ho3 as (_ & -> & _). done. }
  assert (calm 2 s3 = true) as Hcalm3.
  { by rewrite (calm_only_circuits _ _ _ Ho3). }
  pose proof (find_has_id _ _ _ Hfind) as Hid. rewrite <- Hid in Hfind.
  unfold get_result.
  rewrite (bind_ret _ _ _ _ _ Hg1), (bind_ret _ _ _ _ _ Hg2), (bind_ret _ _ _ _ _ Hg3).
  rewrite (bind_ret _ _ _ _ _ Hg), (bind_ret _ _ _ _ _ Hcc).
  rewrite (bind_ret _ _ _ _ _ (getitem_spec _ _ _ Hcid3)).
  unfold convert_date. rewrite Hd1, Hd2.
  unfold mbind at 1, M_bind at 1, mret at 1, M_ret at 1.
  destruct (finished (result_status (c_status c))); [|by eauto].
  unfold mbind at 1, M_bind at 1, mret at 1, M_ret at 1.
  destruct (container_logs_calm cl (c_id c) true false s3 1 cs c Hcalm3 He3 Hfind)
    as (s4 & Hl1 & He4 & _ & _ & Hcalm4).
  rewrite (bind_ret _ _ _ _ _ Hl1).
  destruct (container_logs_calm cl (c_id c) false true s4 0 cs c Hcalm4 He4 Hfind)
    as (s5 & Hl2 & _).
  destruct (bool_decide (c_error c ≠ EmptyString));
    unfold mbind at 1 2, M_bind at 1 2; rewrite Hl2; by eauto.
Qed.

(** ** How selection can fail *)

Lemma ps_result client s r s' :
  ps client s = (r, s') →
  circuits s' = circuits s ∧
  (r = Ret tt ∨ r = Raise (ConnectionError client) ∨ ∃ m, r = Raise (APIError m)).
Proof.
  unfold ps, containers_list, engine_call, mbind, M_bind, mret, M_ret. simpl.
  destruct (head (faults s)) as [[| |m]|]; intros [= <- <-]; split; eauto.
Qed.

(** An exception that leaves a breaker call and is not a
    [CircuitBreakerError] comes from the function called, and leaves the
    breaker closed. *)
Lemma circuit_call_raise_inv {A} c (func : M A) s e s' :
  (∀ s0 r s1, func s0 = (r, s1) → circuits s1 = circuits s0) →
  circuit_call c func s = (Raise e, s') →
  (∃ m, e = CircuitBreakerError m) ∨
  (b_state (breaker_of c s') = closed ∧ ∃ s0 s1, func s0 = (Raise e, s1)).
Proof.
  intros Hkeep.
  unfold circuit_call, read_breaker, get_state, mbind at 1 2, M_bind at 1 2.
  fold (breaker_of c s).
  destruct (b_state (breaker_of c s)) eqn:Hst.
  - unfold guarded_call. destruct (func s) as [[a|e0] s1] eqn:Hf.
    + destruct (handle_success_only c false s1) as (s2 & Hs & _).
      rewrite (bind_ret _ _ _ _ _ Hs). discriminate.
    + pose proof (Hkeep _ _ _ Hf) as Hc.
      unfold handle_error, read_breaker, write_breaker, breaker_open, get_state, modify,
        raise, mbind, M_bind. simpl. fold (breaker_of c s1).
      assert (breaker_of c s1 = breaker_of c s) as Hb by (unfold breaker_of; by rewrite Hc).
      rewrite Hb. case_decide.
      * intros [= <- <-]. left. eauto.
      * intros [= <- <-]. right. split; [|eauto].
        rewrite breaker_of_insert. simpl. exact Hst.
  - destruct (still_open _ _ _); [intros [= <- <-]; left; eauto|].
    unfold breaker_half_open, read_breaker, write_breaker, modify,
      mbind at 1 2, M_bind at 1 2.
    unfold guarded_call. destruct (func _) as [[a|e0] s1] eqn:Hf.
    + destruct (handle_success_only c true s1) as (s2 & Hs & _).
      rewrite (bind_ret _ _ _ _ _ Hs). discriminate.
    + intros [= <- <-]. left. eauto.
  - unfold guarded_call. destruct (func s) as [[a|e0] s1] eqn:Hf.
    + destruct (handle_success_only c true s1) as (s2 & Hs & _).
      rewrite (bind_ret _ _ _ _ _ Hs). discriminate.
    + intros [= <- <-]. left. eauto.
Qed.

(** [refresh_circuits] raises only what a probe raised while its breaker
    stayed closed: a connection error or an engine error of a host that is
    not blacklisted. *)
Lemma refresh_circuits_raise_inv cls bl s e s' :
  refresh_circuits cls bl s = (Raise e, s') →
  ∃ host port cl,
    (host, port, cl) ∈ cls ∧ (address host port ∉ bl) ∧
    breaker_state (address host port) s' = closed ∧
    (e = ConnectionError cl ∨ ∃ m, e = APIError m).
Proof.
  revert s. induction cls as [|[[host port] cl] rest IH]; intros s; simpl.
  - discriminate.
  - destruct (decide (address host port ∈ bl)) as [Hin|Hnin].
    + intros H. destruct (IH _ H) as (h & p & c & Hc & ?).
      exists h, p, c. split; [by right | done].
    + unfold mbind at 1, M_bind at 1, try_except.
      destruct (get_circuit_only (address host port) s) as (s1 & Hg & _).
      rewrite (bind_ret _ _ _ _ _ Hg).
      destruct (circuit_call (address host port) (ps cl) s1) as [[[]|e0] s2] eqn:Hcall.
      * intros H. destruct (IH _ H) as (h & p & c & Hc & ?).
        exists h, p, c. split; [by right | done].
      * apply circuit_call_raise_inv in Hcall;
          [|intros s0 r0 s3 Hps; by apply ps_result in Hps as [? _]].
        destruct Hcall as [[m ->] | (Hclosed & s0 & s3 & Hps)].
        -- simpl. intros H. destruct (IH _ H) as (h & p & c & Hc & ?).
           exists h, p, c. split; [by right | done].
        -- apply ps_result in Hps as [_ [Hr | [Hr | [m Hr]]]];
             [discriminate | injection Hr as -> | injection Hr as ->];
             simpl; intros [= <- <-]; exists host, port, cl;
             (split; [by left|]); (split; [done|]); (split; [exact Hclosed|]); eauto.
Qed.

(** Selection fails in one of two ways: every farm was passed over and
    [RuntimeError] is raised, or the probe of a host raised while its
    breaker stayed closed, and that error leaves [get_client]. *)
Lemma select_client_raise_inv farms task_id bl s e s' :
  select_client farms task_id bl s = (Raise e, s') →
  (e = RuntimeError (no_host_msg task_id) ∧ passed_over farms task_id bl s = Some s') ∨
  (∃ regex cls host port cl,
     (regex, cls) ∈ farms ∧ farm_skipped regex task_id = false ∧
     (host, port, cl) ∈ cls ∧ (address host port ∉ bl) ∧
     breaker_state (address host port) s' = closed ∧
     (e = ConnectionError cl ∨ ∃ m, e = APIError m)).
Proof.
  revert s. induction farms as [|[regex cls] farms IH]; intros s; simpl.
  - intros [= <- <-]. by left.
  - destruct (farm_skipped regex task_id) eqn:Hskip.
    + intros H. destruct (IH _ H) as [?|(r & c & h & p & k & Hin & ?)]; [by left|].
      right. exists r, c, h, p, k. split; [by right | done].
    + destruct (refresh_circuits cls bl s) as [[[]|e0] s1] eqn:Hr.
      * rewrite (bind_ret _ _ _ _ _ Hr).
        destruct (filter_clients_spec cls bl s1) as (s2 & Hf & _).
        rewrite (bind_ret _ _ _ _ _ Hf), Hf.
        destruct (List.filter (eligible bl s1) cls) as [|x l] eqn:Hl.
        -- intros H. destruct (IH _ H) as [?|(r & c & h & p & k & Hin & ?)]; [by left|].
           right. exists r, c, h, p, k. split; [by right | done].
        -- destruct (random_choice_total (x :: l) s2 ltac:(done)) as [[[h p] k] Hc].
           rewrite (bind_ret _ _ _ _ _ Hc). discriminate.
      * rewrite (bind_raise _ _ _ _ _ Hr). intros [= <- <-].
        apply refresh_circuits_raise_inv in Hr as (h & p & k & ? & ? & ? & ?).
        right. exists regex, cls, h, p, k. split; [by left | done].
Qed.

(** Whenever selection fails with anything but that [RuntimeError], a host
    of a matching farm is eligible in the state reached: it is not
    blacklisted and its breaker is closed. *)
Lemma selection_failure_cases pool task_id host port blacklist s e s' :
  host = None ∨ port = None →
  get_client pool task_id host port blacklist s = (Raise e, s') →
  (e = RuntimeError (no_host_msg task_id) ∧
   passed_over (clients_per_regex pool) task_id (default ∅ blacklist) s = Some s') ∨
  (∃ regex cls c,
     (regex, cls) ∈ clients_per_regex pool ∧ farm_skipped regex task_id = false ∧
     c ∈ cls ∧ eligible (default ∅ blacklist) s' c = true ∧
     (e = ConnectionError (c.2) ∨ ∃ m, e = APIError m)).
Proof.
  intros Hsel Hget.
  assert (select_client (clients_per_regex pool) task_id (default ∅ blacklist) s
          = (Raise e, s')) as H.
  { unfold get_client in Hget.
    destruct Hsel as [-> | ->]; [|destruct host];
      unfold mbind, M_bind in Hget;
      by destruct (select_client _ _ _ s) as [[?|?] ?]; simplify_eq. }
  apply select_client_raise_inv in H
    as [?|(regex & cls & h & p & cl & ? & ? & ? & Hbl & Hst & He)]; [by left|].
  right. exists regex, cls, (h, p, cl). split; [done|]. split; [done|]. split; [done|].
  split; [|done]. unfold eligible.
  by rewrite (bool_decide_eq_true_2 _ Hbl), (bool_decide_eq_true_2 _ Hst).
Qed.

(** ** The binding after a connection failure *)

(** C3, as amended. When the request that [update_image] or [run] makes to
    the docker host (the pull, the start of the container) is refused,
    the method raises and [docker_host] and [docker_port] are absent from
    the binding afterwards, whether [run] found the host in the binding or
    selected it. [stop_job], [get_result], [get_current_logs],
    [get_streaming_logs] and [mark_as_done] never change the binding,
    whatever happens. *)
Theorem connection_failure_clears_binding_of_update_image_and_run pool task_id :
  (∀ image tag bl s host port cl s1,
     (get_client pool task_id None None (Some (default (blacklisted s) bl)) ≫= unpack) s
       = (Ret (host, port, cl), s1) →
     head (faults s1) = Some Refused →
     ∃ e s', update_image pool task_id image tag bl s = (Raise e, s') ∧ unbound s') ∧
  (∀ execution_id image tag command envs bl s host port cl,
     bound_to pool s host port cl →
     admits (address host port) s = true →
     head (faults s) = Some Refused →
     ∃ e s', run pool task_id execution_id image tag command envs bl s = (Raise e, s') ∧
             unbound s') ∧
  (∀ execution_id image tag command envs bl s host port cl s1,
     metadata s !! "docker_host" = None →
     (get_client pool task_id None None (Some (default (blacklisted s) bl)) ≫= unpack) s
       = (Ret (host, port, cl), s1) →
     head (faults s1) = Some Refused →
     ∃ e s', run pool task_id execution_id image tag command envs bl s = (Raise e, s') ∧
             unbound s') ∧
  keeps_metadata (stop_job pool task_id) ∧
  keeps_metadata (get_result pool task_id) ∧
  keeps_metadata (get_current_logs pool task_id) ∧
  keeps_metadata (get_streaming_logs pool task_id) ∧
  keeps_metadata (mark_as_done pool task_id).
Proof.
  split; [|split; [|split]].
  - intros image tag bl s host port cl s1 Hsel Hfault.
    destruct (update_image_refused pool task_id image tag bl s host port cl s1 Hsel Hfault)
      as (e & s' & ? & ? & _). eauto.
  - intros execution_id image tag command envs bl s host port cl Hb Hadm Hfault.
    destruct (run_bound_refused pool task_id execution_id image tag command envs bl
                s host port cl Hb Hadm Hfault) as (e & s' & ? & ? & _). eauto.
  - intros execution_id image tag command envs bl s host port cl s1 Hnone Hsel Hfault.
    destruct (run_unbound_refused pool task_id execution_id image tag command envs bl
                s host port cl s1 Hnone Hsel Hfault) as (e & s' & ? & ? & _). eauto.
  - split; [apply stop_job_keeps_metadata|].
    split; [apply get_result_keeps_metadata|].
    split; [apply get_current_logs_keeps_metadata|].
    split; [apply get_streaming_logs_keeps_metadata | apply mark_as_done_keeps_metadata].
Qed.

(** ** How a connection failure reaches the caller *)

(** C4, as amended. [update_image], [run], [stop_job] and [get_result] make
    their request to the docker host (the pull, the start of the container,
    the lookup of the container) inside a call through the breaker of
    [f"{host}:{port}"]: when the request is refused, the breaker counts the
    failure and the caller receives [HostUnavailableError(host, port, err)],
    or [CircuitBreakerError] when that failure opens the breaker.
    [get_streaming_logs] and [mark_as_done] raise
    [HostUnavailableError(host, port, err)] too, but call the host directly:
    no breaker is touched. *)
Theorem connection_failure_reaches_caller pool task_id :
  (∀ image tag bl s host port cl s1,
     (get_client pool task_id None None (Some (default (blacklisted s) bl)) ≫= unpack) s
       = (Ret (host, port, cl), s1) →
     head (faults s1) = Some Refused →
     ∃ e s', update_image pool task_id image tag bl s = (Raise e, s') ∧
             counted_failure (address host port)
               (HostUnavailableError host port (ConnectionError cl)) s1 e s') ∧
  (∀ s host port cl,
     bound_to pool s host port cl →
     head (faults s) = Some Refused →
     (admits (address host port) s = true →
      (∀ execution_id image tag command envs bl,
         ∃ e s', run pool task_id execution_id image tag command envs bl s = (Raise e, s') ∧
                 counted_failure (address host port)
                   (HostUnavailableError host port (ConnectionError cl)) s e s') ∧
      (is_Some (metadata s !! "container_id") →
       (∃ e s', stop_job pool task_id s = (Raise e, s') ∧
                counted_failure (address host port)
                  (HostUnavailableError host port (ConnectionError cl)) s e s') ∧
       (∃ e s', get_result pool task_id s = (Raise e, s') ∧
                counted_failure (address host port)
                  (HostUnavailableError host port (ConnectionError cl)) s e s'))) ∧
     (is_Some (metadata s !! "container_id") →
      (∃ s', get_streaming_logs pool task_id s
               = (Raise (HostUnavailableError host port (ConnectionError cl)), s') ∧
             circuits s' = circuits s) ∧
      (∃ s', mark_as_done pool task_id s
               = (Raise (HostUnavailableError host port (ConnectionError cl)), s') ∧
             circuits s' = circuits s))).
Proof.
  split.
  - intros image tag bl s host port cl s1 Hsel Hfault.
    destruct (update_image_refused pool task_id image tag bl s host port cl s1 Hsel Hfault)
      as (e & s' & ? & _ & ?). eauto.
  - intros s host port cl Hb Hfault. split.
    + intros Hadm. split.
      * intros execution_id image tag command envs bl.
        destruct (run_bound_refused pool task_id execution_id image tag command envs bl
                    s host port cl Hb Hadm Hfault) as (e & s' & ? & _ & ?). eauto.
      * intros Hcid. split.
        -- destruct (stop_job_refused pool task_id s host port cl Hb Hcid Hadm Hfault)
             as (e & s' & ? & _ & ?). eauto.
        -- destruct (get_result_refused pool task_id s host port cl Hb Hcid Hadm Hfault)
             as (e & s' & ? & _ & ?). eauto.
    + intros Hcid. split.
      * destruct (get_streaming_logs_refused pool task_id s host port cl Hb Hcid Hfault)
          as (s' & ? & ? & _). eauto.
      * destruct (mark_as_done_refused pool task_id s host port cl Hb Hcid Hfault)
          as (s' & ? & ? & _). eauto.
Qed.

(** * Further properties *)

(** ** The blacklist endpoints *)

Lemma get_details_state req s r s' : get_details req s = (r, s') → s' = s.
Proof.
  unfold get_details.
  destruct (req_json req); try (by intros [= <- <-]).
  destruct (req_data req); [by intros [= <- <-]|].
  by destruct (loads _); intros [= <- <-].
Qed.

Lemma host_in_state data s r s' : host_in data s = (r, s') → s' = s.
Proof. by destruct data; intros [= <- <-]. Qed.

Lemma host_of_state data s r s' : host_of data s = (r, s') → s' = s.
Proof.
  destruct data; try (by intros [= <- <-]).
  simpl. by destruct (dict_get d "host"); intros [= <- <-].
Qed.

Lemma member_of_state host s r s' : member_of host s = (r, s') → s' = s.
Proof. unfold member_of. by destruct (redis_member host); intros [= <- <-]. Qed.

(** The body of a request that gets past both checks of a handler and
    yields a member for the store: an object with a [host] key whose value
    the store's client accepts. *)
Lemma accepted_body data s present host member :
  no_body data = false →
  host_in data s = (Ret present, s) → present = true →
  host_of data s = (Ret host, s) →
  member_of host s = (Ret member, s) →
  ∃ d, data = JObj d ∧ dict_get d "host" = Some host ∧ redis_member host = Some member.
Proof.
  intros _ _ _ Hof Hm. destruct data; try discriminate.
  exists d. simpl in Hof. destruct (dict_get d "host") as [v|]; [|discriminate].
  injection Hof as ->. unfold member_of in Hm.
  destruct (redis_member host); [|discriminate]. by injection Hm as ->.
Qed.

(** X1. A request whose body is a JSON object with a [host] key, the value
    of which the store's client writes as [member], is answered by
    [add_to_blacklist] with status 200 and an empty body; [member] is added
    to the blacklist, the next [get_blacklisted_hosts] returns it, and
    nothing else changes. *)
Theorem add_to_blacklist_adds_member req s d host member :
  get_details req s = (Ret (JObj d), s) →
  dict_get d "host" = Some host →
  redis_member host = Some member →
  ∃ s', add_to_blacklist req s = (Ret (EmptyString, 200), s') ∧
        blacklisted s' = {[member]} ∪ blacklisted s ∧
        only_blacklist s s' ∧
        fst (get_blacklisted_hosts s') = Ret ({[member]} ∪ blacklisted s).
Proof.
  intros Hd Hhost Hm. eexists. split.
  - unfold add_to_blacklist. rewrite (bind_ret _ _ _ _ _ Hd). simpl.
    unfold mbind, M_bind, mret, M_ret, member_of.
    repeat (rewrite ?Hhost, ?Hm; simpl). reflexivity.
  - simpl. by repeat split.
Qed.

(** X2. A request with no body, with the empty string as body, or with an
    object that has no [host] key is answered with status 400 by both
    endpoints, and the state is left as it is. *)
Theorem blacklist_endpoints_reject_missing_host req s data :
  get_details req s = (Ret data, s) →
  data = JNull ∨ data = JStr EmptyString ∨ (∃ d, data = JObj d ∧ dict_get d "host" = None) →
  (∃ msg, add_to_blacklist req s = (Ret (msg, 400), s)) ∧
  (∃ msg, remove_from_blacklist req s = (Ret (msg, 400), s)).
Proof.
  intros Hd Hcase. unfold add_to_blacklist, remove_from_blacklist.
  rewrite !(bind_ret _ _ _ _ _ Hd).
  destruct Hcase as [-> | [-> | (d & -> & Hnone)]]; simpl.
  - split; eexists; reflexivity.
  - split; eexists; reflexivity.
  - unfold mbind, M_bind, mret, M_ret. rewrite Hnone.
    rewrite bool_decide_eq_false_2 by (intros [? [=]]). simpl.
    split; eexists; reflexivity.
Qed.

(** X3. Whatever the request, [add_to_blacklist] either answers 200 with an
    empty body for an object body with a [host] key, having added one member
    to the blacklist and changed nothing else, or leaves the state as it is
    and does not answer 200. The same holds for [remove_from_blacklist],
    which removes the member. In particular a body that is a string, a list
    or a number is never accepted. *)
Theorem blacklist_endpoints_change_one_member_or_nothing req s :
  (∀ r s', add_to_blacklist req s = (r, s') →
     (s' = s ∧ ∀ body, r ≠ Ret (body, 200)) ∨
     (∃ d host member,
        get_details req s = (Ret (JObj d), s) ∧ dict_get d "host" = Some host ∧
        redis_member host = Some member ∧ r = Ret (EmptyString, 200) ∧
        blacklisted s' = {[member]} ∪ blacklisted s ∧ only_blacklist s s')) ∧
  (∀ r s', remove_from_blacklist req s = (r, s') →
     (s' = s ∧ ∀ body, r ≠ Ret (body, 200)) ∨
     (∃ d host member,
        get_details req s = (Ret (JObj d), s) ∧ dict_get d "host" = Some host ∧
        redis_member host = Some member ∧ r = Ret (EmptyString, 200) ∧
        blacklisted s' = blacklisted s ∖ {[member]} ∧ only_blacklist s s')).
Proof.
  split; intros r s'; unfold add_to_blacklist, remove_from_blacklist;
    unfold mbind at 1, M_bind at 1;
    destruct (get_details req s) as [[data|e] s1] eqn:Hd;
    pose proof (get_details_state _ _ _ _ Hd) as ->;
    try (intros [= <- <-]; left; split; [done | intros body; discriminate]);
    (destruct (no_body data) eqn:Hnb;
      [intros [= <- <-]; left; split; [done | intros body; discriminate]|]);
    unfold mbind at 1, M_bind at 1;
    destruct (host_in data s) as [[present|e] s1] eqn:Hin;
    pose proof (host_in_state _ _ _ _ Hin) as ->;
    try (intros [= <- <-]; left; split; [done | intros body; discriminate]);
    (destruct present; simpl;
      [|intros [= <- <-]; left; split; [done | intros body; discriminate]]);
    unfold mbind at 1, M_bind at 1;
    destruct (host_of data s) as [[host|e] s1] eqn:Hof;
    pose proof (host_of_state _ _ _ _ Hof) as ->;
    try (intros [= <- <-]; left; split; [done | intros body; discriminate]);
    unfold mbind at 1, M_bind at 1;
    destruct (member_of host s) as [[member|e] s1] eqn:Hm;
    pose proof (member_of_state _ _ _ _ Hm) as ->;
    try (intros [= <- <-]; left; split; [done | intros body; discriminate]);
    destruct (accepted_body data s true host member Hnb Hin eq_refl Hof Hm)
      as (d & -> & Hhost & Hrm);
    intros [= <- <-]; right; exists d, host, member; simpl; by repeat split.
Qed.

(** X4. Adding a member and then removing it leaves the blacklist without
    it, whether or not it was listed before; removing it first and adding it
    then leaves it listed. Nothing else changes. *)
Theorem blacklist_add_then_remove req_add req_del s d host member :
  (∀ s0, get_details req_add s0 = (Ret (JObj d), s0)) →
  (∀ s0, get_details req_del s0 = (Ret (JObj d), s0)) →
  dict_get d "host" = Some host →
  redis_member host = Some member →
  (∃ s1 s2,
     add_to_blacklist req_add s = (Ret (EmptyString, 200), s1) ∧
     remove_from_blacklist req_del s1 = (Ret (EmptyString, 200), s2) ∧
     blacklisted s2 = blacklisted s ∖ {[member]} ∧ only_blacklist s s2) ∧
  (∃ s1 s2,
     remove_from_blacklist req_del s = (Ret (EmptyString, 200), s1) ∧
     add_to_blacklist req_add s1 = (Ret (EmptyString, 200), s2) ∧
     blacklisted s2 = {[member]} ∪ blacklisted s ∧ only_blacklist s s2).
Proof.
  intros Ha Hr Hhost Hm.
  assert (∀ s0, add_to_blacklist req_add s0 = (Ret (EmptyString, 200), snd (sadd member s0)))
    as Hadd.
  { intros s0. unfold add_to_blacklist. rewrite (bind_ret _ _ _ _ _ (Ha s0)). simpl.
    unfold mbind, M_bind, mret, M_ret, member_of.
    by repeat (rewrite ?Hhost, ?Hm; simpl). }
  assert (∀ s0, remove_from_blacklist req_del s0
                = (Ret (EmptyString, 200), snd (srem member s0))) as Hdel.
  { intros s0. unfold remove_from_blacklist. rewrite (bind_ret _ _ _ _ _ (Hr s0)). simpl.
    unfold mbind, M_bind, mret, M_ret, member_of.
    by repeat (rewrite ?Hhost, ?Hm; simpl). }
  split; do 2 eexists.
  - split; [apply Hadd|]. split; [apply Hdel|]. simpl. split; [|by repeat split].
    apply set_eq. intros x.
    rewrite !elem_of_difference, elem_of_union, elem_of_singleton.
    clear -x member s. tauto.
  - split; [apply Hdel|]. split; [apply Hadd|]. simpl. split; [|by repeat split].
    apply set_eq. intros x. rewrite !elem_of_union, elem_of_difference, elem_of_singleton.
    clear -x member s. destruct (decide (x = member)); tauto.
Qed.

(** ** update_image *)

Lemma keeps_random_choice {A} (l : list A) : keeps_metadata (random_choice l).
Proof.
  intros s r s'. unfold random_choice. by destruct (l !! _); intros [= <- <-].
Qed.

Lemma keeps_ps client : keeps_metadata (ps client).
Proof.
  unfold ps, containers_list.
  apply keeps_bind; [apply keeps_engine_call | intros ?; apply keeps_ret].
Qed.

Lemma keeps_refresh_circuits cls bl : keeps_metadata (refresh_circuits cls bl).
Proof.
  induction cls as [|[[host port] cl] rest IH]; simpl; [apply keeps_ret|].
  destruct (decide (address host port ∈ bl)); [done|].
  apply keeps_bind; [|by intros ?].
  apply keeps_try_except.
  - apply keeps_bind; [apply keeps_get_circuit|].
    intros c. apply keeps_circuit_call, keeps_ps.
  - intros e h He. destruct e; try discriminate. injection He as <-. apply keeps_ret.
Qed.

Lemma keeps_filter_clients cls bl : keeps_metadata (filter_clients cls bl).
Proof.
  intros s r s' H. destruct (filter_clients_spec cls bl s) as (s1 & Hf & _ & Hm & _).
  rewrite Hf in H. by injection H as <- <-.
Qed.

Lemma keeps_select_client farms task_id bl : keeps_metadata (select_client farms task_id bl).
Proof.
  induction farms as [|[regex cls] farms IH]; simpl; [apply keeps_raise|].
  destruct (farm_skipped regex task_id); [done|].
  apply keeps_bind; [apply keeps_refresh_circuits|]. intros _.
  apply keeps_bind; [apply keeps_filter_clients|]. intros [|x l]; [done|].
  apply keeps_bind; [apply keeps_random_choice|]. intros [[h p] c]. apply keeps_ret.
Qed.

Lemma keeps_selection pool task_id bl :
  keeps_metadata (get_client pool task_id None None bl ≫= unpack).
Proof.
  apply keeps_bind; [|apply keeps_unpack].
  unfold get_client. apply keeps_bind; [apply keeps_select_client | intros ?; apply keeps_ret].
Qed.

(** The farm and the client behind a selection. *)
Lemma selected_from_farm pool task_id bl s host port cl s' :
  (get_client pool task_id None None (Some bl) ≫= unpack) s = (Ret (host, port, cl), s') →
  ∃ regex cls,
    (regex, cls) ∈ clients_per_regex pool ∧ farm_skipped regex task_id = false ∧
    (host, port, cl) ∈ cls ∧ (address host port ∉ bl).
Proof.
  intros H. apply selected_client, select_client_ret in H
    as (pre & regex & cls & post & s0 & s1 & Hfarms & _ & Hm & _ & Hin & _).
  apply elem_of_eligible in Hin as (Hin & Hbl & _).
  exists regex, cls. split; [|done]. rewrite Hfarms.
  apply elem_of_app. right. by left.
Qed.

Lemma except_connection_error_clearing_raises {A} host port e h s1 (a : A) s2 :
  except_connection_error_clearing host port e = Some h → h s1 ≠ (Ret a, s2).
Proof.
  destruct e; try discriminate. intros [= <-].
  destruct (discard_spec "docker_host" s1) as (s3 & Hd1 & _).
  destruct (discard_spec "docker_port" s3) as (s4 & Hd2 & _).
  rewrite (bind_ret _ _ _ _ _ Hd1), (bind_ret _ _ _ _ _ Hd2). discriminate.
Qed.

(** What a returning [update_image] has done to the binding. *)
Lemma update_image_ret_inv pool task_id image tag bl s s' :
  update_image pool task_id image tag bl s = (Ret tt, s') →
  ∃ regex cls host port cl,
    (regex, cls) ∈ clients_per_regex pool ∧ farm_skipped regex task_id = false ∧
    (host, port, cl) ∈ cls ∧
    (address host port ∉ default (blacklisted s) bl) ∧
    metadata s' = <["docker_port" := PInt port]>
                    (<["docker_host" := PStr host]> (metadata s)).
Proof.
  unfold update_image. intros H.
  rewrite (bind_ret _ _ _ _ _ (blacklist_argument bl s)) in H.
  apply bind_ret_inv in H as ([[host port] cl] & s1 & Hsel & H).
  pose proof (keeps_selection _ _ _ _ _ _ Hsel) as Hm1.
  apply selected_from_farm in Hsel as (regex & cls & Hfarm & Hmatch & Hin & Hbl).
  apply bind_ret_inv in H as (c & s2 & Hg & H).
  pose proof (keeps_get_circuit _ _ _ _ Hg) as Hm2.
  apply circuit_call_ret_inv in H as (s3 & s4 & Ho3 & Hrun & Ho4).
  unfold update_image_run in Hrun.
  apply try_except_ret_inv in Hrun;
    [|intros e0 h0 s10 s20; apply except_connection_error_clearing_raises].
  apply bind_ret_inv in Hrun as ([] & s5 & Hpull & Hset).
  pose proof (keeps_engine_call _ _ _ _ _ Hpull) as Hm5.
  injection Hset as <-.
  exists regex, cls, host, port, cl. repeat (split; [done|]).
  destruct Ho4 as (-> & _). simpl. rewrite Hm5.
  destruct Ho3 as (-> & _). by rewrite Hm2, Hm1.
Qed.

(** X5. When [update_image] returns, the binding is the one it had with
    [docker_host] and [docker_port] set to the host and port of a client of
    a farm that matches the task id, and the address of that client is not
    in the blacklist used: the one supplied, or else the one of the store. *)
Theorem update_image_binds_eligible_host pool task_id image tag bl s s' :
  update_image pool task_id image tag bl s = (Ret tt, s') →
  ∃ regex cls host port cl,
    (regex, cls) ∈ clients_per_regex pool ∧
    (regex = None ∨ ∃ r, regex = Some r ∧ re_match r task_id = true) ∧
    (host, port, cl) ∈ cls ∧
    (address host port ∉ default (blacklisted s) bl) ∧
    metadata s' = <["docker_port" := PInt port]>
                    (<["docker_host" := PStr host]> (metadata s)).
Proof.
  intros H. apply update_image_ret_inv in H
    as (regex & cls & host & port & cl & ? & Hm & ? & ? & ?).
  exists regex, cls, host, port, cl. by rewrite <- farm_skipped_false.
Qed.

(** X6. Once a member has been added through [add_to_blacklist], an
    [update_image] that is given no blacklist of its own and returns has
    bound the execution to an address other than that member. *)
Theorem blacklisted_member_is_never_bound
    req s d host member r s1 pool task_id image tag s2 :
  get_details req s = (Ret (JObj d), s) →
  dict_get d "host" = Some host →
  redis_member host = Some member →
  add_to_blacklist req s = (r, s1) →
  update_image pool task_id image tag None s1 = (Ret tt, s2) →
  ∃ h p, metadata s2 !! "docker_host" = Some (PStr h) ∧
         metadata s2 !! "docker_port" = Some (PInt p) ∧
         address h p ≠ member.
Proof.
  intros Hd Hhost Hm Hadd Hupd.
  assert (member ∈ blacklisted s1) as Hin.
  { unfold add_to_blacklist in Hadd. rewrite (bind_ret _ _ _ _ _ Hd) in Hadd.
    simpl in Hadd. unfold mbind, M_bind, mret, M_ret, member_of in Hadd.
    repeat (rewrite ?Hhost, ?Hm in Hadd; simpl in Hadd).
    injection Hadd as _ <-. simpl. apply elem_of_union_l. by apply elem_of_singleton. }
  apply update_image_ret_inv in Hupd
    as (regex & cls & h & p & cl & _ & _ & _ & Hbl & Hmeta).
  exists h, p. rewrite Hmeta. split; [|split].
  - rewrite lookup_insert_ne by done. apply lookup_insert_eq.
  - apply lookup_insert_eq.
  - intros Heq. apply Hbl. simpl. by rewrite Heq.
Qed.

(** ** run *)

Lemma containers_run_calm cl image name command envs s n cs :
  calm (S n) s = true →
  engines s !! cl = Some cs →
  existsb (has_name name) cs = false →
  let c := {| c_id := pretty (next_id s); c_name := name; c_status := "running";
              c_exit_code := 0; c_error := EmptyString; c_started_at := pretty (now s);
              c_finished_at := EmptyString; c_frames := []; c_repo_tags := [image] |} in
  ∃ s', containers_run cl image name command envs s = (Ret c, s') ∧
        engines s' = <[cl := app cs [c]]> (engines s) ∧
        metadata s' = metadata s ∧ circuits s' = circuits s ∧ calm n s' = true.
Proof.
  intros Hcalm He Hfree c.
  destruct (engine_call_calm cl
              (λ cs, if existsb (has_name name) cs
                     then (Raise (APIError ("Conflict: " +:+ name)), cs)
                     else (Ret c, app cs [c]))
              (set_next_id (S (next_id s)) s) n cs (Ret c) (app cs [c]))
    as (s' & Hcall & He' & Hm & Hc & _ & _ & _ & Hcalm'); [done | done | by rewrite Hfree |].
  exists s'. split; [exact Hcall | done].
Qed.

(** X7. [run] on an execution that is bound to a host of the pool starts
    the container on that host whenever the host answers, its breaker lets
    the call through and the name is free, whatever the blacklist given and
    the blacklist of the store contain. The container is named
    [{job_prefix}-{execution_id}], its id is recorded as [container_id], and
    the rest of the binding stays. *)
Theorem run_on_bound_host_ignores_blacklist
    pool task_id execution_id image tag command envs bl s host port cl cs :
  bound_to pool s host port cl →
  admits (address host port) s = true →
  calm 1 s = true →
  engines s !! cl = Some cs →
  existsb (has_name (job_prefix +:+ "-" +:+ execution_id)) cs = false →
  ∃ c s',
    run pool task_id execution_id image tag command envs bl s = (Ret true, s') ∧
    c_name c = job_prefix +:+ "-" +:+ execution_id ∧
    c_status c = "running" ∧
    engines s' !! cl = Some (app cs [c]) ∧
    metadata s' = <["container_id" := PStr (c_id c)]> (metadata s).
Proof.
  intros (h & p & Hh & Hp & Hc) Hadm Hcalm He Hfree.
  destruct (bound_client pool task_id s h p host port cl Hh Hp Hc) as (Hg1 & Hg2 & Hg3).
  destruct (get_circuit_breaker (address host port) s) as (s2 & Hg & Ho & Hb).
  destruct (circuit_call_success (address host port)
              (run_run host port cl execution_id image tag command envs) s2)
    as (s0 & Ho0 & Hcall).
  { rewrite <- Hadm. apply admits_ext; [apply Hb | apply Ho | apply Ho]. }
  pose proof (only_circuits_trans _ _ _ Ho Ho0) as Hos.
  destruct (containers_run_calm cl (image +:+ ":" +:+ tag)
              (job_prefix +:+ "-" +:+ execution_id) command envs s0 0 cs)
    as (s1 & Hrun & He1 & Hm1 & _).
  { by rewrite (calm_only_circuits _ _ _ Hos). }
  { destruct Hos as (_ & -> & _). done. }
  { done. }
  destruct (Hcall tt (set_metadata
                        (insert "container_id" (PStr (pretty (next_id s0)))) s1))
    as (s3 & Hcc & Ho3).
  { unfold run_run, try_except. by rewrite (bind_ret _ _ _ _ _ Hrun). }
  assert (next_id s0 = next_id s ∧ now s0 = now s) as [Hid Hnow].
  { destruct Hos as (_ & _ & _ & _ & -> & -> & _). done. }
  rewrite Hid, Hnow in *.
  exists {| c_id := pretty (next_id s); c_name := job_prefix +:+ "-" +:+ execution_id;
            c_status := "running"; c_exit_code := 0; c_error := EmptyString;
            c_started_at := pretty (now s); c_finished_at := EmptyString;
            c_frames := []; c_repo_tags := [image +:+ ":" +:+ tag] |}, s3.
  split; [|split; [reflexivity|split; [reflexivity|]]].
  - unfold run.
    assert (contains "docker_host" s = (Ret true, s)) as Hin.
    { unfold contains. by rewrite bool_decide_eq_true_2 by eauto. }
    rewrite (bind_ret _ _ _ _ _ Hin).
    assert ((h ← getitem "docker_host"; p ← getitem "docker_port";
             get_client pool task_id (Some h) (Some p) None ≫= unpack) s
            = (Ret (host, port, cl), s)) as Hb3.
    { by rewrite (bind_ret _ _ _ _ _ Hg1), (bind_ret _ _ _ _ _ Hg2). }
    rewrite (bind_ret _ _ _ _ _ Hb3), (bind_ret _ _ _ _ _ Hg).
    by rewrite (bind_ret _ _ _ _ _ Hcc).
  - destruct Ho3 as (Hm3 & He3 & _). simpl in *. split.
    + rewrite He3, He1. by rewrite lookup_insert_eq.
    + rewrite Hm3, Hm1. destruct Hos as (-> & _). done.
Qed.

Lemma engine_call_failing {A} cl (f : list container → result A * list container) s msg :
  head (faults s) = Some (Failing msg) →
  engine_call cl f s = (Raise (APIError msg), set_faults (tail (faults s)) s).
Proof. intros H. unfold engine_call. by rewrite H. Qed.

(** A decorated function of [update_image] or [run] whose request the
    engine answers with an error: the error passes the [except] clause. *)
Lemma engine_error_call {A} c (m : M A) host port msg s :
  admits c s = true →
  (∀ s0, only_circuits s s0 →
     ∃ s1, m s0 = (Raise (APIError msg), s1) ∧
           circuits s1 = circuits s0 ∧ fail_max s1 = fail_max s0 ∧
           metadata s1 = metadata s0) →
  ∃ e s',
    circuit_call c (try_except m (except_connection_error_clearing host port)) s
      = (Raise e, s') ∧
    metadata s' = metadata s ∧
    counted_failure c (APIError msg) s e s'.
Proof.
  intros Hadm Hm.
  destruct (circuit_call_failure c
              (try_except m (except_connection_error_clearing host port)) s
              (APIError msg) Hadm)
    as (s0 & s1 & e' & s' & Hcall & Ho & Hf & Ho' & Hcnt & He & Hcl).
  { intros s0 Ho. destruct (Hm s0 Ho) as (s1 & Hms & Hc & Hfm & _).
    exists s1. unfold try_except. by rewrite Hms. }
  exists e', s'. split; [done|]. split.
  - destruct (Hm s0 Ho) as (s1' & Hms & _ & _ & Hmeta).
    unfold try_except in Hf. rewrite Hms in Hf. simpl in Hf. injection Hf as <-.
    destruct Ho' as [-> _]. rewrite Hmeta. apply Ho.
  - split; [done|]. split; [done|]. intros H1 H2. by destruct (Hcl H1 H2).
Qed.

(** X8. An error of the engine that is not a connection error (the pull of
    [update_image] or the start of [run] is answered with an error) is not
    caught by the [except] clause: the binding is neither set nor cleared,
    and the caller receives the engine's error, or [CircuitBreakerError]
    when the breaker, which counts this failure too, opens. *)
Theorem engine_error_keeps_binding pool task_id msg :
  (∀ image tag bl s host port cl s1,
     (get_client pool task_id None None (Some (default (blacklisted s) bl)) ≫= unpack) s
       = (Ret (host, port, cl), s1) →
     head (faults s1) = Some (Failing msg) →
     ∃ e s', update_image pool task_id image tag bl s = (Raise e, s') ∧
             metadata s' = metadata s ∧
             counted_failure (address host port) (APIError msg) s1 e s') ∧
  (∀ execution_id image tag command envs bl s host port cl,
     bound_to pool s host port cl →
     admits (address host port) s = true →
     head (faults s) = Some (Failing msg) →
     ∃ e s', run pool task_id execution_id image tag command envs bl s = (Raise e, s') ∧
             metadata s' = metadata s ∧
             counted_failure (address host port) (APIError msg) s e s').
Proof.
  split.
  - intros image tag bl s host port cl s1 Hsel Hfault.
    pose proof (selected_closed _ _ _ _ _ _ _ _ Hsel) as Hclosed.
    pose proof (keeps_selection _ _ _ _ _ _ Hsel) as Hm1.
    destruct (get_circuit_breaker (address host port) s1) as (s2 & Hg & Ho & Hb).
    destruct (engine_error_call (address host port)
                (images_pull cl image tag;;
                 setitem "docker_host" (PStr host);;
                 setitem "docker_port" (PInt port)) host port msg s2)
      as (e & s' & Hcall & Hmeta & Hcnt).
    { apply admits_closed. by rewrite Hb. }
    { intros s0 Ho0. eexists. split.
      - apply bind_raise. unfold images_pull. apply engine_call_failing.
        destruct Ho0 as (_ & _ & -> & _). destruct Ho as (_ & _ & -> & _). done.
      - done. }
    exists e, s'. split; [|split].
    + unfold update_image.
      rewrite (bind_ret _ _ _ _ _ (blacklist_argument bl s)).
      rewrite (bind_ret _ _ _ _ _ Hsel). by rewrite (bind_ret _ _ _ _ _ Hg).
    + rewrite Hmeta. destruct Ho as (-> & _). done.
    + apply (counted_failure_ext _ _ s2); [apply Hb | apply Ho | done].
  - intros execution_id image tag command envs bl s host port cl
      (h & p & Hh & Hp & Hc) Hadm Hfault.
    destruct (bound_client pool task_id s h p host port cl Hh Hp Hc) as (Hg1 & Hg2 & Hg3).
    destruct (get_circuit_breaker (address host port) s) as (s2 & Hg & Ho & Hb).
    destruct (engine_error_call (address host port)
                (container ← containers_run cl (image +:+ ":" +:+ tag)
                               (job_prefix +:+ "-" +:+ execution_id) command envs;
                 setitem "container_id" (PStr (c_id container))) host port msg s2)
      as (e & s' & Hcall & Hmeta & Hcnt).
    { rewrite <- Hadm. apply admits_ext; [apply Hb | apply Ho | apply Ho]. }
    { intros s0 Ho0. eexists. split.
      - apply bind_raise. unfold containers_run, get_state, modify, mbind, M_bind.
        apply engine_call_failing. simpl.
        destruct Ho0 as (_ & _ & -> & _). destruct Ho as (_ & _ & -> & _). done.
      - done. }
    exists e, s'. split; [|split].
    + unfold run.
      assert (contains "docker_host" s = (Ret true, s)) as Hin.
      { unfold contains. by rewrite bool_decide_eq_true_2 by eauto. }
      rewrite (bind_ret _ _ _ _ _ Hin).
      assert ((h ← getitem "docker_host"; p ← getitem "docker_port";
               get_client pool task_id (Some h) (Some p) None ≫= unpack) s
              = (Ret (host, port, cl), s)) as Hb3.
      { by rewrite (bind_ret _ _ _ _ _ Hg1), (bind_ret _ _ _ _ _ Hg2). }
      rewrite (bind_ret _ _ _ _ _ Hb3), (bind_ret _ _ _ _ _ Hg).
      apply bind_raise. exact Hcall.
    + rewrite Hmeta. apply Ho.
    + apply (counted_failure_ext _ _ s2); [apply Hb | apply Ho | done].
Qed.

(** ** stop_job and get_result on a host that answers *)

Lemma calm_le n m s : (m ≤ n)%nat → calm n s = true → calm m s = true.
Proof.
  unfold calm. intros Hle H. rewrite forallb_forall in *. intros f Hf.
  apply H. rewrite <- (firstn_skipn m (firstn n (faults s))).
  apply in_or_app. left. rewrite firstn_firstn. by replace (m `min` n)%nat with m by lia.
Qed.

(** A call through a breaker that admits it, of a function that returns
    and leaves the breakers alone: afterwards the breaker is closed. *)
Lemma circuit_call_closes {A} c (func : M A) s :
  admits c s = true →
  ∃ s0, only_circuits s s0 ∧
        ∀ a s1, func s0 = (Ret a, s1) → circuits s1 = circuits s0 →
                ∃ s', circuit_call c func s = (Ret a, s') ∧ only_circuits s1 s' ∧
                      b_state (breaker_of c s') = closed.
Proof.
  intros Hadm. unfold admits in Hadm.
  unfold circuit_call, read_breaker, get_state, mbind at 1 2, M_bind at 1 2.
  fold (breaker_of c s).
  destruct (b_state (breaker_of c s)) eqn:Hst.
  - exists s. split; [apply only_circuits_refl|]. intros a s1 Hf Hc.
    unfold guarded_call. rewrite Hf. eexists. split; [reflexivity|].
    split; [by repeat split|]. rewrite breaker_of_insert. simpl.
    unfold breaker_of in Hst. unfold read_breaker. simpl. by rewrite Hc.
  - destruct (still_open _ _ _); [discriminate|].
    exists (set_circuits
              (insert c {| b_state := half_open;
                           fail_counter := fail_counter (breaker_of c s);
                           opened_at := opened_at (breaker_of c s) |}) s).
    split; [apply only_circuits_set|]. intros a s1 Hf Hc.
    unfold breaker_half_open, read_breaker, write_breaker, modify,
      mbind at 1 2, M_bind at 1 2.
    fold (breaker_of c s). unfold guarded_call. rewrite Hf.
    eexists. split; [reflexivity|]. split; [by repeat split|].
    by rewrite breaker_of_insert.
  - exists s. split; [apply only_circuits_refl|]. intros a s1 Hf Hc.
    unfold guarded_call. rewrite Hf. eexists. split; [reflexivity|].
    split; [by repeat split|]. by rewrite breaker_of_insert.
Qed.

Lemma container_stop_calm cl cid s n cs c :
  calm (S n) s = true →
  engines s !! cl = Some cs →
  find (has_id cid) cs = Some c →
  ∃ s', container_stop cl cid s = (Ret tt, s') ∧
        engines s' !! cl = Some (update_container cid (with_status "exited") cs) ∧
        metadata s' = metadata s ∧ circuits s' = circuits s ∧ calm n s' = true.
Proof.
  intros Hcalm He Hfind. unfold container_stop, on_container.
  destruct (engine_call_calm cl
              (λ cs, match find (has_id cid) cs with
                     | Some c => (Ret tt, update_container cid (with_status "exited") cs)
                     | None => (Raise (NotFound cid), cs)
                     end) s n cs (Ret tt)
              (update_container cid (with_status "exited") cs) Hcalm He)
    as (s' & Hcall & He' & Hm & Hc & _ & _ & _ & Hcalm'); [by rewrite Hfind|].
  exists s'. split; [done|]. split; [|done]. rewrite He'. apply lookup_insert_eq.
Qed.

Lemma elem_of_update_container_other cid f cs c0 :
  c0 ∈ cs → c_id c0 ≠ cid → c0 ∈ update_container cid f cs.
Proof.
  intros Hin Hne. unfold update_container. apply list_elem_of_fmap.
  exists c0. split; [|done]. unfold has_id. by rewrite bool_decide_eq_false_2.
Qed.

(** X9. [stop_job] does nothing, and asks no host, for an execution without
    [container_id]. For an execution bound to a container of a host that
    answers and whose breaker lets the call through, it returns with that
    container's status set to exited; the containers with another id and
    the binding are as they were. *)
Theorem stop_job_stops_bound_container pool task_id s :
  (metadata s !! "container_id" = None → stop_job pool task_id s = (Ret tt, s)) ∧
  (∀ host port cl cid cs c,
     bound_to pool s host port cl →
     metadata s !! "container_id" = Some cid →
     engines s !! cl = Some cs →
     find (has_id (fmt cid)) cs = Some c →
     admits (address host port) s = true →
     calm 2 s = true →
     ∃ s' cs',
       stop_job pool task_id s = (Ret tt, s') ∧
       metadata s' = metadata s ∧
       engines s' !! cl = Some cs' ∧
       find (has_id (fmt cid)) cs' = Some (with_status "exited" c) ∧
       (∀ c0, c0 ∈ cs → c_id c0 ≠ fmt cid → c0 ∈ cs')).
Proof.
  split.
  - intros Hnone. unfold stop_job, contains, mbind, M_bind. rewrite Hnone.
    by rewrite bool_decide_eq_false_2 by (intros [? [=]]).
  - intros host port cl cid cs c (h & p & Hh & Hp & Hc) Hcid He Hfind Hadm Hcalm.
    destruct (bound_client pool task_id s h p host port cl Hh Hp Hc) as (Hg1 & Hg2 & Hg3).
    destruct (get_circuit_breaker (address host port) s) as (s2 & Hg & Ho & Hb).
    destruct (circuit_call_success (address host port) (stop_job_run host port cl) s2)
      as (s0 & Ho0 & Hcall).
    { rewrite <- Hadm. apply admits_ext; [apply Hb | apply Ho | apply Ho]. }
    pose proof (only_circuits_trans _ _ _ Ho Ho0) as Hos.
    destruct (containers_get_calm cl (fmt cid) s0 1 cs c)
      as (s1 & Hget & He1 & Hm1 & _ & Hcalm1).
    { by rewrite (calm_only_circuits _ _ _ Hos). }
    { destruct Hos as (_ & -> & _). done. }
    { done. }
    pose proof (find_has_id _ _ _ Hfind) as Hid.
    destruct (container_stop_calm cl (c_id c) s1 0 cs c Hcalm1 He1)
      as (s3 & Hstop & He3 & Hm3 & _); [by rewrite Hid|].
    assert (metadata s0 !! "container_id" = Some cid) as Hcid0.
    { destruct Hos as (-> & _). done. }
    destruct (Hcall tt s3) as (s4 & Hcc & Ho4).
    { unfold stop_job_run, try_except.
      rewrite (bind_ret _ _ _ _ _ (getitem_spec _ _ _ Hcid0)).
      by rewrite (bind_ret _ _ _ _ _ Hget), Hstop. }
    exists s4, (update_container (fmt cid) (with_status "exited") cs).
    split; [|split; [|split; [|split]]].
    + unfold stop_job.
      assert (contains "container_id" s = (Ret true, s)) as Hin.
      { unfold contains. by rewrite bool_decide_eq_true_2 by eauto. }
      rewrite (bind_ret _ _ _ _ _ Hin). simpl.
      rewrite (bind_ret _ _ _ _ _ Hg1), (bind_ret _ _ _ _ _ Hg2), (bind_ret _ _ _ _ _ Hg3).
      by rewrite (bind_ret _ _ _ _ _ Hg).
    + destruct Ho4 as (-> & _). rewrite Hm3, Hm1. apply Hos.
    + destruct Ho4 as (_ & -> & _). by rewrite He3, Hid.
    + rewrite find_update_container by done. by rewrite Hfind.
    + intros c0 Hin Hne. by apply elem_of_update_container_other.
Qed.

(** [get_result] on a host that answers: the result, and a state in which
    the call can be repeated. *)
Lemma get_result_computes pool task_id s host port cl cid cs c d1 d2 n :
  bound_to pool s host port cl →
  metadata s !! "container_id" = Some cid →
  engines s !! cl = Some cs →
  find (has_id (fmt cid)) cs = Some c →
  parse (c_started_at c) = Some d1 →
  parse (c_finished_at c) = Some d2 →
  admits (address host port) s = true →
  calm (3 + n) s = true →
  ∃ s', get_result pool task_id s = (Ret (result_of c d1 d2), s') ∧
        metadata s' = metadata s ∧ engines s' !! cl = Some cs ∧
        admits (address host port) s' = true ∧ calm n s' = true.
Proof.
  intros (h & p & Hh & Hp & Hc) Hcid He Hfind Hd1 Hd2 Hadm Hcalm.
  destruct (bound_client pool task_id s h p host port cl Hh Hp Hc) as (Hg1 & Hg2 & Hg3).
  destruct (get_circuit_breaker (address host port) s) as (s2 & Hg & Ho & Hb).
  destruct (circuit_call_closes (address host port) (get_result_run host port cl) s2)
    as (s0 & Ho0 & Hcall).
  { rewrite <- Hadm. apply admits_ext; [apply Hb | apply Ho | apply Ho]. }
  pose proof (only_circuits_trans _ _ _ Ho Ho0) as Hos.
  destruct (containers_get_calm cl (fmt cid) s0 (2 + n) cs c)
    as (s1 & Hget & He1 & Hm1 & Hc1 & Hcalm1).
  { by rewrite (calm_only_circuits _ _ _ Hos). }
  { destruct Hos as (_ & -> & _). done. }
  { done. }
  assert (metadata s0 !! "container_id" = Some cid) as Hcid0.
  { destruct Hos as (-> & _). done. }
  destruct (Hcall c s1) as (s3 & Hcc & Ho3 & Hclosed); [|done|].
  { unfold get_result_run, try_except.
    rewrite (bind_ret _ _ _ _ _ (getitem_spec _ _ _ Hcid0)). by rewrite Hget. }
  assert (metadata s3 = metadata s) as Hm3.
  { destruct Ho3 as (-> & _). rewrite Hm1. apply Hos. }
  assert (metadata s3 !! "container_id" = Some cid) as Hcid3 by (by rewrite Hm3).
  assert (engines s3 !! cl = Some cs) as He3.
  { destruct Ho3 as (_ & -> & _). done. }
  assert (calm (2 + n) s3 = true) as Hcalm3.
  { by rewrite (calm_only_circuits _ _ _ Ho3). }
  pose proof (find_has_id _ _ _ Hfind) as Hid. rewrite <- Hid in Hfind.
  unfold get_result.
  rewrite (bind_ret _ _ _ _ _ Hg1), (bind_ret _ _ _ _ _ Hg2), (bind_ret _ _ _ _ _ Hg3).
  rewrite (bind_ret _ _ _ _ _ Hg), (bind_ret _ _ _ _ _ Hcc).
  rewrite (bind_ret _ _ _ _ _ (getitem_spec _ _ _ Hcid3)).
  unfold convert_date. rewrite Hd1, Hd2.
  unfold mbind at 1, M_bind at 1, mret at 1, M_ret at 1.
  unfold result_of.
  destruct (finished (result_status (c_status c))).
  - unfold mbind at 1, M_bind at 1, mret at 1, M_ret at 1.
    destruct (container_logs_calm cl (c_id c) true false s3 (1 + n) cs c Hcalm3 He3 Hfind)
      as (s4 & Hl1 & He4 & Hm4 & Hc4 & Hcalm4).
    rewrite (bind_ret _ _ _ _ _ Hl1).
    destruct (container_logs_calm cl (c_id c) false true s4 n cs c Hcalm4 He4 Hfind)
      as (s5 & Hl2 & He5 & Hm5 & Hc5 & Hcalm5).
    exists s5. split.
    + destruct (bool_decide (c_error c ≠ EmptyString));
        unfold mbind at 1 2, M_bind at 1 2; by rewrite Hl2.
    + split; [congruence|]. split; [done|]. split; [|done].
      apply admits_closed. unfold breaker_of. rewrite Hc5, Hc4. exact Hclosed.
  - exists s3. split; [done|]. split; [done|]. split; [done|].
    split; [by apply admits_closed|]. by apply (calm_le (2 + n)); [lia|].
Qed.

(** X10. [get_result] only reads: on a host that answers, it returns the
    result assembled from the bound container and leaves the binding and the
    containers as they were, so that a second call returns the same
    result. *)
Theorem get_result_is_repeatable pool task_id s host port cl cid cs c d1 d2 :
  bound_to pool s host port cl →
  metadata s !! "container_id" = Some cid →
  engines s !! cl = Some cs →
  find (has_id (fmt cid)) cs = Some c →
  parse (c_started_at c) = Some d1 →
  parse (c_finished_at c) = Some d2 →
  admits (address host port) s = true →
  calm 6 s = true →
  ∃ s1 s2,
    get_result pool task_id s = (Ret (result_of c d1 d2), s1) ∧
    get_result pool task_id s1 = (Ret (result_of c d1 d2), s2) ∧
    metadata s2 = metadata s ∧ engines s2 !! cl = Some cs.
Proof.
  intros Hb Hcid He Hfind Hd1 Hd2 Hadm Hcalm.
  destruct (get_result_computes pool task_id s host port cl cid cs c d1 d2 3
              Hb Hcid He Hfind Hd1 Hd2 Hadm Hcalm)
    as (s1 & Hr1 & Hm1 & He1 & Hadm1 & Hcalm1).
  destruct (get_result_computes pool task_id s1 host port cl cid cs c d1 d2 0)
    as (s2 & Hr2 & Hm2 & He2 & _); try done.
  - destruct Hb as (h & p & ? & ? & ?). exists h, p. by rewrite Hm1.
  - by rewrite Hm1.
  - exists s1, s2. split; [done|]. split; [done|]. split; [congruence | done].
Qed.

(** ** Listing the running containers *)

Lemma for_each_returns {A B} (f : A → M B) (R : A → B → Prop) l s :
  (∀ x s0, ∃ y s1, f x s0 = (Ret y, s1) ∧ R x y) →
  ∃ ys s', for_each f l s = (Ret ys, s') ∧ Forall2 R l ys.
Proof.
  intros Hf. revert s. induction l as [|x l IH]; intros s; simpl.
  - exists [], s. split; [done | constructor].
  - destruct (Hf x s) as (y & s1 & Hy & HR).
    destruct (IH s1) as (ys & s2 & Hys & HRs).
    exists (y :: ys), s2. rewrite (bind_ret _ _ _ _ _ Hy), (bind_ret _ _ _ _ _ Hys).
    split; [done | by constructor].
Qed.

Lemma _get_all_clients_returns pool regex s :
  ∃ l s', _get_all_clients pool regex s = (Ret l, s') ∧
          map fst l = match regex with
                      | Some r => default (dict_values (clients pool))
                                    (farm_clients r (clients_per_regex pool))
                      | None => dict_values (clients pool)
                      end.
Proof.
  unfold _get_all_clients.
  set (cls := match regex with Some r => _ | None => _ end).
  destruct (for_each_returns
              (λ '(host, port, client),
                 circuit ← get_circuit (address host port);
                 mret ((host, port, client), circuit))
              (λ c y, y.1 = c) cls s) as (l & s' & Hl & HR).
  { intros [[host port] client] s0.
    destruct (get_circuit_only (address host port) s0) as (s1 & Hg & _).
    eexists _, s1. rewrite (bind_ret _ _ _ _ _ Hg). done. }
  exists l, s'. split; [done|].
  clear Hl. induction HR as [|c y cls' l' Hy HR IH]; [done|]. simpl. by f_equal.
Qed.




(** ** The capacity check and the farms *)

Lemma count_running_skips pre rest pool task_id s :
  Forall (λ farm, farm_skipped farm.1 task_id = true) pre →
  count_running pool (pre ++ rest) task_id s = count_running pool rest task_id s.
Proof.
  induction 1 as [|[regex cls] pre Hskip _ IH]; [done|]. simpl in *. by rewrite Hskip.
Qed.

Lemma select_client_skips pre rest task_id bl s :
  Forall (λ farm, farm_skipped farm.1 task_id = true) pre →
  select_client (pre ++ rest) task_id bl s = select_client rest task_id bl s.
Proof.
  induction 1 as [|[regex cls] pre Hskip _ IH]; [done|]. simpl in *. by rewrite Hskip.
Qed.

(** X12. A task id that no farm matches passes the capacity check, which
    asks no host, although no host can be selected for it: [get_client]
    raises [RuntimeError] without asking a host either. *)
Theorem unmatched_task_passes_capacity_check pool task_id bl s :
  Forall (λ farm, farm_skipped farm.1 task_id = true) (clients_per_regex pool) →
  validate_max_running_executions pool task_id s = (Ret true, s) ∧
  get_client pool task_id None None bl s = (Raise (RuntimeError (no_host_msg task_id)), s).
Proof.
  intros Hall. split.
  - unfold validate_max_running_executions.
    pose proof (count_running_skips _ [] pool task_id s Hall) as H.
    rewrite app_nil_r in H. unfold mbind, M_bind. by rewrite H.
  - unfold get_client.
    pose proof (select_client_skips _ [] task_id (default ∅ bl) s Hall) as H.
    rewrite app_nil_r in H. unfold mbind, M_bind. by rewrite H.
Qed.

(** The farm that [_get_all_clients] finds for the pattern of the first
    farm that matches a task id is that farm. *)
Lemma farm_clients_first_match pre r cls post task_id :
  Forall (λ farm, farm_skipped farm.1 task_id = true) pre →
  re_match r task_id = true →
  farm_clients r (pre ++ (Some r, cls) :: post) = Some cls.
Proof.
  intros Hpre Hr. induction Hpre as [|[regex c] pre Hskip _ IH]; simpl.
  - by rewrite decide_False by (intros H; by apply H).
  - destruct regex as [r'|]; simpl in Hskip; [|discriminate].
    rewrite decide_True; [done|]. intros ->. by rewrite Hr in Hskip.
Qed.

(** X13. The capacity check counts for the first farm that matches the
    task id. When that farm has a pattern, the hosts asked for their
    running containers are the hosts of that farm; when it has none, they
    are all the hosts of the pool, of whatever farm. The count is compared
    with the [max_running] entry of the farm's pattern. *)
Theorem capacity_check_counts_first_matching_farm pool task_id pre regex cls post s :
  clients_per_regex pool = pre ++ (regex, cls) :: post →
  Forall (λ farm, farm_skipped farm.1 task_id = true) pre →
  farm_skipped regex task_id = false →
  validate_max_running_executions pool task_id s
    = (found ← get_running_containers pool regex None;
       max ← max_running_of pool regex;
       mret (capacity_ok (Z.of_nat (length (running found))) max)) s ∧
  ∃ l s', _get_all_clients pool regex s = (Ret l, s') ∧
          map fst l = match regex with
                      | Some _ => cls
                      | None => dict_values (clients pool)
                      end.
Proof.
  intros Hfarms Hpre Hmatch. split.
  - unfold validate_max_running_executions. unfold mbind at 1, M_bind at 1.
    rewrite Hfarms, (count_running_skips _ _ _ _ _ Hpre). cbn [count_running].
    rewrite Hmatch. unfold mbind, M_bind.
    destruct (get_running_containers pool regex None s) as [[found|e] s1]; [|done].
    by destruct (max_running_of pool regex s1) as [[max|e] s2].
  - destruct (_get_all_clients_returns pool regex s) as (l & s' & Hl & Hmap).
    exists l, s'. split; [done|]. rewrite Hmap. destruct regex as [r|]; [|done].
    rewrite Hfarms. simpl in Hmatch. apply negb_false_iff in Hmatch.
    by rewrite (farm_clients_first_match _ _ _ _ _ Hpre Hmatch).
Qed.

(** ** The pool that [DockerPool.__init__] builds *)

Lemma dict_get_set {V} (d : list (string * V)) key v k :
  dict_get (dict_set d key v) k = if decide (key = k) then Some v else dict_get d k.
Proof.
  induction d as [|[k0 x] d IH]; simpl.
  - done.
  - destruct (decide (k0 = key)) as [->|Hne]; simpl.
    + by destruct (decide (key = k)).
    + rewrite IH. destruct (decide (k0 = k)) as [->|]; [|done].
      by rewrite decide_False.
Qed.

Lemma init_farm_spec addresses client_list index cl idx :
  init_farm addresses client_list index = inr (cl, idx) →
  ∃ cs, cl = client_list ++ cs ∧
        Forall2 (λ a c, init_address a = inr c) addresses cs ∧
        ∀ k c, dict_get idx k = Some c ↔
               (k ∈ addresses ∧ init_address k = inr c) ∨
               ((k ∉ addresses) ∧ dict_get index k = Some c).
Proof.
  revert client_list index. induction addresses as [|a rest IH]; intros cl0 idx0; simpl.
  - intros [= <- <-]. exists []. split; [by rewrite app_nil_r|]. split; [constructor|].
    intros k c. split.
    + intros H. right. split; [apply not_elem_of_nil | done].
    + intros [[H _]|[_ H]]; [by apply elem_of_nil in H | done].
  - destruct (init_address a) as [e|c0] eqn:Ha; [discriminate|].
    intros H. destruct (IH _ _ H) as (cs & -> & Hcs & Hidx).
    exists (c0 :: cs). split; [by rewrite <- app_assoc|]. split; [by constructor|].
    intros k c. rewrite Hidx, dict_get_set. rewrite !elem_of_cons.
    destruct (decide (a = k)) as [->|Hne].
    + split.
      * intros [[? ?]|[? [= <-]]]; left; (split; [by left | done]).
      * intros [[_ Hc]|[Hk _]]; [|exfalso; apply Hk; by left].
        rewrite Ha in Hc. injection Hc as <-.
        destruct (decide (k ∈ rest)); [left | right]; by split.
    + split.
      * intros [[? ?]|[Hk ?]].
        -- left. split; [by right | done].
        -- right. split; [|done]. intros [Heq|Hin]; [congruence | by apply Hk].
      * intros [[[Hk|Hk] ?]|[Hk ?]].
        -- congruence.
        -- by left.
        -- right. split; [|done]. intros Hin. apply Hk. by right.
Qed.

Lemma __init_clients_spec docker_hosts pool0 pool :
  __init_clients docker_hosts pool0 = inr pool →
  ∃ farms,
    clients_per_regex pool = clients_per_regex pool0 ++ farms ∧
    Forall2 (λ farm built,
               built.1 = farm.1.1 ∧
               Forall2 (λ a c, init_address a = inr c) farm.1.2 built.2)
            docker_hosts farms ∧
    (∀ k c, dict_get (clients pool) k = Some c ↔
            (k ∈ all_addresses docker_hosts ∧ init_address k = inr c) ∨
            ((k ∉ all_addresses docker_hosts) ∧ dict_get (clients pool0) k = Some c)) ∧
    max_running pool
      = foldl (λ m farm, <[farm.1.1 := farm.2]> m) (max_running pool0) docker_hosts.
Proof.
  revert pool0. induction docker_hosts as [|[[regex addresses] max] rest IH];
    intros pool0; simpl.
  - intros [= <-]. exists []. split; [by rewrite app_nil_r|]. split; [constructor|].
    split; [|done]. intros k c. unfold all_addresses. simpl. split.
    + intros H. right. split; [apply not_elem_of_nil | done].
    + intros [[H _]|[_ H]]; [by apply elem_of_nil in H | done].
  - destruct (init_farm addresses [] (clients pool0)) as [e|[cl idx]] eqn:Hfarm;
      [discriminate|].
    intros H. apply IH in H as (farms & Hfarms & HF & Hidx & Hmax). simpl in *.
    apply init_farm_spec in Hfarm as (cs & -> & Hcs & Hidx0). simpl in *.
    exists ((regex, cs) :: farms). split; [by rewrite Hfarms, <- app_assoc|].
    split; [by constructor|]. split; [|done].
    intros k c. rewrite Hidx, Hidx0. unfold all_addresses. simpl.
    rewrite !elem_of_app.
    fold (all_addresses rest).
    clear -k c pool0 rest addresses.
    destruct (decide (k ∈ all_addresses rest)); destruct (decide (k ∈ addresses)); tauto.
Qed.

Lemma split_char_nonempty sep s : split_char sep s ≠ [].
Proof.
  destruct s as [|ch s]; simpl; [done|].
  destruct (decide (ch = sep)); [done|]. by destruct (split_char sep s).
Qed.

Lemma split_char_single sep s part : split_char sep s = [part] → part = s.
Proof.
  revert part. induction s as [|ch s IH]; intros part; simpl.
  - by intros [= <-].
  - destruct (decide (ch = sep)).
    + intros [= _ H]. by apply split_char_nonempty in H.
    + destruct (split_char sep s) as [|p ps] eqn:Hs;
        [by apply split_char_nonempty in Hs|].
      intros [= <- ->]. f_equal. by apply IH.
Qed.

Lemma split_char_pair sep s host port :
  split_char sep s = [host; port] → s = host +:+ String sep port.
Proof.
  revert host. induction s as [|ch s IH]; intros host; simpl.
  - discriminate.
  - destruct (decide (ch = sep)) as [->|Hne].
    + intros [= <- H]. by apply split_char_single in H as ->.
    + destruct (split_char sep s) as [|p ps]; [discriminate|].
      intros [= <- ->]. by rewrite (IH p eq_refl) at 1.
Qed.

(** X14. When [DockerPool] is built, [clients_per_regex] has one farm for
    each entry of the configuration, in the same order and with the same
    pattern, and the clients of a farm are, in order, those of its
    addresses: each address is [host:port] with exactly these two parts
    around one colon, the port is [int(port)] and the client is the one
    created for the address. *)
Theorem pool_farms_follow_configuration docker_hosts pool :
  DockerPool_init docker_hosts = inr pool →
  Forall2 (λ farm built,
             built.1 = farm.1.1 ∧
             Forall2 (λ a c, ∃ host port p,
                        a = host +:+ ":" +:+ port ∧
                        split_char ":" a = [host; port] ∧
                        py_int port = Some p ∧ c = (host, p, a))
                     farm.1.2 built.2)
          docker_hosts (clients_per_regex pool).
Proof.
  intros H. apply __init_clients_spec in H as (farms & Hfarms & HF & _).
  simpl in Hfarms. rewrite Hfarms.
  eapply Forall2_impl; [exact HF|]. intros farm built [Hr Hcs]. split; [done|].
  eapply Forall2_impl; [exact Hcs|]. intros a c Ha.
  unfold init_address in Ha.
  destruct (split_char ":" a) as [|host [|port [|? ?]]] eqn:Hsplit; try discriminate.
  destruct (accepts_base_url a); [|discriminate].
  destruct (py_int port) as [p|] eqn:Hp; [|discriminate]. injection Ha as <-.
  exists host, port, p. split; [|done].
  by apply (split_char_pair ":"%char).
Qed.

(** X15. The dictionary [clients] of a pool that was built has exactly the
    configured addresses as keys, and under each address the client created
    for it. A lookup by [f"{host}:{port}"], as [get_client] does it for a
    bound execution, therefore finds a client only if that string is
    literally one of the configured addresses. *)
Theorem pool_index_follows_configuration docker_hosts pool k c :
  DockerPool_init docker_hosts = inr pool →
  (dict_get (clients pool) k = Some c ↔
   k ∈ all_addresses docker_hosts ∧ init_address k = inr c) ∧
  (∀ task_id host port bl s,
     fmt host +:+ ":" +:+ fmt port ∉ all_addresses docker_hosts →
     get_client pool task_id (Some host) (Some port) bl s = (Ret None, s)).
Proof.
  intros H. apply __init_clients_spec in H as (farms & _ & _ & Hidx & _). split.
  - rewrite Hidx. simpl. split; [intros [?|[_ [=]]]; done | by left].
  - intros task_id host port bl s Hk. unfold get_client, mret, M_ret.
    destruct (dict_get (clients pool) _) as [c0|] eqn:Hc; [|done].
    apply Hidx in Hc as [[? _]|[_ [=]]]. done.
Qed.

Lemma foldl_max_running_last (pre post : list (option string * list string * Z))
    (regex : option string) (addresses : list string) (max : Z)
    (m0 : gmap (option string) Z) :
  regex ∉ map (λ farm, farm.1.1) post →
  foldl (λ m farm, <[farm.1.1 := farm.2]> m) m0
        (pre ++ (regex, addresses, max) :: post) !! regex = Some max.
Proof.
  intros Hpost. rewrite foldl_app. simpl.
  generalize (foldl (λ m farm, <[farm.1.1 := farm.2]> m) m0 pre). intros m.
  assert (<[regex := max]> m !! regex = Some max) as H by apply lookup_insert_eq.
  revert H. generalize (<[regex := max]> m). clear m.
  induction post as [|[[r a] x] post IH]; intros m Hm; simpl; [done|].
  apply not_elem_of_cons in Hpost as [Hne Hpost]. simpl in Hne.
  apply IH; [done|]. by rewrite lookup_insert_ne.
Qed.

(** X16. [max_running] is keyed by the pattern: a farm's entry is the
    maximum configured for the last farm with the same pattern, or the same
    absence of a pattern. Two farms with one pattern share the maximum of
    the later one. *)
Theorem max_running_of_last_farm_with_pattern docker_hosts pool pre regex addresses max post :
  DockerPool_init docker_hosts = inr pool →
  docker_hosts = pre ++ (regex, addresses, max) :: post →
  regex ∉ map (λ farm, farm.1.1) post →
  ∀ s, max_running_of pool regex s = (Ret max, s).
Proof.
  intros H -> Hpost s. apply __init_clients_spec in H as (farms & _ & _ & _ & Hmax).
  unfold max_running_of. rewrite Hmax.
  by rewrite (foldl_max_running_last pre post regex addresses max _ Hpost).
Qed.

(** ** The executor's own pool *)

Lemma read_clusters_spec clusters i n docker_hosts warned :
  read_clusters clusters i n = inr (docker_hosts, warned) →
  (i + length clusters ≤ n)%nat →
  docker_hosts
    = map (λ c, (cluster_regex c, cl_hosts c, default 10%Z (cl_max_running c))) clusters ∧
  ∀ j, j ∈ warned ↔
       ∃ k c, j = (i + k)%nat ∧ clusters !! k = Some c ∧ cl_match c = EmptyString.
Proof.
  revert i docker_hosts warned.
  induction clusters as [|c rest IH]; intros i docker_hosts warned; simpl.
  - intros [= <- <-] _. split; [done|]. intros j. split.
    + intros H. by apply elem_of_nil in H.
    + intros (k & c & _ & H & _). by rewrite lookup_nil in H.
  - unfold cluster_regex at 1.
    destruct (bool_decide (cl_match c = EmptyString)) eqn:Hm.
    + destruct (read_clusters rest (S i) n) as [e|[hosts0 warned0]] eqn:Hrest;
        [discriminate|].
      intros [= <- <-] Hlen. destruct (IH _ _ _ Hrest ltac:(lia)) as [-> Hw].
      split; [done|]. intros j.
      rewrite bool_decide_true by lia. rewrite elem_of_cons, Hw. split.
      * intros [->|(k & c0 & -> & Hk & Hc0)].
        -- exists 0%nat, c. split; [lia|]. split; [done|].
           by apply bool_decide_eq_true in Hm.
        -- exists (S k), c0. split; [lia | done].
      * intros ([|k] & c0 & -> & Hk & Hc0).
        -- left. lia.
        -- right. exists k, c0. split; [lia | done].
    + destruct (re_valid (cl_match c)); [|discriminate].
      destruct (read_clusters rest (S i) n) as [e|[hosts0 warned0]] eqn:Hrest;
        [discriminate|].
      intros [= <- <-] Hlen. destruct (IH _ _ _ Hrest ltac:(lia)) as [-> Hw].
      split; [done|]. intros j. rewrite Hw. split.
      * intros (k & c0 & -> & Hk & Hc0). exists (S k), c0. split; [lia | done].
      * intros ([|k] & c0 & -> & Hk & Hc0).
        -- simpl in Hk. injection Hk as <-.
           apply bool_decide_eq_false in Hm. done.
        -- exists k, c0. split; [lia | done].
Qed.

(** X17. The warning about a farm with no regex "found before the end" of
    the definition is logged for every cluster whose [match] is empty, the
    last one included: [i != len(clusters)] holds for every index that
    [enumerate(clusters)] gives. *)
Theorem every_cluster_without_match_is_warned clusters pool warned :
  Executor_init clusters = inr (pool, warned) →
  ∀ i, i ∈ warned ↔ ∃ c, clusters !! i = Some c ∧ cl_match c = EmptyString.
Proof.
  unfold Executor_init.
  destruct (read_clusters clusters 0 (length clusters)) as [e|[docker_hosts w]] eqn:Hread;
    [discriminate|].
  destruct (DockerPool_init docker_hosts) as [e|pool0]; [discriminate|].
  intros [= <- <-] i.
  destruct (read_clusters_spec _ _ _ _ _ Hread ltac:(simpl; lia)) as [_ Hw].
  rewrite Hw. split.
  - intros (k & c & -> & Hk & Hc). by exists c.
  - intros (c & Hk & Hc). by exists i, c.
Qed.

Lemma init_address_client a c : init_address a = inr c → c.2 = a.
Proof.
  unfold init_address.
  destruct (split_char ":" a) as [|host [|port [|? ?]]]; try discriminate.
  destruct (accepts_base_url a); [|discriminate].
  destruct (py_int port); [|discriminate]. by intros [= <-].
Qed.

Lemma init_addresses_clients addresses cs :
  Forall2 (λ a c, init_address a = inr c) addresses cs →
  map (λ c : host_client, c.2) cs = addresses.
Proof.
  induction 1 as [|a c addresses cs Ha _ IH]; simpl; [done|].
  by rewrite (init_address_client _ _ Ha), IH.
Qed.

(** X18. The pool that [Executor.__init__] builds has one farm for each
    cluster of [DOCKER_HOSTS], in the same order; the farm of a cluster with
    an empty [match] has no pattern, the clients of a farm are those of the
    cluster's hosts, in order, and the maximum of a pattern is the
    [maxRunning] of the last cluster with that pattern, 10 when the cluster
    names none. *)
Theorem executor_pool_follows_clusters clusters pool warned :
  Executor_init clusters = inr (pool, warned) →
  Forall2 (λ c farm, farm.1 = cluster_regex c ∧
                     map (λ x : host_client, x.2) farm.2 = cl_hosts c)
          clusters (clients_per_regex pool) ∧
  ∀ pre c post,
    clusters = pre ++ c :: post →
    cluster_regex c ∉ map cluster_regex post →
    max_running pool !! cluster_regex c = Some (default 10%Z (cl_max_running c)).
Proof.
  unfold Executor_init.
  destruct (read_clusters clusters 0 (length clusters)) as [e|[docker_hosts w]] eqn:Hread;
    [discriminate|].
  destruct (DockerPool_init docker_hosts) as [e|pool0] eqn:Hpool; [discriminate|].
  intros [= <- <-].
  destruct (read_clusters_spec _ _ _ _ _ Hread ltac:(simpl; lia)) as [-> _].
  apply __init_clients_spec in Hpool as (farms & Hfarms & HF & _ & Hmax).
  simpl in Hfarms, Hmax. split.
  - rewrite Hfarms. apply Forall2_fmap_l in HF.
    eapply Forall2_impl; [exact HF|]. intros c farm [Hr Hcs]. simpl in *.
    split; [done|]. by apply init_addresses_clients.
  - intros pre c post -> Hlast. rewrite Hmax, map_app. simpl.
    apply foldl_max_running_last. by rewrite map_map.
Qed.

(** ** The reaper *)

Lemma bind_inv {A B} (m : M A) (f : A → M B) s r s' :
  (m ≫= f) s = (r, s') →
  (∃ e, m s = (Raise e, s') ∧ r = Raise e) ∨
  (∃ a s1, m s = (Ret a, s1) ∧ f a s1 = (r, s')).
Proof.
  unfold mbind, M_bind. destruct (m s) as [[a|e] s1].
  - intros H. right. by exists a, s1.
  - intros [= <- <-]. left. by exists e.
Qed.

(** An invariant of the state that every round keeps is kept by the loop,
    however it ends. *)
Lemma for_each_invariant {A B} (I : state → Prop) (P : A → Prop) (f : A → M B) :
  (∀ x s r s', P x → I s → f x s = (r, s') → I s') →
  ∀ l s r s', Forall P l → I s → for_each f l s = (r, s') → I s'.
Proof.
  intros Hf. induction l as [|x l IH]; intros s r s' HP HI; simpl.
  - by intros [= <- <-].
  - apply Forall_cons in HP as [Hx Hl]. intros H.
    apply bind_inv in H as [(e & Hm & _)|(y & s1 & Hm & H)]; [by eapply Hf|].
    apply bind_inv in H as [(e & Hm' & _)|(ys & s2 & Hm' & [= <- <-])].
    + eapply IH; [done | by eapply Hf | done].
    + eapply IH; [done | by eapply Hf | done].
Qed.

(** What an engine request does to the containers of the hosts. *)
Lemma engine_call_containers {A} cl (f : list container → result A * list container)
    s r s' :
  engine_call cl f s = (r, s') →
  (∀ cl', host_containers s' cl' = host_containers s cl') ∨
  (∃ cs', f (host_containers s cl) = (r, cs') ∧
          ∀ cl', host_containers s' cl'
                 = if decide (cl' = cl) then cs' else host_containers s cl').
Proof.
  unfold engine_call, host_containers.
  destruct (f (default [] (engines s !! cl))) as [r0 cs'] eqn:Hf.
  destruct (head (faults s)) as [[| |msg]|]; intros [= <- <-];
    try (by left); right; exists cs'; (split; [done|]); intros cl'; simpl;
    (destruct (decide (cl' = cl)) as [->|Hne];
       [by rewrite lookup_insert_eq | by rewrite lookup_insert_ne]).
Qed.

Lemma reaped_from_refl s : reaped_from s s.
Proof. intros cl. split; [done|]. intros c Hc. by left. Qed.

Lemma reaped_from_same s0 s s' :
  reaped_from s0 s →
  (∀ cl, host_containers s' cl = host_containers s cl) →
  reaped_from s0 s'.
Proof.
  intros H Hsame cl. rewrite Hsame. apply H.
Qed.

(** A request that reads the host keeps the invariant of the reaper. *)
Lemma reading_call_reaped {A} cl (g : list container → result A) s0 s r s' :
  reaped_from s0 s →
  engine_call cl (λ cs, (g cs, cs)) s = (r, s') →
  reaped_from s0 s'.
Proof.
  intros H Hcall. apply (reaped_from_same s0 s); [done|].
  apply engine_call_containers in Hcall as [Hsame|(cs' & [= _ <-] & Hcs)]; [done|].
  intros cl'. rewrite Hcs. by destruct (decide (cl' = cl)) as [->|].
Qed.

(** Removing the container with the id of a container that had a defunct
    name keeps the invariant of the reaper. *)
Lemma container_remove_reaped cl d s0 s r s' :
  reaped_from s0 s →
  d ∈ host_containers s0 cl →
  defunct d = true →
  container_remove cl (c_id d) s = (r, s') →
  reaped_from s0 s'.
Proof.
  intros H Hd Hdef Hcall. unfold container_remove, on_container in Hcall.
  apply engine_call_containers in Hcall as [Hsame|(cs' & Hf & Hcs)];
    [by apply (reaped_from_same s0 s)|].
  destruct (find (has_id (c_id d)) (host_containers s cl)) as [c0|];
    injection Hf as _ <-.
  - intros cl'. rewrite Hcs. destruct (decide (cl' = cl)) as [->|]; [|apply H].
    destruct (H cl) as [Hsub Hkept]. split.
    + intros c Hc. apply list_elem_of_filter in Hc as [_ Hc]. by apply Hsub.
    + intros c Hc. destruct (Hkept c Hc) as [Hin|Hgone]; [|by right].
      destruct (decide (c_id c = c_id d)) as [Heq|Hne].
      * right. by exists d.
      * left. apply list_elem_of_filter. split; [|done].
        unfold has_id. by rewrite bool_decide_false.
  - apply (reaped_from_same s0 s); [done|].
    intros cl'. rewrite Hcs. by destruct (decide (cl' = cl)) as [->|].
Qed.

Lemma first_repo_tag_reaped cl c s0 s r s' :
  reaped_from s0 s →
  first_repo_tag cl c s = (r, s') →
  reaped_from s0 s'.
Proof.
  intros H Hcall. unfold first_repo_tag in Hcall.
  apply bind_inv in Hcall as [(e & Hm & _)|(tags & s1 & Hm & Hk)].
  - by eapply (reading_call_reaped cl (λ _, Ret (c_repo_tags c))).
  - eapply (reading_call_reaped cl (λ _, Ret (c_repo_tags c))) in Hm; [|done].
    by destruct tags; injection Hk as _ <-.
Qed.

Lemma containers_list_reaped cl all flt s0 s r s' :
  reaped_from s0 s →
  containers_list cl all flt s = (r, s') →
  reaped_from s0 s' ∧
  ∀ l, r = Ret l →
       l = filter (λ c, (all || bool_decide (c_status c = "running")) && passes flt c = true)
                  (host_containers s cl).
Proof.
  intros H Hcall. unfold containers_list in Hcall. split.
  - by eapply (reading_call_reaped cl
                 (λ cs, Ret (filter (λ c, (all || bool_decide (c_status c = "running"))
                                           && passes flt c = true) cs))).
  - intros l ->. apply engine_call_ret_inv in Hcall as (cs' & [= <- _] & _). done.
Qed.

Lemma remove_done_reaped pool s r s' :
  remove_done pool s = (r, s') → reaped_from s s'.
Proof.
  unfold remove_done. intros H.
  apply bind_inv in H as [(e & H & _)|(per_host & s1 & H & [= _ <-])];
    revert H;
    (apply (for_each_invariant (reaped_from s) (λ _, True));
       [|by apply Forall_true | apply reaped_from_refl]);
    clear; intros [[host port] client] s1 r s2 _ HI Hbody;
    (apply bind_inv in Hbody as [(e & Hm & _)|(containers & s3 & Hm & Hloop)];
       [by apply (containers_list_reaped _ _ _ s) in Hm as [? _]|]);
    apply (containers_list_reaped _ _ _ s) in Hm as [HI3 Hl]; try done;
    specialize (Hl _ eq_refl); subst containers; revert Hloop;
    (apply (for_each_invariant (reaped_from s)
              (λ c, c ∈ host_containers s client ∧ defunct c = true));
       [|apply Forall_forall; intros c Hc;
         apply list_elem_of_filter in Hc as [Hdef Hc]; split;
         [by apply HI | exact Hdef]
        |done]);
    clear; intros c s1 r s2 [Hc Hdef] HI Hbody;
    (apply bind_inv in Hbody as [(e & Hm & _)|(image & s3 & Hm & Hrest)];
       [by apply (first_repo_tag_reaped _ _ s) in Hm|]);
    apply (first_repo_tag_reaped _ _ s) in Hm; try done;
    (apply bind_inv in Hrest as [(e & Hrm & _)|(u & s4 & Hrm & [= _ <-])];
       by apply (container_remove_reaped _ c s) in Hrm).
Qed.

(** X20. However [remove_done] ends, with whatever failures of the hosts,
    it gives no host a container and changes none, and every container
    that it found on a host is still there afterwards unless a container
    of that host with the same id had a name with
    [defunct-fastlane-job] in it. *)
Theorem remove_done_spares_other_containers pool s r s' cl c :
  remove_done pool s = (r, s') →
  c ∈ host_containers s cl →
  (∀ d, d ∈ host_containers s cl → c_id d = c_id c → defunct d = false) →
  c ∈ host_containers s' cl ∧
  ∀ c', c' ∈ host_containers s' cl → c' ∈ host_containers s cl.
Proof.
  intros H Hc Hother. apply remove_done_reaped in H. destruct (H cl) as [Hsub Hkept].
  split; [|exact Hsub].
  destruct (Hkept c Hc) as [Hin|(d & Hd & Hdef & Hid)]; [done|].
  rewrite (Hother d Hd Hid) in Hdef. discriminate.
Qed.

Lemma filter_all {A} (P : A → Prop) `{∀ x, Decision (P x)} (l : list A) :
  (∀ x, x ∈ l → P x) → filter P l = l.
Proof.
  induction l as [|x l IH]; intros Hl; [done|].
  rewrite filter_cons_True by (apply Hl; by left).
  f_equal. apply IH. intros y Hy. apply Hl. by right.
Qed.

Lemma NoDup_map_filter {A B} (f : A → B) (P : A → Prop) `{∀ x, Decision (P x)}
    (l : list A) :
  NoDup (map f l) → NoDup (map f (filter P l)).
Proof.
  induction l as [|x l IH]; simpl; [done|].
  intros Hnd. apply NoDup_cons in Hnd as [Hx Hnd].
  destruct (decide (P x)) as [HP|HP].
  - rewrite filter_cons_True by done. simpl. apply NoDup_cons. split; [|by apply IH].
    intros Hin. apply Hx. apply list_elem_of_fmap in Hin as (y & -> & Hy).
    apply list_elem_of_filter in Hy as [_ Hy]. apply list_elem_of_fmap. by exists y.
  - rewrite filter_cons_False by done. by apply IH.
Qed.

Lemma NoDup_map_inj {A B} (f : A → B) (l : list A) x y :
  NoDup (map f l) → x ∈ l → y ∈ l → f x = f y → x = y.
Proof.
  induction l as [|z l IH]; simpl; intros Hnd Hx Hy Heq.
  - by apply elem_of_nil in Hx.
  - apply NoDup_cons in Hnd as [Hz Hnd].
    apply elem_of_cons in Hx as [->|Hx]; apply elem_of_cons in Hy as [->|Hy].
    + done.
    + exfalso. apply Hz. rewrite Heq. apply list_elem_of_fmap. by exists y.
    + exfalso. apply Hz. rewrite <- Heq. apply list_elem_of_fmap. by exists x.
    + by apply IH.
Qed.

Lemma find_present cs c : c ∈ cs → is_Some (find (has_id (c_id c)) cs).
Proof.
  induction cs as [|c0 cs IH]; intros Hc; simpl.
  - by apply elem_of_nil in Hc.
  - destruct (has_id (c_id c) c0) eqn:Hid; [by eexists|].
    apply elem_of_cons in Hc as [->|Hc]; [|by apply IH].
    unfold has_id in Hid. by rewrite bool_decide_true in Hid.
Qed.

(** A request that meets no fault. *)
Lemma engine_call_quiet {A} cl (f : list container → result A * list container)
    s r cs' :
  faults s = [] →
  f (host_containers s cl) = (r, cs') →
  ∃ s', engine_call cl f s = (r, s') ∧
        faults s' = [] ∧
        ∀ cl', host_containers s' cl'
               = if decide (cl' = cl) then cs' else host_containers s cl'.
Proof.
  intros Hq Hf. unfold engine_call, host_containers in *. rewrite Hq, Hf. simpl.
  eexists. split; [done|]. split; [done|]. intros cl'. simpl.
  destruct (decide (cl' = cl)) as [->|Hne];
    [by rewrite lookup_insert_eq | by rewrite lookup_insert_ne].
Qed.

Lemma first_repo_tag_quiet cl c t ts s :
  faults s = [] →
  c_repo_tags c = t :: ts →
  ∃ s', first_repo_tag cl c s = (Ret t, s') ∧ faults s' = [] ∧
        ∀ cl', host_containers s' cl' = host_containers s cl'.
Proof.
  intros Hq Ht.
  destruct (engine_call_quiet cl (λ cs, (Ret (c_repo_tags c), cs)) s _ _ Hq eq_refl)
    as (s1 & Htag & Hq1 & Hcs1).
  exists s1. split; [|split; [done|]].
  - unfold first_repo_tag. rewrite (bind_ret _ _ _ _ _ Htag). by rewrite Ht.
  - intros cl'. rewrite Hcs1. by destruct (decide (cl' = cl)) as [->|].
Qed.

Lemma container_remove_quiet cl c s :
  faults s = [] →
  c ∈ host_containers s cl →
  ∃ s', container_remove cl (c_id c) s = (Ret tt, s') ∧ faults s' = [] ∧
        host_containers s' cl
          = filter (λ c0, has_id (c_id c) c0 = false) (host_containers s cl) ∧
        ∀ cl', cl' ≠ cl → host_containers s' cl' = host_containers s cl'.
Proof.
  intros Hq Hin. destruct (find_present _ _ Hin) as [c0 Hfind].
  destruct (engine_call_quiet cl
              (λ cs, match find (has_id (c_id c)) cs with
                     | Some c1 => (λ _ cs, (Ret tt, filter (λ c0, has_id (c_id c) c0 = false) cs))
                                    c1 cs
                     | None => (Raise (NotFound (c_id c)), cs)
                     end) s (Ret tt)
              (filter (λ c0, has_id (c_id c) c0 = false) (host_containers s cl)) Hq)
    as (s2 & Hrm & Hq2 & Hcs2); [cbv beta; by rewrite Hfind|].
  exists s2. split; [exact Hrm|]. split; [done|]. split.
  - by rewrite Hcs2, decide_True.
  - intros cl' Hne. by rewrite Hcs2, decide_False.
Qed.

(** The inner loop of [remove_done] on a host that answers: the listed
    containers are reported and removed. *)
Lemma remove_listed host port cl l : ∀ s,
  faults s = [] →
  NoDup (map c_id l) →
  (∀ c, c ∈ l → c ∈ host_containers s cl ∧ c_repo_tags c ≠ []) →
  ∃ s',
    for_each (λ c,
                image ← first_repo_tag cl c;
                container_remove cl (c_id c);;
                mret {| removed_host := address host port; removed_name := c_name c;
                        removed_id := c_id c; removed_image := image |}) l s
      = (Ret (map (removed_entry host port) l), s') ∧
    faults s' = [] ∧
    host_containers s' cl = filter (λ c, c_id c ∉ map c_id l) (host_containers s cl) ∧
    ∀ cl', cl' ≠ cl → host_containers s' cl' = host_containers s cl'.
Proof.
  induction l as [|c l IH]; intros s Hq Hnd Hl.
  - exists s. split; [done|]. split; [done|]. split; [|done].
    symmetry. apply filter_all. intros x _. apply not_elem_of_nil.
  - change (map c_id (c :: l)) with (c_id c :: map c_id l) in Hnd.
    apply NoDup_cons in Hnd as [Hc Hnd].
    destruct (Hl c ltac:(by left)) as [Hin Htags].
    destruct (c_repo_tags c) as [|t ts] eqn:Ht; [done|].
    destruct (first_repo_tag_quiet cl c t ts s Hq Ht) as (s1 & Htag & Hq1 & Hsame).
    rewrite <- (Hsame cl) in Hin.
    destruct (container_remove_quiet cl c s1 Hq1 Hin) as (s2 & Hrm & Hq2 & Hcs2 & Hne2).
    destruct (IH s2 Hq2 Hnd) as (s3 & Hloop & Hq3 & Hcs3 & Hothers).
    { intros c' Hc'. destruct (Hl c' ltac:(by right)) as [Hin' Htags']. split; [|done].
      rewrite Hcs2, Hsame. apply list_elem_of_filter. split; [|done].
      unfold has_id. apply bool_decide_eq_false. intros Heq. apply Hc.
      rewrite <- Heq. apply list_elem_of_fmap. by exists c'. }
    exists s3. split; [|split; [done|split]].
    + cbn [for_each map].
      rewrite (bind_ret _ _ _ _ _
                 (eq_trans (bind_ret _ _ _ _ _ Htag) (bind_ret _ _ _ _ _ Hrm))).
      rewrite (bind_ret _ _ _ _ _ Hloop).
      unfold removed_entry at 2. by rewrite Ht.
    + rewrite Hcs3, Hcs2, Hsame.
      rewrite list_filter_filter. apply list_filter_iff. intros x.
      change (map c_id (c :: l)) with (c_id c :: map c_id l).
      unfold has_id. rewrite bool_decide_eq_false, not_elem_of_cons.
      clear -x c l. tauto.
    + intros cl' Hne. by rewrite Hothers, Hne2, Hsame.
Qed.

Lemma filter_ext_in {A} (P Q : A → Prop) `{∀ x, Decision (P x)} `{∀ x, Decision (Q x)}
    (l : list A) :
  (∀ x, x ∈ l → (P x ↔ Q x)) → filter P l = filter Q l.
Proof.
  induction l as [|x l IH]; intros Hl; [done|].
  assert (filter P l = filter Q l) as Hrest.
  { apply IH. intros y Hy. apply Hl. by right. }
  destruct (decide (P x)) as [HP|HP].
  - rewrite !filter_cons_True; [by f_equal | by apply (Hl x); [left|] | done].
  - rewrite !filter_cons_False; [done | | done].
    intros HQ. apply HP. apply (Hl x); [by left | done].
Qed.

(** On a host where ids are unique, the containers whose id is not the id
    of a defunct container are the containers that are not defunct. *)
Lemma filter_not_listed cs :
  NoDup (map c_id cs) →
  filter (λ c, c_id c ∉ map c_id (filter (λ c, defunct c = true) cs)) cs
    = filter (λ c, defunct c = false) cs.
Proof.
  intros Hnd. apply filter_ext_in. intros x Hx. split.
  - intros Hid. destruct (defunct x) eqn:Hdef; [|done].
    exfalso. apply Hid. apply list_elem_of_fmap. exists x. split; [done|].
    by apply list_elem_of_filter.
  - intros Hdef Hin. apply list_elem_of_fmap in Hin as (y & Heq & Hy).
    apply list_elem_of_filter in Hy as [Hy Hin].
    rewrite (NoDup_map_inj c_id cs x y Hnd Hx Hin Heq) in Hdef. congruence.
Qed.

Lemma containers_list_quiet cl s :
  faults s = [] →
  ∃ s', containers_list cl true (NameHas ("defunct-" +:+ job_prefix)) s
          = (Ret (filter (λ c, defunct c = true) (host_containers s cl)), s') ∧
        faults s' = [] ∧
        ∀ cl', host_containers s' cl' = host_containers s cl'.
Proof.
  intros Hq. unfold containers_list.
  destruct (engine_call_quiet cl
              (λ cs, (Ret (filter (λ c, (true || bool_decide (c_status c = "running"))
                                        && passes (NameHas ("defunct-" +:+ job_prefix)) c
                                        = true) cs), cs)) s _ _ Hq eq_refl)
    as (s1 & Hcall & Hq1 & Hcs1).
  exists s1. split; [exact Hcall|]. split; [done|].
  intros cl'. rewrite Hcs1. by destruct (decide (cl' = cl)) as [->|].
Qed.

(** The loop of [remove_done] over hosts that answer. *)
Lemma remove_from_hosts cls : ∀ s,
  faults s = [] →
  NoDup (map (λ x : host_client, x.2) cls) →
  (∀ h p cl, (h, p, cl) ∈ cls →
     NoDup (map c_id (host_containers s cl)) ∧
     ∀ c, c ∈ host_containers s cl → defunct c = true → c_repo_tags c ≠ []) →
  ∃ s',
    for_each
      (λ '(host, port, client),
         containers ← containers_list client true (NameHas ("defunct-" +:+ job_prefix));
         for_each (λ c,
                     image ← first_repo_tag client c;
                     container_remove client (c_id c);;
                     mret {| removed_host := address host port; removed_name := c_name c;
                             removed_id := c_id c; removed_image := image |})
                  containers)
      cls s
      = (Ret (map (λ '(h, p, cl),
                     map (removed_entry h p)
                         (filter (λ c, defunct c = true) (host_containers s cl)))
                  cls), s') ∧
    faults s' = [] ∧
    (∀ h p cl, (h, p, cl) ∈ cls →
       host_containers s' cl = filter (λ c, defunct c = false) (host_containers s cl)) ∧
    (∀ cl, cl ∉ map (λ x : host_client, x.2) cls →
       host_containers s' cl = host_containers s cl).
Proof.
  induction cls as [|[[h p] cl] rest IH]; intros s Hq Hnd Hhosts.
  - exists s. split; [done|]. split; [done|]. split; [|done].
    intros h p cl Hin. by apply elem_of_nil in Hin.
  - change (NoDup (cl :: map (λ x : host_client, x.2) rest)) in Hnd.
    apply NoDup_cons in Hnd as [Hcl Hnd].
    destruct (Hhosts h p cl ltac:(by left)) as [Hids Htags].
    destruct (containers_list_quiet cl s Hq) as (s1 & Hlist & Hq1 & Hsame).
    destruct (remove_listed h p cl
                (filter (λ c, defunct c = true) (host_containers s cl)) s1 Hq1)
      as (s2 & Hloop & Hq2 & Hcs2 & Hne2).
    { by apply NoDup_map_filter. }
    { intros c Hc. apply list_elem_of_filter in Hc as [Hdef Hc].
      rewrite Hsame. split; [done | by apply Htags]. }
    rewrite Hsame, (filter_not_listed _ Hids) in Hcs2.
    assert (∀ h' p' cl', (h', p', cl') ∈ rest →
              host_containers s2 cl' = host_containers s cl') as Hrest.
    { intros h' p' cl' Hin. rewrite Hne2, Hsame; [done|]. intros ->.
      apply Hcl. apply list_elem_of_fmap. by exists (h', p', cl). }
    destruct (IH s2 Hq2 Hnd) as (s3 & Hloops & Hq3 & Hcs3 & Hne3).
    { intros h' p' cl' Hin. rewrite (Hrest h' p' cl' Hin). apply (Hhosts h' p' cl').
      by right. }
    exists s3. split; [|split; [done|split]].
    + cbn [for_each map].
      rewrite (bind_ret _ _ _ _ _
                 (eq_trans (bind_ret _ _ _ _ _ Hlist) Hloop)).
      rewrite (bind_ret _ _ _ _ _ Hloops). unfold mret, M_ret. do 3 f_equal.
      apply map_ext_in. intros [[h' p'] cl'] Hin. apply list_elem_of_In in Hin.
      by rewrite (Hrest h' p' cl' Hin).
    + intros h' p' cl' Hin. apply elem_of_cons in Hin as [[= -> -> ->]|Hin].
      * by rewrite (Hne3 cl Hcl).
      * by rewrite (Hcs3 h' p' cl' Hin), (Hrest h' p' cl' Hin).
    + intros cl' Hout.
      change (cl' ∉ cl :: map (λ x : host_client, x.2) rest) in Hout.
      apply not_elem_of_cons in Hout as [Hne Hout].
      by rewrite (Hne3 cl' Hout), Hne2, Hsame.
Qed.

(** X19. When no request fails, the clients of the pool are clients of
    different hosts, the ids of the containers of a host are distinct and
    every container with a defunct name has an image with a tag,
    [remove_done] returns, host after host in the order of [clients], one
    entry for each container whose name has [defunct-fastlane-job] in it,
    with the address of the host, the name, the id and the first tag of the
    image. Afterwards the hosts of the pool have their other containers, in
    the same order, and no container with such a name; a host that is not
    in the pool has what it had. *)
Theorem remove_done_removes_the_defunct pool s :
  faults s = [] →
  NoDup (map (λ x : host_client, x.2) (dict_values (clients pool))) →
  (∀ h p cl, (h, p, cl) ∈ dict_values (clients pool) →
     NoDup (map c_id (host_containers s cl)) ∧
     ∀ c, c ∈ host_containers s cl → defunct c = true → c_repo_tags c ≠ []) →
  ∃ s',
    remove_done pool s
      = (Ret (concat (map (λ '(h, p, cl),
                             map (removed_entry h p)
                                 (filter (λ c, defunct c = true) (host_containers s cl)))
                          (dict_values (clients pool)))), s') ∧
    (∀ h p cl, (h, p, cl) ∈ dict_values (clients pool) →
       host_containers s' cl = filter (λ c, defunct c = false) (host_containers s cl)) ∧
    (∀ cl, cl ∉ map (λ x : host_client, x.2) (dict_values (clients pool)) →
       host_containers s' cl = host_containers s cl).
Proof.
  intros Hq Hnd Hhosts.
  destruct (remove_from_hosts _ s Hq Hnd Hhosts) as (s' & Hloop & _ & Hcs & Hout).
  exists s'. split; [|by split].
  unfold remove_done. by rewrite (bind_ret _ _ _ _ _ Hloop).
Qed.

(** ** Blacklisted hosts are left alone *)

Lemma refresh_circuits_all_blacklisted cls (bl : gset string) s :
  Forall (λ c : host_client, address c.1.1 c.1.2 ∈ bl) cls →
  refresh_circuits cls bl s = (Ret tt, s).
Proof.
  induction 1 as [|[[h p] cl] cls Hc _ IH]; simpl; [done|].
  by rewrite decide_True.
Qed.

Lemma filter_clients_all_blacklisted cls (bl : gset string) s :
  Forall (λ c : host_client, address c.1.1 c.1.2 ∈ bl) cls →
  filter_clients cls bl s = (Ret [], s).
Proof.
  induction 1 as [|[[h p] cl] cls Hc _ IH]; simpl; [done|].
  by rewrite decide_True.
Qed.

(** X21. When every host of every farm that matches the task id is in the
    blacklist given, [get_client] asks no host and creates no breaker: it
    raises [RuntimeError] and the state is as it was. The probe of
    [refresh_circuits] and the breaker lookup of the filter are both behind
    the blacklist test. *)
Theorem blacklisted_hosts_are_not_probed pool task_id (bl : gset string) s :
  Forall (λ farm : option string * list host_client,
            farm_skipped farm.1 task_id = false →
            Forall (λ c : host_client, address c.1.1 c.1.2 ∈ bl) farm.2)
         (clients_per_regex pool) →
  get_client pool task_id None None (Some bl) s
    = (Raise (RuntimeError (no_host_msg task_id)), s).
Proof.
  intros H. unfold get_client. simpl.
  apply bind_raise.
  induction H as [|[regex cls] farms Hfarm _ IH]; simpl; [done|].
  destruct (farm_skipped regex task_id) eqn:Hskip; [done|].
  specialize (Hfarm Hskip). simpl in Hfarm.
  rewrite (bind_ret _ _ _ _ _ (refresh_circuits_all_blacklisted cls bl s Hfarm)).
  by rewrite (bind_ret _ _ _ _ _ (filter_clients_all_blacklisted cls bl s Hfarm)).
Qed.

(** ** From [mark_as_done] to [remove_done] *)

Lemma mark_as_done_quiet pool task_id s host port cl cid c :
  faults s = [] →
  bound_to pool s host port cl →
  metadata s !! "container_id" = Some cid →
  find (has_id (fmt cid)) (host_containers s cl) = Some c →
  existsb (has_name ("defunct-" +:+ c_name c)) (host_containers s cl) = false →
  ∃ s', mark_as_done pool task_id s = (Ret tt, s') ∧
        faults s' = [] ∧
        host_containers s' cl
          = update_container (fmt cid) (with_name ("defunct-" +:+ c_name c))
                             (host_containers s cl) ∧
        ∀ cl', cl' ≠ cl → host_containers s' cl' = host_containers s cl'.
Proof.
  intros Hq (h & p & Hh & Hp & Hc) Hcid Hfind Hfree.
  destruct (bound_client pool task_id s h p host port cl Hh Hp Hc) as (Hg1 & Hg2 & Hg3).
  unfold mark_as_done.
  rewrite (bind_ret _ _ _ _ _ Hg1), (bind_ret _ _ _ _ _ Hg2), (bind_ret _ _ _ _ _ Hg3).
  rewrite (bind_ret _ _ _ _ _ (getitem_spec _ _ _ Hcid)).
  destruct (engine_call_quiet cl
              (λ cs, match find (has_id (fmt cid)) cs with
                     | Some c => (Ret c, cs)
                     | None => (Raise (NotFound (fmt cid)), cs)
                     end) s (Ret c) (host_containers s cl) Hq)
    as (s1 & Hget & Hq1 & Hcs1); [cbv beta; by rewrite Hfind|].
  pose proof (find_has_id _ _ _ Hfind) as Hid.
  assert (∀ cl', host_containers s1 cl' = host_containers s cl') as Hsame.
  { intros cl'. rewrite Hcs1. by destruct (decide (cl' = cl)) as [->|]. }
  destruct (engine_call_quiet cl
              (λ cs, match find (has_id (c_id c)) cs with
                     | Some c0 =>
                         if existsb (has_name ("defunct-" +:+ c_name c)) cs
                         then (Raise (APIError ("Conflict: " +:+ ("defunct-" +:+ c_name c))), cs)
                         else (Ret tt, update_container (c_id c)
                                          (with_name ("defunct-" +:+ c_name c)) cs)
                     | None => (Raise (NotFound (c_id c)), cs)
                     end) s1 (Ret tt)
              (update_container (c_id c) (with_name ("defunct-" +:+ c_name c))
                                (host_containers s1 cl)) Hq1)
    as (s2 & Hren & Hq2 & Hcs2).
  { cbv beta. rewrite Hsame, Hid, Hfind. by rewrite Hfree. }
  exists s2. split; [|split; [done|split]].
  - unfold try_except, containers_get.
    rewrite (bind_ret _ _ _ _ _ Hget).
    unfold container_rename, on_container. by rewrite Hren.
  - by rewrite Hcs2, decide_True, Hsame, Hid.
  - intros cl' Hne. by rewrite Hcs2, decide_False, Hsame.
Qed.

Lemma defunct_job_name execution_id c n :
  c_name c = job_prefix +:+ "-" +:+ execution_id →
  defunct (with_name ("defunct-" +:+ c_name c) n) = true.
Proof.
  intros ->. unfold defunct. simpl. unfold is_substring.
  destruct execution_id; reflexivity.
Qed.

Lemma dict_get_values {V} (d : list (string * V)) k v :
  dict_get d k = Some v → v ∈ dict_values d.
Proof.
  unfold dict_values. induction d as [|[k0 v0] d IH]; simpl; [done|].
  destruct (decide (k0 = k)); [intros [= ->]; by left | right; by apply IH].
Qed.

Lemma update_container_ids cid f cs :
  (∀ c, c_id (f c) = c_id c) →
  map c_id (update_container cid f cs) = map c_id cs.
Proof.
  intros Hf. unfold update_container. rewrite map_map. apply map_ext.
  intros c. by destruct (has_id cid c).
Qed.

Lemma elem_of_update_container cid f cs c' :
  c' ∈ update_container cid f cs →
  ∃ c0, c0 ∈ cs ∧ ((c_id c0 = cid ∧ c' = f c0) ∨ (c_id c0 ≠ cid ∧ c' = c0)).
Proof.
  unfold update_container. intros H. apply list_elem_of_fmap in H as (c0 & -> & Hc0).
  exists c0. split; [done|]. unfold has_id.
  destruct (decide (c_id c0 = cid)) as [Heq|Hne].
  - left. by rewrite bool_decide_true.
  - right. by rewrite bool_decide_false.
Qed.

(** X22. A container that [run] named [fastlane-job-{execution_id}] and
    that [mark_as_done] has renamed is removed by the next [remove_done]:
    on hosts that answer, with distinct ids on each host and a tag on every
    image concerned, [mark_as_done] followed by [remove_done] reports the
    container of the execution, under its defunct name, and leaves no
    container with its id on the host, while the containers of that host
    that have another id and no defunct name stay. *)
Theorem marked_container_is_removed pool task_id execution_id s host port cl cid c :
  faults s = [] →
  bound_to pool s host port cl →
  metadata s !! "container_id" = Some cid →
  find (has_id (fmt cid)) (host_containers s cl) = Some c →
  c_name c = job_prefix +:+ "-" +:+ execution_id →
  c_repo_tags c ≠ [] →
  existsb (has_name ("defunct-" +:+ c_name c)) (host_containers s cl) = false →
  NoDup (map (λ x : host_client, x.2) (dict_values (clients pool))) →
  (∀ h p cl', (h, p, cl') ∈ dict_values (clients pool) →
     NoDup (map c_id (host_containers s cl')) ∧
     ∀ c', c' ∈ host_containers s cl' → defunct c' = true → c_repo_tags c' ≠ []) →
  ∃ s1 removed s2,
    mark_as_done pool task_id s = (Ret tt, s1) ∧
    remove_done pool s1 = (Ret removed, s2) ∧
    removed_entry host port (with_name ("defunct-" +:+ c_name c) c) ∈ removed ∧
    (∀ c', c' ∈ host_containers s2 cl → c_id c' ≠ fmt cid) ∧
    (∀ c', c' ∈ host_containers s cl → defunct c' = false → c_id c' ≠ fmt cid →
           c' ∈ host_containers s2 cl).
Proof.
  intros Hq Hbound Hcid Hfind Hname Htags Hfree Hnd Hhosts.
  destruct (mark_as_done_quiet pool task_id s host port cl cid c Hq Hbound Hcid Hfind Hfree)
    as (s1 & Hmark & Hq1 & Hcs1 & Hne1).
  assert ((host, port, cl) ∈ dict_values (clients pool)) as Hclient.
  { destruct Hbound as (h & p & _ & _ & Hc). by apply dict_get_values in Hc. }
  pose proof (find_has_id _ _ _ Hfind) as Hid.
  assert (c ∈ host_containers s cl) as Hc.
  { apply find_some in Hfind as [Hin _]. by apply list_elem_of_In. }
  destruct (Hhosts host port cl Hclient) as [Hids _].
  assert (∀ c', c' ∈ host_containers s1 cl →
            (c' = with_name ("defunct-" +:+ c_name c) c) ∨
            (c' ∈ host_containers s cl ∧ c_id c' ≠ fmt cid)) as Hcases.
  { intros c' Hc'. rewrite Hcs1 in Hc'.
    apply elem_of_update_container in Hc' as (c0 & Hc0 & [[Heq ->]|[Hne ->]]).
    - left. f_equal. apply (NoDup_map_inj c_id (host_containers s cl)); try done.
      by rewrite Hid.
    - by right. }
  destruct (remove_from_hosts (dict_values (clients pool)) s1 Hq1 Hnd)
    as (s2 & Hloop & _ & Hcs2 & _).
  { intros h p cl' Hin. destruct (Hhosts h p cl' Hin) as [Hids' Htags'].
    destruct (decide (cl' = cl)) as [->|Hne]; [|by rewrite (Hne1 cl' Hne)].
    split.
    - rewrite Hcs1, update_container_ids; done.
    - intros c' Hc' Hdef. destruct (Hcases c' Hc') as [->|[Hin' _]]; [done|].
      by apply Htags'. }
  exists s1, (concat (map (λ '(h, p, cl),
                             map (removed_entry h p)
                                 (filter (λ c, defunct c = true) (host_containers s1 cl)))
                          (dict_values (clients pool)))), s2.
  split; [done|]. split; [|split; [|split]].
  - unfold remove_done. by rewrite (bind_ret _ _ _ _ _ Hloop).
  - apply list_elem_of_In, in_concat.
    exists (map (removed_entry host port)
                (filter (λ c, defunct c = true) (host_containers s1 cl))).
    split; apply list_elem_of_In.
    + apply list_elem_of_fmap. by exists (host, port, cl).
    + apply list_elem_of_fmap. eexists. split; [done|].
      apply list_elem_of_filter. split; [by apply (defunct_job_name execution_id)|].
      rewrite Hcs1. unfold update_container. apply list_elem_of_fmap.
      exists c. split; [|done]. unfold has_id. by rewrite bool_decide_true.
  - intros c' Hc'. rewrite (Hcs2 host port cl Hclient) in Hc'.
    apply list_elem_of_filter in Hc' as [Hdef Hc'].
    destruct (Hcases c' Hc') as [->|[_ Hne]]; [|done].
    by rewrite (defunct_job_name execution_id) in Hdef.
  - intros c' Hc' Hdef Hne. rewrite (Hcs2 host port cl Hclient).
    apply list_elem_of_filter. split; [done|].
    rewrite Hcs1. by apply elem_of_update_container_other.
Qed.

(** ** Logs *)

(** A request about a container that only reads, on a host that answers. *)
Lemma on_container_read_quiet {A} cl cid (g : container → A) s c :
  faults s = [] →
  find (has_id cid) (host_containers s cl) = Some c →
  ∃ s', on_container cl cid (λ c cs, (Ret (g c), cs)) s = (Ret (g c), s') ∧
        faults s' = [] ∧
        ∀ cl', host_containers s' cl' = host_containers s cl'.
Proof.
  intros Hq Hfind. unfold on_container.
  destruct (engine_call_quiet cl
              (λ cs, match find (has_id cid) cs with
                     | Some c => (Ret (g c), cs)
                     | None => (Raise (NotFound cid), cs)
                     end) s (Ret (g c)) (host_containers s cl) Hq)
    as (s1 & Hcall & Hq1 & Hcs1); [cbv beta; by rewrite Hfind|].
  exists s1. split; [exact Hcall|]. split; [done|].
  intros cl'. rewrite Hcs1. by destruct (decide (cl' = cl)) as [->|].
Qed.

(** The loop of [get_streaming_logs] over chunks that decode. *)
Lemma stream_chunks_quiet cl chunks texts : ∀ s,
  faults s = [] →
  Forall2 (λ chunk text, decode chunk = Some text) chunks texts →
  ∃ s', for_each (λ chunk, raw ← stream_next cl chunk; decode_utf8 raw) chunks s
          = (Ret texts, s') ∧
        faults s' = [] ∧
        ∀ cl', host_containers s' cl' = host_containers s cl'.
Proof.
  intros s Hq H. revert s Hq.
  induction H as [|chunk text chunks texts Hd _ IH]; intros s Hq.
  - by exists s.
  - destruct (engine_call_quiet cl (λ cs, (Ret chunk, cs)) s _ _ Hq eq_refl)
      as (s1 & Hnext & Hq1 & Hcs1).
    destruct (IH s1 Hq1) as (s2 & Hloop & Hq2 & Hcs2).
    exists s2. split; [|split; [done|]].
    + assert ((raw ← stream_next cl chunk; decode_utf8 raw) s = (Ret text, s1)) as Hbody.
      { unfold stream_next. rewrite (bind_ret _ _ _ _ _ Hnext).
        unfold decode_utf8. by rewrite Hd. }
      cbn [for_each].
      by rewrite (bind_ret _ _ _ _ _ Hbody), (bind_ret _ _ _ _ _ Hloop).
    + intros cl'. rewrite Hcs2, Hcs1. by destruct (decide (cl' = cl)) as [->|].
Qed.

Lemma decode_chunks chunks texts :
  decode [] = Some EmptyString →
  (∀ a b x y, decode a = Some x → decode b = Some y → decode (a ++ b) = Some (x +:+ y)) →
  Forall2 (λ chunk text, decode chunk = Some text) chunks texts →
  decode (concat chunks) = Some (foldr String.app EmptyString texts).
Proof.
  intros Hnil Happ. induction 1 as [|chunk text chunks texts Hd _ IH]; simpl; [done|].
  by apply Happ.
Qed.

(** X23. On a host that answers, [get_streaming_logs] yields the chunks of
    the bound container's output, each decoded on its own, in order, and
    [get_current_logs] returns the whole output decoded at once, or raises
    [UnicodeDecodeError]; the hosts keep their containers. When decoding
    goes through concatenation, as it does for chunks that are valid UTF-8,
    what [get_current_logs] returns is what [get_streaming_logs] yields,
    joined. *)
Theorem streamed_logs_join_to_current_logs pool task_id s host port cl cid c texts :
  faults s = [] →
  bound_to pool s host port cl →
  metadata s !! "container_id" = Some cid →
  find (has_id (fmt cid)) (host_containers s cl) = Some c →
  Forall2 (λ chunk text, decode chunk = Some text) (log_chunks true true c) texts →
  (∃ s', get_streaming_logs pool task_id s = (Ret texts, s') ∧
         ∀ cl', host_containers s' cl' = host_containers s cl') ∧
  (∃ s', get_current_logs pool task_id s
           = (match decode (log_bytes true true c) with
              | Some text => Ret text
              | None => Raise UnicodeDecodeError
              end, s') ∧
         ∀ cl', host_containers s' cl' = host_containers s cl') ∧
  (decode [] = Some EmptyString →
   (∀ a b x y, decode a = Some x → decode b = Some y →
               decode (a ++ b) = Some (x +:+ y)) →
   ∃ s', get_current_logs pool task_id s
           = (Ret (foldr String.app EmptyString texts), s')).
Proof.
  intros Hq (h & p & Hh & Hp & Hc) Hcid Hfind Htexts.
  destruct (bound_client pool task_id s h p host port cl Hh Hp Hc) as (Hg1 & Hg2 & Hg3).
  pose proof (find_has_id _ _ _ Hfind) as Hid.
  destruct (on_container_read_quiet cl (fmt cid) (λ c, c) s c Hq Hfind)
    as (s1 & Hget & Hq1 & Hcs1).
  assert (find (has_id (c_id c)) (host_containers s1 cl) = Some c) as Hfind1.
  { by rewrite Hcs1, Hid. }
  assert (∃ s', get_current_logs pool task_id s
                  = (match decode (log_bytes true true c) with
                     | Some text => Ret text
                     | None => Raise UnicodeDecodeError
                     end, s') ∧
                ∀ cl', host_containers s' cl' = host_containers s cl') as Hcurrent.
  { destruct (on_container_read_quiet cl (c_id c) (log_bytes true true) s1 c Hq1 Hfind1)
      as (s2 & Hlogs & Hq2 & Hcs2).
    exists s2. split; [|intros cl'; by rewrite Hcs2, Hcs1].
    unfold get_current_logs.
    rewrite (bind_ret _ _ _ _ _ Hg1), (bind_ret _ _ _ _ _ Hg2), (bind_ret _ _ _ _ _ Hg3).
    rewrite (bind_ret _ _ _ _ _ (getitem_spec _ _ _ Hcid)).
    unfold containers_get. fold (on_container cl (fmt cid) (λ c cs, (Ret c, cs))).
    rewrite (bind_ret _ _ _ _ _ Hget). unfold container_logs.
    rewrite (bind_ret _ _ _ _ _ Hlogs). unfold decode_utf8.
    by destruct (decode (log_bytes true true c)). }
  split; [|split; [exact Hcurrent|]].
  - destruct (on_container_read_quiet cl (c_id c) (log_chunks true true) s1 c Hq1 Hfind1)
      as (s2 & Hstream & Hq2 & Hcs2).
    destruct (stream_chunks_quiet cl _ _ s2 Hq2 Htexts) as (s3 & Hloop & Hq3 & Hcs3).
    exists s3. split; [|intros cl'; by rewrite Hcs3, Hcs2, Hcs1].
    unfold get_streaming_logs.
    rewrite (bind_ret _ _ _ _ _ Hg1), (bind_ret _ _ _ _ _ Hg2), (bind_ret _ _ _ _ _ Hg3).
    rewrite (bind_ret _ _ _ _ _ (getitem_spec _ _ _ Hcid)).
    unfold try_except, containers_get.
    fold (on_container cl (fmt cid) (λ c cs, (Ret c, cs))).
    rewrite (bind_ret _ _ _ _ _ Hget). unfold container_logs_stream.
    rewrite (bind_ret _ _ _ _ _ Hstream). by rewrite Hloop.
  - intros Hnil Happ. destruct Hcurrent as (s' & Hcur & _). exists s'.
    rewrite Hcur. unfold log_bytes. by rewrite (decode_chunks _ _ Hnil Happ Htexts).
Qed.

(** ** A probe that fails below the threshold *)

Lemma refresh_circuits_skips skipped cls (bl : gset string) s :
  Forall (λ c : host_client, address c.1.1 c.1.2 ∈ bl) skipped →
  refresh_circuits (skipped ++ cls) bl s = refresh_circuits cls bl s.
Proof.
  induction 1 as [|[[h p] cl] skipped Hc _ IH]; simpl; [done|].
  by rewrite decide_True.
Qed.

Lemma ps_refused cl s :
  head (faults s) = Some Refused →
  ps cl s = (Raise (ConnectionError cl), set_faults (tail (faults s)) s).
Proof.
  intros H. unfold ps, containers_list. apply bind_raise. by apply engine_call_refused.
Qed.

(** The probe of the first host of a farm that is not blacklisted, refused
    while its breaker is closed and stays below [fail_max]. *)
Lemma refresh_circuits_refused skipped h p cl rest (bl : gset string) s :
  Forall (λ c : host_client, address c.1.1 c.1.2 ∈ bl) skipped →
  address h p ∉ bl →
  b_state (breaker_of (address h p) s) = closed →
  (fail_counter (breaker_of (address h p) s) + 1 < fail_max s)%Z →
  head (faults s) = Some Refused →
  ∃ s', refresh_circuits (skipped ++ (h, p, cl) :: rest) bl s
          = (Raise (ConnectionError cl), s') ∧
        fail_counter (breaker_of (address h p) s')
          = (fail_counter (breaker_of (address h p) s) + 1)%Z ∧
        b_state (breaker_of (address h p) s') = closed.
Proof.
  intros Hskipped Hbl Hclosed Hbelow Hfault.
  rewrite (refresh_circuits_skips _ _ _ _ Hskipped). simpl.
  rewrite decide_False by done.
  destruct (get_circuit_breaker (address h p) s) as (s1 & Hg & Ho & Hb).
  pose proof Ho as (_ & _ & Hf1 & _ & _ & _ & _ & Hmax1 & _).
  destruct (circuit_call_failure (address h p) (ps cl) s1 (ConnectionError cl))
    as (s0 & s2 & e' & s' & Hcall & _ & _ & _ & Hcount & _ & Hsame).
  { apply admits_closed. by rewrite Hb. }
  { intros s0 (_ & _ & Hf0 & _). exists (set_faults (tail (faults s0)) s0).
    split; [|done]. apply ps_refused. by rewrite Hf0, Hf1. }
  destruct Hsame as [-> Hclosed']; [by rewrite Hb | by rewrite Hb, Hmax1|].
  exists s'. split; [|split; [by rewrite Hcount, Hb | done]].
  apply bind_raise. unfold try_except.
  by rewrite (bind_ret _ _ _ _ _ Hg), Hcall.
Qed.

(** X24. The probe that [refresh_circuits] makes before a selection is
    inside a breaker call but outside any [except] clause for connection
    errors: when the first host of the first matching farm that is not
    blacklisted refuses the connection, its breaker being closed and the
    failure not reaching [fail_max], [get_client] raises the connection
    error itself, and so does [update_image], which has not entered its
    [try] yet. The failure is counted on that host's breaker, which stays
    closed. *)
Theorem refused_probe_escapes_selection
    pool task_id image tag (bl : gset string) s pre regex skipped h p cl rest post :
  clients_per_regex pool = pre ++ (regex, skipped ++ (h, p, cl) :: rest) :: post →
  Forall (λ farm, farm_skipped farm.1 task_id = true) pre →
  farm_skipped regex task_id = false →
  Forall (λ c : host_client, address c.1.1 c.1.2 ∈ bl) skipped →
  address h p ∉ bl →
  b_state (breaker_of (address h p) s) = closed →
  (fail_counter (breaker_of (address h p) s) + 1 < fail_max s)%Z →
  head (faults s) = Some Refused →
  ∃ s', get_client pool task_id None None (Some bl) s = (Raise (ConnectionError cl), s') ∧
        update_image pool task_id image tag (Some bl) s = (Raise (ConnectionError cl), s') ∧
        fail_counter (breaker_of (address h p) s')
          = (fail_counter (breaker_of (address h p) s) + 1)%Z ∧
        b_state (breaker_of (address h p) s') = closed.
Proof.
  intros Hfarms Hpre Hmatch Hskipped Hbl Hclosed Hbelow Hfault.
  destruct (refresh_circuits_refused skipped h p cl rest bl s
              Hskipped Hbl Hclosed Hbelow Hfault) as (s' & Hrefresh & Hcount & Hclosed').
  assert (get_client pool task_id None None (Some bl) s = (Raise (ConnectionError cl), s'))
    as Hget.
  { unfold get_client. apply bind_raise. rewrite Hfarms, select_client_skips by done.
    simpl. rewrite Hmatch. by apply bind_raise. }
  exists s'. split; [done|]. split; [|done].
  unfold update_image. simpl. unfold mbind at 1, M_bind at 1, mret at 1, M_ret at 1.
  apply bind_raise. by apply bind_raise.
Qed.

(** ** A breaker that closes again *)

Lemma ps_calm cl s :
  calm 1 s = true →
  ∃ s', ps cl s = (Ret tt, s') ∧ circuits s' = circuits s.
Proof.
  intros Hcalm. apply calm_S in Hcalm as [Hhead _].
  unfold ps, containers_list, engine_call, mbind, M_bind, mret, M_ret.
  destruct Hhead as [-> | ->]; simpl; by eexists.
Qed.

Lemma filter_blacklisted (bl : gset string) s cls :
  Forall (λ c : host_client, address c.1.1 c.1.2 ∈ bl) cls →
  List.filter (eligible bl s) cls = [].
Proof.
  induction 1 as [|[[h p] cl] cls Hc _ IH]; simpl; [done|].
  by rewrite bool_decide_eq_false_2 by (intros Hn; by apply Hn).
Qed.

(** X25. [refresh_circuits] is what lets a host come back: when the only
    host of the first matching farm that is not blacklisted has a breaker
    that lets a call through (closed, half-open, or open with its reset
    timeout elapsed) and the host answers the probe, [get_client] returns
    that host and leaves its breaker closed. The blacklisted hosts of the
    farm are not asked. *)
Theorem open_breaker_recovers_through_probe
    pool task_id (bl : gset string) s pre regex before h p cl after post :
  clients_per_regex pool = pre ++ (regex, before ++ (h, p, cl) :: after) :: post →
  Forall (λ farm, farm_skipped farm.1 task_id = true) pre →
  farm_skipped regex task_id = false →
  Forall (λ c : host_client, address c.1.1 c.1.2 ∈ bl) before →
  Forall (λ c : host_client, address c.1.1 c.1.2 ∈ bl) after →
  address h p ∉ bl →
  admits (address h p) s = true →
  calm 1 s = true →
  ∃ s', get_client pool task_id None None (Some bl) s = (Ret (Some (h, p, cl)), s') ∧
        b_state (breaker_of (address h p) s') = closed.
Proof.
  intros Hfarms Hpre Hmatch Hbefore Hafter Hbl Hadm Hcalm.
  destruct (get_circuit_breaker (address h p) s) as (s1 & Hg & Ho1 & Hb1).
  pose proof Ho1 as (_ & _ & _ & _ & Hnow1 & _ & _ & _ & Hto1).
  destruct (circuit_call_closes (address h p) (ps cl) s1) as (s0 & Ho0 & Hcall).
  { by rewrite (admits_ext _ s s1). }
  destruct (ps_calm cl s0) as (s2 & Hps & Hc2).
  { by rewrite (calm_only_circuits 1 s1 s0), (calm_only_circuits 1 s s1). }
  destruct (Hcall tt s2 Hps Hc2) as (s3 & Hcc & _ & Hclosed).
  assert (refresh_circuits (before ++ (h, p, cl) :: after) bl s = (Ret tt, s3)) as Hrefresh.
  { rewrite (refresh_circuits_skips _ _ _ _ Hbefore). simpl.
    rewrite decide_False by done.
    assert (try_except (circuit ← get_circuit (address h p); circuit_call circuit (ps cl))
              (λ e, match e with
                    | CircuitBreakerError _ => Some (mret tt)
                    | _ => None
                    end) s = (Ret tt, s3)) as Htry.
    { unfold try_except. by rewrite (bind_ret _ _ _ _ _ Hg), Hcc. }
    rewrite (bind_ret _ _ _ _ _ Htry).
    by apply refresh_circuits_all_blacklisted. }
  destruct (filter_clients_spec (before ++ (h, p, cl) :: after) bl s3)
    as (s4 & Hfilter & Hb4 & _).
  assert (List.filter (eligible bl s3) (before ++ (h, p, cl) :: after) = [(h, p, cl)])
    as Heligible.
  { rewrite List.filter_app, (filter_blacklisted _ _ _ Hbefore). simpl.
    rewrite (filter_blacklisted _ _ _ Hafter).
    rewrite bool_decide_eq_true_2 by done. unfold breaker_state.
    fold (breaker_of (address h p) s3). by rewrite Hclosed. }
  rewrite Heligible in Hfilter.
  destruct (random_choice_total [(h, p, cl)] s4 ltac:(done)) as (c & Hchoice).
  pose proof (random_choice_spec _ _ _ _ Hchoice) as (Hc & Hcirc & _).
  apply list_elem_of_singleton in Hc as ->.
  exists (set_rand (tail (rand s4)) s4). split.
  - unfold get_client. rewrite Hfarms.
    assert (select_client (pre ++ (regex, before ++ (h, p, cl) :: after) :: post)
              task_id bl s = (Ret (h, p, cl), set_rand (tail (rand s4)) s4)) as Hsel.
    { rewrite select_client_skips by done. simpl. rewrite Hmatch.
      rewrite (bind_ret _ _ _ _ _ Hrefresh), (bind_ret _ _ _ _ _ Hfilter).
      by rewrite (bind_ret _ _ _ _ _ Hchoice). }
    by rewrite (bind_ret _ _ _ _ _ Hsel).
  - specialize (Hb4 (address h p)). unfold breaker_state in Hb4.
    unfold breaker_of in *. simpl. by rewrite Hb4.
Qed.

(** ** A probe that opens the breaker *)

(** The failure that reaches [fail_max] on a closed breaker. *)
Lemma circuit_call_trips {A} c (func : M A) s e s1 :
  b_state (breaker_of c s) = closed →
  func s = (Raise e, s1) →
  circuits s1 = circuits s →
  fail_max s1 = fail_max s →
  (fail_max s ≤ fail_counter (breaker_of c s) + 1)%Z →
  ∃ s', circuit_call c func s
          = (Raise (CircuitBreakerError "Failures threshold reached, circuit breaker opened"),
             s') ∧
        only_circuits s1 s' ∧
        b_state (breaker_of c s') = open.
Proof.
  intros Hst Hf Hc Hfm Hmax.
  unfold circuit_call, read_breaker, get_state, mbind at 1 2, M_bind at 1 2.
  fold (breaker_of c s). rewrite Hst.
  unfold guarded_call. rewrite Hf.
  unfold handle_error, read_breaker, write_breaker, breaker_open, get_state, modify, raise,
    mbind, M_bind. simpl. fold (breaker_of c s1).
  assert (breaker_of c s1 = breaker_of c s) as Hb by (unfold breaker_of; by rewrite Hc).
  rewrite Hb, Hfm. rewrite decide_True by done.
  eexists. split; [reflexivity|]. split; [by repeat split|].
  by repeat (rewrite ?breaker_of_insert, ?lookup_insert_eq; simpl).
Qed.

(** X26. The refused probe that brings the failures of a closed breaker to
    [fail_max] opens it, and [refresh_circuits] catches the
    [CircuitBreakerError]: when that host is the only one of the first
    matching farm that is not blacklisted, [get_client] passes the farm over
    and goes on with the farms after it, the breaker being open; with no
    farm left it raises [RuntimeError]. *)
Theorem refused_probe_at_threshold_passes_farm_over
    pool task_id (bl : gset string) s pre regex before h p cl after post :
  clients_per_regex pool = pre ++ (regex, before ++ (h, p, cl) :: after) :: post →
  Forall (λ farm, farm_skipped farm.1 task_id = true) pre →
  farm_skipped regex task_id = false →
  Forall (λ c : host_client, address c.1.1 c.1.2 ∈ bl) before →
  Forall (λ c : host_client, address c.1.1 c.1.2 ∈ bl) after →
  address h p ∉ bl →
  b_state (breaker_of (address h p) s) = closed →
  (fail_max s ≤ fail_counter (breaker_of (address h p) s) + 1)%Z →
  head (faults s) = Some Refused →
  ∃ s', b_state (breaker_of (address h p) s') = open ∧
        get_client pool task_id None None (Some bl) s
          = (c ← select_client post task_id bl; mret (Some c)) s' ∧
        (post = [] →
         get_client pool task_id None None (Some bl) s
           = (Raise (RuntimeError (no_host_msg task_id)), s')).
Proof.
  intros Hfarms Hpre Hmatch Hbefore Hafter Hbl Hclosed Hmax Hfault.
  destruct (get_circuit_breaker (address h p) s) as (s1 & Hg & Ho1 & Hb1).
  pose proof Ho1 as (_ & _ & Hf1 & _ & _ & _ & _ & Hmax1 & _).
  destruct (circuit_call_trips (address h p) (ps cl) s1 (ConnectionError cl)
              (set_faults (tail (faults s1)) s1))
    as (s3 & Hcc & _ & Hopen); [by rewrite Hb1 | | done | done | by rewrite Hb1, Hmax1 |].
  { apply ps_refused. by rewrite Hf1. }
  assert (refresh_circuits (before ++ (h, p, cl) :: after) bl s = (Ret tt, s3)) as Hrefresh.
  { rewrite (refresh_circuits_skips _ _ _ _ Hbefore). simpl.
    rewrite decide_False by done.
    assert (try_except (circuit ← get_circuit (address h p); circuit_call circuit (ps cl))
              (λ e, match e with
                    | CircuitBreakerError _ => Some (mret tt)
                    | _ => None
                    end) s = (Ret tt, s3)) as Htry.
    { unfold try_except. by rewrite (bind_ret _ _ _ _ _ Hg), Hcc. }
    rewrite (bind_ret _ _ _ _ _ Htry).
    by apply refresh_circuits_all_blacklisted. }
  destruct (filter_clients_spec (before ++ (h, p, cl) :: after) bl s3)
    as (s4 & Hfilter & Hb4 & _).
  assert (List.filter (eligible bl s3) (before ++ (h, p, cl) :: after) = []) as Heligible.
  { rewrite List.filter_app, (filter_blacklisted _ _ _ Hbefore). simpl.
    rewrite (filter_blacklisted _ _ _ Hafter).
    rewrite bool_decide_eq_true_2 by done. unfold breaker_state.
    fold (breaker_of (address h p) s3). by rewrite Hopen. }
  rewrite Heligible in Hfilter.
  assert (get_client pool task_id None None (Some bl) s
          = (c ← select_client post task_id bl; mret (Some c)) s4) as Hget.
  { assert (select_client (pre ++ (regex, before ++ (h, p, cl) :: after) :: post)
              task_id bl s = select_client post task_id bl s4) as Hsel.
    { rewrite select_client_skips by done. simpl. rewrite Hmatch.
      by rewrite (bind_ret _ _ _ _ _ Hrefresh), (bind_ret _ _ _ _ _ Hfilter). }
    unfold get_client. rewrite Hfarms. simpl. unfold mbind, M_bind. by rewrite Hsel. }
  exists s4. split; [|split; [exact Hget|]].
  - specialize (Hb4 (address h p)). unfold breaker_state in Hb4.
    unfold breaker_of in *. by rewrite Hb4.
  - intros ->. by rewrite Hget.
Qed.
End Executor.

Arguments status {datetime} e.
Arguments exit_code {datetime} e.
Arguments error {datetime} e.
Arguments started_at {datetime} e.
Arguments finished_at {datetime} e.
Arguments log {datetime} e.

(** * The properties on the small installation *)

(** With [h1] blacklisted, a task that only the second farm takes is given
    [h2], whose breaker is closed. *)
Lemma selection_avoids_blacklist_witness :
  (address "h2" 2375 ∉ default ∅ (Some ({["h1:2375"]} : gset string))) ∧
  breaker_state (address "h2" 2375)
    (snd (get_client literal_match sample_pool "web-1" None None
            (Some {["h1:2375"]}) fresh)) = closed.
Proof.
  apply (selection_avoids_blacklist_and_open_breakers literal_match sample_pool "web-1"
           None None (Some {["h1:2375"]}) fresh "h2" 2375 "h2:2375").
  - by left.
  - vm_compute. reflexivity.
Defined.

(** A [gpu-] task whose farm is blacklisted falls through to the second
    farm. *)
Lemma selection_takes_first_farm_witness :
  ∃ pre regex cls post s0 s1,
    clients_per_regex sample_pool = pre ++ (regex, cls) :: post ∧
    passed_over literal_match pre "gpu-42" (default ∅ (Some {["hgpu:2375"]})) fresh
      = Some s0 ∧
    (regex = None ∨ ∃ r, regex = Some r ∧ literal_match r "gpu-42" = true) ∧
    refresh_circuits cls (default ∅ (Some {["hgpu:2375"]})) s0 = (Ret tt, s1) ∧
    h1 ∈ List.filter (eligible (default ∅ (Some {["hgpu:2375"]})) s1) cls.
Proof.
  apply (selection_takes_first_farm_with_eligible_host literal_match sample_pool "gpu-42"
           None None (Some {["hgpu:2375"]}) fresh h1
           (snd (get_client literal_match sample_pool "gpu-42" None None
                   (Some {["hgpu:2375"]}) fresh))).
  - by left.
  - vm_compute. reflexivity.
Defined.

(** With every host of the matching farm blacklisted, selection raises. *)
Lemma selection_without_eligible_host_witness :
  get_client literal_match sample_pool "web-1" None None
    (Some {["h1:2375"; "h2:2375"]}) fresh
  = (Raise (RuntimeError "Failed to find a docker host for task id web-1."), fresh).
Proof.
  apply (selection_without_eligible_host_raises literal_match sample_pool "web-1"
           None None (Some {["h1:2375"; "h2:2375"]}) fresh fresh).
  - by left.
  - vm_compute. reflexivity.
Defined.

(** [get_result] on a container that exited. *)
Lemma get_result_finished_witness :
  ∃ h p cid host port cl c,
    metadata bound_state !! "docker_host" = Some h ∧
    metadata bound_state !! "docker_port" = Some p ∧
    metadata bound_state !! "container_id" = Some cid ∧
    dict_get (clients single_pool) (fmt h +:+ ":" +:+ fmt p) = Some (host, port, cl) ∧
    container_of cl (fmt cid) bound_state = Some c ∧
    Status.done = result_status (c_status c) ∧
    (is_Some (Some "2024-01-01T00:00:01Z") ∧ is_Some (Some (list_byte_of_string "out"))
       ↔ Status.done = Status.done ∨ Status.done = Status.failed) ∧
    (is_Some (Some "2024-01-01T00:00:01Z") ∨ is_Some (Some (list_byte_of_string "out"))
       → Status.done = Status.done ∨ Status.done = Status.failed) ∧
    (Status.done = Status.done ∨ Status.done = Status.failed →
       Some "2024-01-01T00:00:01Z" = parse_any (c_finished_at c) ∧
       Some (list_byte_of_string "out") = Some (log_bytes true false c) ∧
       Bytes (list_byte_of_string "err") =
         if decide (c_error c = EmptyString) then Bytes (log_bytes false true c)
         else Str (c_error c +:+ nl +:+ nl +:+ "stderr:" +:+ nl
                   +:+ bytes_repr (log_bytes false true c))) ∧
    (¬ (Status.done = Status.done ∨ Status.done = Status.failed) →
       Bytes (list_byte_of_string "err") = Str (c_error c)).
Proof.
  apply (get_result_finished_fields literal_match string parse_any single_pool "t"
           bound_state
           {| status := Status.done; exit_code := Some 0;
              error := Bytes (list_byte_of_string "err");
              started_at := Some "2024-01-01T00:00:00Z";
              finished_at := Some "2024-01-01T00:00:01Z";
              log := Some (list_byte_of_string "out") |}
           (snd (get_result literal_match string parse_any single_pool "t" bound_state))).
  vm_compute. reflexivity.
Defined.

(** Zero running containers against a maximum of zero. *)
Lemma capacity_ok_witness : capacity_ok 0 0 = bool_decide (0 ≤ 0)%Z.
Proof. apply (capacity_ok_is_le_on_naturals 0 0); lia. Defined.

(** C8 as stated fails: on non-negative integers the two comparisons never
    disagree. *)
Lemma capacity_check_agrees_on_naturals :
  ¬ ∃ total_running max_running : Z,
      (0 ≤ total_running)%Z ∧ (0 ≤ max_running)%Z ∧
      capacity_ok total_running max_running ≠ bool_decide (total_running ≤ max_running)%Z.
Proof.
  intros (t & m & Ht & Hm & Hne). apply capacity_ok_differs_iff in Hne. lia.
Qed.

(** An execution pulls its image and starts its container on [h1]; a second
    [update_image] is then refused by [h1]. The binding keeps the container
    and loses the host, and every later operation raises [KeyError]. *)
Lemma unbound_host_witness :
  let s1 := snd (update_image literal_match single_pool "t" "img" "v1" None
                   (set_faults [Healthy; Healthy; Healthy; Healthy; Refused] fresh)) in
  let s2 := snd (run literal_match single_pool "t" "e1" "img" "v1" "echo" [] None s1) in
  let s3 := snd (update_image literal_match single_pool "t" "img" "v1" None s2) in
  stop_job literal_match single_pool "t" s3 = (Raise (KeyError "docker_host"), s3) ∧
  get_result literal_match string parse_any single_pool "t" s3
    = (Raise (KeyError "docker_host"), s3) ∧
  get_current_logs literal_match decode_ascii single_pool "t" s3
    = (Raise (KeyError "docker_host"), s3) ∧
  get_streaming_logs literal_match decode_ascii single_pool "t" s3
    = (Raise (KeyError "docker_host"), s3) ∧
  mark_as_done literal_match single_pool "t" s3 = (Raise (KeyError "docker_host"), s3).
Proof.
  intros s1 s2 s3.
  apply (unbound_host_raises_KeyError literal_match string parse_any decode_ascii
           single_pool "t" s3).
  - vm_compute. reflexivity.
  - vm_compute. eexists. reflexivity.
Defined.

(** Marking the same execution as done twice. *)
Lemma mark_as_done_twice_witness :
  ∃ s1 s2 c1 c2,
    mark_as_done literal_match single_pool "t" bound_state = (Ret tt, s1) ∧
    container_of "h1:2375" "c1" s1 = Some c1 ∧
    c_name c1 = "defunct-fastlane-job-e1" ∧
    mark_as_done literal_match single_pool "t" s1 = (Ret tt, s2) ∧
    container_of "h1:2375" "c1" s2 = Some c2 ∧
    c_name c2 = "defunct-defunct-fastlane-job-e1" ∧
    c_name c2 ≠ c_name c1.
Proof.
  apply (mark_as_done_twice_prepends_twice literal_match single_pool "t" "e1" bound_state
           (PStr "h1") (PInt 2375) (PStr "c1") "h1" 2375 "h1:2375"
           [exited_container] exited_container); vm_compute; reflexivity.
Defined.

(** C3 as stated fails: [h1] refuses the connection of [stop_job], which
    raises [HostUnavailableError] and leaves [docker_host] and
    [docker_port] in the binding. *)
Lemma stop_job_keeps_binding_after_connection_failure :
  fst (stop_job literal_match single_pool "t" (set_faults [Refused] bound_state))
    = Raise (HostUnavailableError "h1" 2375 (ConnectionError "h1:2375")) ∧
  metadata (snd (stop_job literal_match single_pool "t" (set_faults [Refused] bound_state)))
    !! "docker_host" = Some (PStr "h1") ∧
  metadata (snd (stop_job literal_match single_pool "t" (set_faults [Refused] bound_state)))
    !! "docker_port" = Some (PInt 2375) ∧
  ¬ unbound (snd (stop_job literal_match single_pool "t" (set_faults [Refused] bound_state))).
Proof.
  split; [vm_compute; reflexivity|]. split; [vm_compute; reflexivity|].
  split; [vm_compute; reflexivity|]. intros [H _]. vm_compute in H. discriminate.
Qed.

(** A refused pull by [update_image], and a refused start by [run], with
    the host found in the binding or selected. *)
Lemma binding_after_connection_failure_witness :
  (∃ e s', update_image literal_match single_pool "t" "img" "v1" None
             (set_faults [Healthy; Refused] fresh) = (Raise e, s') ∧ unbound s') ∧
  (∃ e s', run literal_match single_pool "t" "e1" "img" "v1" "echo" [] None
             (set_faults [Refused] bound_state) = (Raise e, s') ∧ unbound s') ∧
  (∃ e s', run literal_match single_pool "t" "e1" "img" "v1" "echo" [] None
             (set_faults [Healthy; Refused] fresh) = (Raise e, s') ∧ unbound s') ∧
  keeps_metadata (stop_job literal_match single_pool "t").
Proof.
  destruct (connection_failure_clears_binding_of_update_image_and_run
              literal_match string parse_any decode_ascii single_pool "t")
    as (Hupdate & Hbound & Hselected & Hstop & _).
  split; [|split; [|split]].
  - apply (Hupdate "img" "v1" None (set_faults [Healthy; Refused] fresh) "h1" 2375 "h1:2375"
             (snd ((get_client literal_match single_pool "t" None None (Some ∅) ≫= unpack)
                     (set_faults [Healthy; Refused] fresh))));
      vm_compute; reflexivity.
  - apply (Hbound "e1" "img" "v1" "echo" [] None (set_faults [Refused] bound_state)
             "h1" 2375 "h1:2375").
    + exists (PStr "h1"), (PInt 2375). vm_compute. repeat split; reflexivity.
    + vm_compute. reflexivity.
    + vm_compute. reflexivity.
  - apply (Hselected "e1" "img" "v1" "echo" [] None (set_faults [Healthy; Refused] fresh)
             "h1" 2375 "h1:2375"
             (snd ((get_client literal_match single_pool "t" None None (Some ∅) ≫= unpack)
                     (set_faults [Healthy; Refused] fresh))));
      vm_compute; reflexivity.
  - exact Hstop.
Defined.

(** C4 as stated fails: [h1] refuses the connection of [get_current_logs],
    and the caller receives the connection error itself; no breaker has
    counted anything. *)
Lemma get_current_logs_raises_connection_error :
  fst (get_current_logs literal_match decode_ascii single_pool "t"
         (set_faults [Refused] bound_state))
    = Raise (ConnectionError "h1:2375") ∧
  (∀ host port err,
     fst (get_current_logs literal_match decode_ascii single_pool "t"
            (set_faults [Refused] bound_state))
       ≠ Raise (HostUnavailableError host port err)) ∧
  circuits (snd (get_current_logs literal_match decode_ascii single_pool "t"
                   (set_faults [Refused] bound_state)))
    = circuits bound_state.
Proof.
  split; [vm_compute; reflexivity|]. split; [|vm_compute; reflexivity].
  intros host port err H. vm_compute in H. discriminate.
Qed.

(** Refused connections on the small installation, method by method. *)
Lemma connection_failure_reaches_caller_witness :
  (∃ e s', update_image literal_match single_pool "t" "img" "v1" None
             (set_faults [Healthy; Refused] fresh) = (Raise e, s') ∧
           e = HostUnavailableError "h1" 2375 (ConnectionError "h1:2375") ∧
           fail_counter (breaker_of (address "h1" 2375) s') = 1%Z) ∧
  (∃ e s', stop_job literal_match single_pool "t" (set_faults [Refused] bound_state)
             = (Raise e, s') ∧
           e = HostUnavailableError "h1" 2375 (ConnectionError "h1:2375") ∧
           fail_counter (breaker_of (address "h1" 2375) s') = 1%Z) ∧
  (∃ s', mark_as_done literal_match single_pool "t" (set_faults [Refused] bound_state)
           = (Raise (HostUnavailableError "h1" 2375 (ConnectionError "h1:2375")), s') ∧
         circuits s' = circuits bound_state).
Proof.
  destruct (connection_failure_reaches_caller
              literal_match string parse_any decode_ascii single_pool "t")
    as (Hupdate & Hbound).
  assert (bound_to single_pool (set_faults [Refused] bound_state) "h1" 2375 "h1:2375")
    as Hb.
  { exists (PStr "h1"), (PInt 2375). vm_compute. repeat split; reflexivity. }
  assert (is_Some (metadata (set_faults [Refused] bound_state) !! "container_id")) as Hcid.
  { vm_compute. eexists. reflexivity. }
  destruct (Hbound (set_faults [Refused] bound_state) "h1" 2375 "h1:2375" Hb eq_refl)
    as (Hbreaker & Hdirect).
  split; [|split].
  - destruct (Hupdate "img" "v1" None (set_faults [Healthy; Refused] fresh)
                "h1" 2375 "h1:2375"
                (snd ((get_client literal_match single_pool "t" None None (Some ∅)
                         ≫= unpack) (set_faults [Healthy; Refused] fresh))))
      as (e & s' & Hrun & Hor & Hcount & Hsame); [vm_compute; reflexivity ..|].
    exists e, s'. split; [done|]. split.
    + apply Hsame; vm_compute; reflexivity.
    + rewrite Hcount. vm_compute. reflexivity.
  - destruct Hbreaker as (_ & Hstop); [vm_compute; reflexivity|].
    destruct (Hstop Hcid) as ((e & s' & Hrun & Hor & Hcount & Hsame) & _).
    exists e, s'. split; [done|]. split.
    + apply Hsame; vm_compute; reflexivity.
    + rewrite Hcount. vm_compute. reflexivity.
  - exact (proj2 (Hdirect Hcid)).
Defined.

(** * Scenarios *)

(** Routing by pattern: a [gpu-] task goes to the first farm, any other
    task to the second. *)
Example regex_routing :
  fst (get_client literal_match sample_pool "gpu-42" None None None fresh)
    = Ret (Some gpu_host) ∧
  fst (get_client literal_match sample_pool "web-1" None None None fresh)
    = Ret (Some h1).
Proof. split; vm_compute; reflexivity. Qed.

(** The draw of [random] picks among the eligible hosts only. *)
Example blacklist_honored :
  Forall (λ n, fst (get_client literal_match sample_pool "web-1" None None
                      (Some {["h1:2375"]}) (set_rand [n] fresh)) = Ret (Some h2))
         [0; 1; 2; 3; 7; 100]%nat.
Proof. repeat constructor. Qed.

Example both_hosts_can_be_drawn :
  fst (get_client literal_match sample_pool "web-1" None None None (set_rand [0%nat] fresh))
    = Ret (Some h1) ∧
  fst (get_client literal_match sample_pool "web-1" None None None (set_rand [1%nat] fresh))
    = Ret (Some h2).
Proof. split; vm_compute; reflexivity. Qed.

(** A probe of [refresh_circuits] that fails while the breaker stays closed
    is not a [CircuitBreakerError]: the connection error leaves
    [get_client]. The failure that reaches [fail_max] opens the breaker, is
    caught, and the host is no longer eligible. *)
Example breaker_trips :
  let s0 := set_faults [Refused; Refused] reap_state in
  let s1 := snd (get_client literal_match single_pool "t" None None None s0) in
  let s2 := snd (get_client literal_match single_pool "t" None None None s1) in
  fst (get_client literal_match single_pool "t" None None None s0)
    = Raise (ConnectionError "h1:2375") ∧
  breaker_of "h1:2375" s1
    = {| b_state := closed; fail_counter := 1; opened_at := None |} ∧
  fst (get_client literal_match single_pool "t" None None None s1)
    = Raise (RuntimeError "Failed to find a docker host for task id t.") ∧
  breaker_of "h1:2375" s2
    = {| b_state := open; fail_counter := 2; opened_at := Some 1000 |} ∧
  fst (get_client literal_match single_pool "t" None None None s2)
    = Raise (RuntimeError "Failed to find a docker host for task id t.").
Proof. repeat split; vm_compute; reflexivity. Qed.

(** Reaping: the defunct container of each host is removed and reported,
    the live ones stay. *)
Example defunct_reap :
  fst (remove_done two_hosts reap_state)
    = Ret [ {| removed_host := "h1:2375"; removed_name := "defunct-fastlane-job-x1";
               removed_id := "a1"; removed_image := "img:v1" |};
            {| removed_host := "h2:2375"; removed_name := "defunct-fastlane-job-x2";
               removed_id := "b1"; removed_image := "img:v1" |} ] ∧
  engines (snd (remove_done two_hosts reap_state)) !! "h1:2375"
    = Some [ job_container "a2" "fastlane-job-y1" ].
Proof. split; vm_compute; reflexivity. Qed.

(** [remove_done] calls the hosts directly: a refused connection is raised
    as it is. *)
Example remove_done_raises_connection_error :
  fst (remove_done two_hosts (set_faults [Refused] reap_state))
    = Raise (ConnectionError "h1:2375").
Proof. vm_compute. reflexivity. Qed.

(** The happy path up to the start of the container. *)
Example update_image_then_run :
  let s1 := snd (update_image literal_match single_pool "t" "img" "v1" None fresh) in
  let s2 := snd (run literal_match single_pool "t" "e1" "img" "v1" "echo" [] None s1) in
  metadata s1 = {[ "docker_host" := PStr "h1"; "docker_port" := PInt 2375 ]} ∧
  fst (run literal_match single_pool "t" "e1" "img" "v1" "echo" [] None s1) = Ret true ∧
  metadata s2 !! "container_id" = Some (PStr "1") ∧
  (c_name <$> container_of "h1:2375" "1" s2) = Some "fastlane-job-e1".
Proof. repeat split; vm_compute; reflexivity. Qed.

(** The capacity check on the small installation: nothing is running. *)
Example capacity_check :
  fst (validate_max_running_executions literal_match sample_pool "web-1" fresh) = Ret true.
Proof. vm_compute. reflexivity. Qed.

(** The f-string rendering of [bytes]. *)
Example bytes_repr_examples :
  bytes_repr (list_byte_of_string "err") = "b'err'" ∧
  bytes_repr [Byte.x0a; Byte.x27; Byte.xff] = String.app "b" (String dquote
    (String.app "\n'\xff" (String dquote EmptyString))).
Proof. split; vm_compute; reflexivity. Qed.

(** * Further properties on the small installation *)

(** The body of the tests, posted for [h1:2375]. *)
Lemma add_to_blacklist_adds_member_witness :
  ∃ s', add_to_blacklist loads_h1 member_text post_h1 fresh = (Ret (EmptyString, 200), s') ∧
        blacklisted s' = {["h1:2375"]} ∪ blacklisted fresh ∧
        only_blacklist fresh s' ∧
        fst (get_blacklisted_hosts s') = Ret ({["h1:2375"]} ∪ blacklisted fresh).
Proof.
  apply (add_to_blacklist_adds_member loads_h1 member_text post_h1 fresh
           [("host", JStr "h1:2375")] (JStr "h1:2375") "h1:2375").
  - vm_compute. reflexivity.
  - vm_compute. reflexivity.
  - reflexivity.
Defined.

(** An object without [host] is refused by both endpoints. *)
Lemma blacklist_endpoints_reject_missing_host_witness :
  (∃ msg, add_to_blacklist loads_h1 member_text post_name fresh = (Ret (msg, 400), fresh)) ∧
  (∃ msg, remove_from_blacklist loads_h1 member_text post_name fresh
          = (Ret (msg, 400), fresh)).
Proof.
  apply (blacklist_endpoints_reject_missing_host loads_h1 member_text post_name fresh
           (JObj [("name", JStr "h1:2375")])).
  - reflexivity.
  - right. right. exists [("name", JStr "h1:2375")]. split; reflexivity.
Defined.

(** Blacklisting [h1:2375] and taking it off again, and the other way
    round. *)
Lemma blacklist_add_then_remove_witness :
  (∃ s1 s2,
     add_to_blacklist loads_h1 member_text json_h1 fresh = (Ret (EmptyString, 200), s1) ∧
     remove_from_blacklist loads_h1 member_text json_h1 s1 = (Ret (EmptyString, 200), s2) ∧
     blacklisted s2 = blacklisted fresh ∖ {["h1:2375"]} ∧ only_blacklist fresh s2) ∧
  (∃ s1 s2,
     remove_from_blacklist loads_h1 member_text json_h1 fresh = (Ret (EmptyString, 200), s1) ∧
     add_to_blacklist loads_h1 member_text json_h1 s1 = (Ret (EmptyString, 200), s2) ∧
     blacklisted s2 = {["h1:2375"]} ∪ blacklisted fresh ∧ only_blacklist fresh s2).
Proof.
  apply (blacklist_add_then_remove loads_h1 member_text json_h1 json_h1 fresh
           [("host", JStr "h1:2375")] (JStr "h1:2375") "h1:2375").
  - intros s0. reflexivity.
  - intros s0. reflexivity.
  - vm_compute. reflexivity.
  - reflexivity.
Defined.

(** [update_image] for a task of the second farm, with [h1] blacklisted,
    binds a host of that farm other than [h1]. *)
Lemma update_image_binds_eligible_host_witness :
  ∃ regex cls host port cl,
    (regex, cls) ∈ clients_per_regex sample_pool ∧
    (regex = None ∨ ∃ r, regex = Some r ∧ literal_match r "web-1" = true) ∧
    (host, port, cl) ∈ cls ∧
    (address host port ∉ default (blacklisted fresh) (Some ({["h1:2375"]} : gset string))) ∧
    metadata (snd (update_image literal_match sample_pool "web-1" "img" "v1"
                     (Some {["h1:2375"]}) fresh))
      = <["docker_port" := PInt port]> (<["docker_host" := PStr host]> (metadata fresh)).
Proof.
  apply (update_image_binds_eligible_host literal_match sample_pool "web-1" "img" "v1"
           (Some {["h1:2375"]}) fresh).
  vm_compute. reflexivity.
Defined.

(** After [h1:2375] is posted to the blacklist, a task of the second farm
    is bound to another host. *)
Lemma blacklisted_member_is_never_bound_witness :
  ∃ h p,
    metadata (snd (update_image literal_match sample_pool "web-1" "img" "v1" None
                     (snd (add_to_blacklist loads_h1 member_text post_h1 fresh)))) !! "docker_host"
      = Some (PStr h) ∧
    metadata (snd (update_image literal_match sample_pool "web-1" "img" "v1" None
                     (snd (add_to_blacklist loads_h1 member_text post_h1 fresh)))) !! "docker_port"
      = Some (PInt p) ∧
    address h p ≠ "h1:2375".
Proof.
  apply (blacklisted_member_is_never_bound literal_match loads_h1 member_text post_h1 fresh
           [("host", JStr "h1:2375")] (JStr "h1:2375") "h1:2375"
           (fst (add_to_blacklist loads_h1 member_text post_h1 fresh))
           (snd (add_to_blacklist loads_h1 member_text post_h1 fresh))
           sample_pool "web-1" "img" "v1").
  - vm_compute. reflexivity.
  - vm_compute. reflexivity.
  - reflexivity.
  - vm_compute. reflexivity.
  - vm_compute. reflexivity.
Defined.

(** [run] for an execution bound to [h1] starts the container there
    although [h1:2375] is in the blacklist of the store. *)
Lemma run_on_bound_host_ignores_blacklist_witness :
  ∃ c s',
    run literal_match single_pool "t" "e1" "img" "v1" "cmd" [] None bound_idle
      = (Ret true, s') ∧
    c_name c = job_prefix +:+ "-" +:+ "e1" ∧
    c_status c = "running" ∧
    engines s' !! "h1:2375" = Some (app [] [c]) ∧
    metadata s' = <["container_id" := PStr (c_id c)]> (metadata bound_idle).
Proof.
  apply (run_on_bound_host_ignores_blacklist literal_match single_pool "t" "e1" "img" "v1"
           "cmd" [] None bound_idle "h1" 2375 "h1:2375" []).
  - exists (PStr "h1"), (PInt 2375). vm_compute. by repeat split.
  - vm_compute. reflexivity.
  - reflexivity.
  - vm_compute. reflexivity.
  - reflexivity.
Defined.

(** An engine error at the start of the container: [run] raises it and the
    binding is as it was. *)
Lemma engine_error_keeps_binding_witness :
  ∃ e s',
    run literal_match single_pool "t" "e1" "img" "v1" "cmd" [] None
        (set_faults [Failing "no such image"] bound_idle) = (Raise e, s') ∧
    metadata s' = metadata (set_faults [Failing "no such image"] bound_idle) ∧
    counted_failure (address "h1" 2375) (APIError "no such image")
                    (set_faults [Failing "no such image"] bound_idle) e s'.
Proof.
  apply (proj2 (engine_error_keeps_binding literal_match single_pool "t" "no such image")
           "e1" "img" "v1" "cmd" [] None (set_faults [Failing "no such image"] bound_idle)
           "h1" 2375 "h1:2375").
  - exists (PStr "h1"), (PInt 2375). vm_compute. by repeat split.
  - vm_compute. reflexivity.
  - reflexivity.
Defined.

(** [stop_job] on the bound container of [h1]. *)
Lemma stop_job_stops_bound_container_witness :
  ∃ s' cs',
    stop_job literal_match single_pool "t" bound_state = (Ret tt, s') ∧
    metadata s' = metadata bound_state ∧
    engines s' !! "h1:2375" = Some cs' ∧
    find (has_id (fmt (PStr "c1"))) cs' = Some (with_status "exited" exited_container) ∧
    (∀ c0, c0 ∈ [exited_container] → c_id c0 ≠ fmt (PStr "c1") → c0 ∈ cs').
Proof.
  apply (proj2 (stop_job_stops_bound_container literal_match single_pool "t" bound_state)
           "h1" 2375 "h1:2375" (PStr "c1") [exited_container] exited_container).
  - exists (PStr "h1"), (PInt 2375). vm_compute. by repeat split.
  - vm_compute. reflexivity.
  - vm_compute. reflexivity.
  - reflexivity.
  - vm_compute. reflexivity.
  - reflexivity.
Defined.

(** [get_result] twice on the exited container of [h1]. *)
Lemma get_result_is_repeatable_witness :
  ∃ s1 s2,
    get_result literal_match string parse_any single_pool "t" bound_state
      = (Ret (result_of string exited_container "2024-01-01T00:00:00Z"
                        "2024-01-01T00:00:01Z"), s1) ∧
    get_result literal_match string parse_any single_pool "t" s1
      = (Ret (result_of string exited_container "2024-01-01T00:00:00Z"
                        "2024-01-01T00:00:01Z"), s2) ∧
    metadata s2 = metadata bound_state ∧
    engines s2 !! "h1:2375" = Some [exited_container].
Proof.
  apply (get_result_is_repeatable literal_match string parse_any single_pool "t" bound_state
           "h1" 2375 "h1:2375" (PStr "c1") [exited_container] exited_container).
  - exists (PStr "h1"), (PInt 2375). vm_compute. by repeat split.
  - vm_compute. reflexivity.
  - vm_compute. reflexivity.
  - reflexivity.
  - reflexivity.
  - reflexivity.
  - vm_compute. reflexivity.
  - reflexivity.
Defined.

(** A [web-] task and a pool that only takes [gpu-] tasks. *)
Lemma unmatched_task_passes_capacity_check_witness :
  validate_max_running_executions literal_match gpu_pool "web-1" fresh = (Ret true, fresh) ∧
  get_client literal_match gpu_pool "web-1" None None None fresh
    = (Raise (RuntimeError (no_host_msg "web-1")), fresh).
Proof.
  apply (unmatched_task_passes_capacity_check literal_match gpu_pool "web-1" None fresh).
  repeat constructor.
Defined.

(** A [web-] task is counted on the farm without pattern, that is on all
    the hosts of the pool. *)
Lemma capacity_check_counts_first_matching_farm_witness :
  validate_max_running_executions literal_match sample_pool "web-1" fresh
    = (found ← get_running_containers sample_pool None None;
       max ← max_running_of sample_pool None;
       mret (capacity_ok (Z.of_nat (length (running found))) max)) fresh ∧
  ∃ l s', _get_all_clients sample_pool None fresh = (Ret l, s') ∧
          map fst l = dict_values (clients sample_pool).
Proof.
  apply (capacity_check_counts_first_matching_farm literal_match sample_pool "web-1"
           [(Some "gpu-", [gpu_host])] None [h1; h2] [] fresh).
  - reflexivity.
  - repeat constructor.
  - reflexivity.
Defined.

(** [sample_pool] is the pool built from [sample_hosts]. *)
Lemma pool_farms_follow_configuration_witness :
  Forall2 (λ farm built,
             built.1 = farm.1.1 ∧
             Forall2 (λ a c, ∃ host port p,
                        a = host +:+ ":" +:+ port ∧
                        split_char ":" a = [host; port] ∧
                        int_of_digits port = Some p ∧ c = (host, p, a))
                     farm.1.2 built.2)
          sample_hosts (clients_per_regex sample_pool).
Proof.
  apply (pool_farms_follow_configuration int_of_digits any_text sample_hosts sample_pool).
  vm_compute. reflexivity.
Defined.

(** The index of [sample_pool] at the address of [h1]. *)
Lemma pool_index_follows_configuration_witness :
  (dict_get (clients sample_pool) "h1:2375" = Some h1 ↔
   "h1:2375" ∈ all_addresses sample_hosts ∧
   init_address int_of_digits any_text "h1:2375" = inr h1) ∧
  (∀ task_id host port bl s,
     fmt host +:+ ":" +:+ fmt port ∉ all_addresses sample_hosts →
     get_client literal_match sample_pool task_id (Some host) (Some port) bl s
       = (Ret None, s)).
Proof.
  apply (pool_index_follows_configuration literal_match int_of_digits any_text
           sample_hosts sample_pool "h1:2375" h1).
  vm_compute. reflexivity.
Defined.

(** The maximum of the farm without pattern. *)
Lemma max_running_of_last_farm_with_pattern_witness :
  max_running_of sample_pool None fresh = (Ret 8, fresh).
Proof.
  apply (max_running_of_last_farm_with_pattern int_of_digits any_text sample_hosts
           sample_pool [(Some "gpu-", ["hgpu:2375"], 4)] None ["h1:2375"; "h2:2375"] 8 []).
  - vm_compute. reflexivity.
  - reflexivity.
  - apply not_elem_of_nil.
Defined.

(** The farm without pattern is the last of [sample_clusters], and it is
    warned about. *)
Lemma every_cluster_without_match_is_warned_witness :
  1%nat ∈ [1%nat] ↔ ∃ c, sample_clusters !! 1%nat = Some c ∧ cl_match c = EmptyString.
Proof.
  apply (every_cluster_without_match_is_warned int_of_digits any_text any_text
           sample_clusters sample_pool [1%nat]).
  vm_compute. reflexivity.
Defined.

(** [sample_pool] is the pool of an executor configured with
    [sample_clusters]. *)
Lemma executor_pool_follows_clusters_witness :
  Forall2 (λ c farm, farm.1 = cluster_regex c ∧
                     map (λ x : host_client, x.2) farm.2 = cl_hosts c)
          sample_clusters (clients_per_regex sample_pool) ∧
  ∀ pre c post,
    sample_clusters = pre ++ c :: post →
    cluster_regex c ∉ map cluster_regex post →
    max_running sample_pool !! cluster_regex c = Some (default 10 (cl_max_running c)).
Proof.
  apply (executor_pool_follows_clusters int_of_digits any_text any_text
           sample_clusters sample_pool [1%nat]).
  vm_compute. reflexivity.
Defined.

(** The reaper on two hosts that answer: the two defunct containers are
    reported and removed, the two others stay. *)
Lemma remove_done_removes_the_defunct_witness :
  ∃ s',
    remove_done two_hosts reap_state
      = (Ret (concat (map (λ '(h, p, cl),
                             map (removed_entry h p)
                                 (filter (λ c, defunct c = true)
                                         (host_containers reap_state cl)))
                          (dict_values (clients two_hosts)))), s') ∧
    (∀ h p cl, (h, p, cl) ∈ dict_values (clients two_hosts) →
       host_containers s' cl
         = filter (λ c, defunct c = false) (host_containers reap_state cl)) ∧
    (∀ cl, cl ∉ map (λ x : host_client, x.2) (dict_values (clients two_hosts)) →
       host_containers s' cl = host_containers reap_state cl).
Proof.
  apply (remove_done_removes_the_defunct two_hosts reap_state).
  - reflexivity.
  - vm_compute. apply (bool_decide_unpack _). vm_compute. reflexivity.
  - intros h p cl Hin. vm_compute in Hin.
    apply elem_of_cons in Hin as [[= -> -> ->]|Hin];
      [|apply elem_of_cons in Hin as [[= -> -> ->]|Hin];
        [|by apply elem_of_nil in Hin]].
    + split.
      * vm_compute. apply (bool_decide_unpack _). vm_compute. reflexivity.
      * intros c Hc _. vm_compute in Hc.
        apply elem_of_cons in Hc as [->|Hc];
          [done|apply elem_of_cons in Hc as [->|Hc]; [done|by apply elem_of_nil in Hc]].
    + split.
      * vm_compute. apply (bool_decide_unpack _). vm_compute. reflexivity.
      * intros c Hc _. vm_compute in Hc.
        apply elem_of_cons in Hc as [->|Hc];
          [done|apply elem_of_cons in Hc as [->|Hc]; [done|by apply elem_of_nil in Hc]].
Defined.

(** The second host refuses the connection: [remove_done] raises after it
    has reaped the first host, and the live container of the first host is
    still there. *)
Lemma remove_done_spares_other_containers_witness :
  job_container "a2" "fastlane-job-y1"
    ∈ host_containers
        (snd (remove_done two_hosts
                (set_faults [Healthy; Healthy; Healthy; Refused] reap_state)))
        "h1:2375" ∧
  ∀ c', c' ∈ host_containers
               (snd (remove_done two_hosts
                       (set_faults [Healthy; Healthy; Healthy; Refused] reap_state)))
               "h1:2375" →
        c' ∈ host_containers (set_faults [Healthy; Healthy; Healthy; Refused] reap_state)
                             "h1:2375".
Proof.
  apply (remove_done_spares_other_containers two_hosts
           (set_faults [Healthy; Healthy; Healthy; Refused] reap_state)
           (fst (remove_done two_hosts
                   (set_faults [Healthy; Healthy; Healthy; Refused] reap_state)))
           (snd (remove_done two_hosts
                   (set_faults [Healthy; Healthy; Healthy; Refused] reap_state)))
           "h1:2375" (job_container "a2" "fastlane-job-y1")).
  - apply surjective_pairing.
  - vm_compute. right. left.
  - intros d Hd Hid. vm_compute in Hd.
    apply elem_of_cons in Hd as [->|Hd];
      [discriminate|apply elem_of_cons in Hd as [->|Hd];
                      [reflexivity|by apply elem_of_nil in Hd]].
Defined.

(** With both hosts of the second farm blacklisted, a [web-] task raises
    and the state is untouched. *)
Lemma blacklisted_hosts_are_not_probed_witness :
  get_client literal_match sample_pool "web-1" None None
    (Some {["h1:2375"; "h2:2375"]}) fresh
  = (Raise (RuntimeError (no_host_msg "web-1")), fresh).
Proof.
  apply (blacklisted_hosts_are_not_probed literal_match sample_pool "web-1"
           {["h1:2375"; "h2:2375"]} fresh).
  apply Forall_cons. split; [intros Hm; vm_compute in Hm; discriminate|].
  apply Forall_cons. split; [|constructor].
  intros _. repeat (apply Forall_cons; split; [|try constructor]);
    apply (bool_decide_unpack _); vm_compute; reflexivity.
Defined.

(** The container of the bound execution is marked and then reaped. *)
Lemma marked_container_is_removed_witness :
  ∃ s1 removed s2,
    mark_as_done literal_match single_pool "t" bound_state = (Ret tt, s1) ∧
    remove_done single_pool s1 = (Ret removed, s2) ∧
    removed_entry "h1" 2375
      (with_name ("defunct-" +:+ c_name exited_container) exited_container) ∈ removed ∧
    (∀ c', c' ∈ host_containers s2 "h1:2375" → c_id c' ≠ fmt (PStr "c1")) ∧
    (∀ c', c' ∈ host_containers bound_state "h1:2375" → defunct c' = false →
           c_id c' ≠ fmt (PStr "c1") → c' ∈ host_containers s2 "h1:2375").
Proof.
  apply (marked_container_is_removed literal_match single_pool "t" "e1" bound_state
           "h1" 2375 "h1:2375" (PStr "c1") exited_container).
  - reflexivity.
  - exists (PStr "h1"), (PInt 2375). vm_compute. by repeat split.
  - vm_compute. reflexivity.
  - vm_compute. reflexivity.
  - reflexivity.
  - discriminate.
  - vm_compute. reflexivity.
  - vm_compute. apply (bool_decide_unpack _). vm_compute. reflexivity.
  - intros h p cl Hin. vm_compute in Hin.
    apply elem_of_cons in Hin as [[= -> -> ->]|Hin]; [|by apply elem_of_nil in Hin].
    split.
    + vm_compute. apply (bool_decide_unpack _). vm_compute. reflexivity.
    + intros c Hc _. vm_compute in Hc.
      apply elem_of_cons in Hc as [->|Hc]; [done|by apply elem_of_nil in Hc].
Defined.

Lemma decode_ascii_app a b x y :
  decode_ascii a = Some x → decode_ascii b = Some y →
  decode_ascii (a ++ b) = Some (x +:+ y).
Proof.
  unfold decode_ascii. intros [= <-] [= <-]. f_equal.
  induction a as [|c a IH]; [reflexivity|].
  change (String (ascii_of_byte c) (string_of_list_byte (a ++ b))
          = String (ascii_of_byte c) (string_of_list_byte a +:+ string_of_list_byte b)).
  by rewrite IH.
Qed.

(** The output of the exited container, streamed and read at once. *)
Lemma streamed_logs_join_to_current_logs_witness :
  (∃ s', get_streaming_logs literal_match decode_ascii single_pool "t" bound_state
           = (Ret ["out"; "err"], s') ∧
         ∀ cl', host_containers s' cl' = host_containers bound_state cl') ∧
  (∃ s', get_current_logs literal_match decode_ascii single_pool "t" bound_state
           = (Ret "outerr", s')).
Proof.
  destruct (streamed_logs_join_to_current_logs literal_match decode_ascii single_pool "t"
              bound_state "h1" 2375 "h1:2375" (PStr "c1") exited_container ["out"; "err"])
    as (Hstream & _ & Hjoin).
  - reflexivity.
  - exists (PStr "h1"), (PInt 2375). vm_compute. by repeat split.
  - vm_compute. reflexivity.
  - vm_compute. reflexivity.
  - repeat constructor.
  - split; [exact Hstream|]. apply Hjoin; [reflexivity|]. apply decode_ascii_app.
Defined.

(** The only host refuses the probe of a first selection: the connection
    error leaves [get_client] and [update_image] as it is. *)
Lemma refused_probe_escapes_selection_witness :
  ∃ s', get_client literal_match single_pool "t" None None (Some ∅)
          (set_faults [Refused] fresh) = (Raise (ConnectionError "h1:2375"), s') ∧
        update_image literal_match single_pool "t" "img" "v1" (Some ∅)
          (set_faults [Refused] fresh) = (Raise (ConnectionError "h1:2375"), s') ∧
        fail_counter (breaker_of (address "h1" 2375) s')
          = (fail_counter (breaker_of (address "h1" 2375) (set_faults [Refused] fresh)) + 1)%Z ∧
        b_state (breaker_of (address "h1" 2375) s') = closed.
Proof.
  apply (refused_probe_escapes_selection literal_match single_pool "t" "img" "v1" ∅
           (set_faults [Refused] fresh) [] None [] "h1" 2375 "h1:2375" [] []).
  - reflexivity.
  - constructor.
  - reflexivity.
  - constructor.
  - apply not_elem_of_empty.
  - reflexivity.
  - vm_compute. reflexivity.
  - reflexivity.
Defined.

(** [h1], whose breaker is open and whose timeout has run out, answers the
    probe and is selected. *)
Lemma open_breaker_recovers_through_probe_witness :
  ∃ s', get_client literal_match single_pool "t" None None (Some ∅) tripped_state
          = (Ret (Some ("h1", 2375, "h1:2375")), s') ∧
        b_state (breaker_of (address "h1" 2375) s') = closed.
Proof.
  apply (open_breaker_recovers_through_probe literal_match single_pool "t" ∅ tripped_state
           [] None [] "h1" 2375 "h1:2375" [] []).
  - reflexivity.
  - constructor.
  - reflexivity.
  - constructor.
  - constructor.
  - apply not_elem_of_empty.
  - vm_compute. reflexivity.
  - reflexivity.
Defined.

(** The fifth failure of [h1] opens its breaker; with no other farm the
    selection raises [RuntimeError]. *)
Lemma refused_probe_at_threshold_passes_farm_over_witness :
  ∃ s', b_state (breaker_of (address "h1" 2375) s') = open ∧
        get_client literal_match single_pool "t" None None (Some ∅) strained_state
          = (Raise (RuntimeError (no_host_msg "t")), s').
Proof.
  destruct (refused_probe_at_threshold_passes_farm_over literal_match single_pool "t" ∅
              strained_state [] None [] "h1" 2375 "h1:2375" [] [])
    as (s' & Hopen & _ & Hraise).
  - reflexivity.
  - constructor.
  - reflexivity.
  - constructor.
  - constructor.
  - apply not_elem_of_empty.
  - reflexivity.
  - vm_compute. discriminate.
  - reflexivity.
  - exists s'. split; [exact Hopen | by apply Hraise].
Defined.
